(** * Batch orchestration of the PDF conversion pipeline

    A shallow embedding of [process_paper.py] (date extraction, folder
    ordering, completion detection, the per-folder driver and its counters)
    and of [mineru_vlm.py] ([parse_doc] and [do_parse]: batching and the
    per-item and per-batch exception handlers).

    Conventions of the embedding.
    - A name is the [string] of its bytes; the Python [str] of a name is
      the list of the code points that [os.fsdecode] reads from the bytes.
    - A Python [int] is a [Z]; [//] is [Z.div] (both round towards minus
      infinity) with the division by zero raised explicitly.
    - A [pathlib.Path] is the list of its components.
    - The file system is a finite map from paths to node kinds.  The log
      lines of the driver and of the pipeline wrappers and the [time.sleep]
      calls are events appended to a trace; the diagnostic lines of the date
      extractor, the ranked listing and the echo of the configuration carry
      no decision and are not recorded.
    - A call that may raise returns a [result]; [try]/[except Exception] is a
      match on it.
    - The directory operations have their effect in [mkdir_exist_ok] and
      [makedirs] and their failures in [mkdir_raises] and [makedirs_raises].
      The driver calls them outside every [try]: [discover],
      [folder_iteration] and [process_folder_structure] are the run in which
      they return, [exec_discover], [exec_folder_iteration] and
      [exec_process_folder_structure] the run with their failures. *)

From Stdlib Require Import ZArith Lia List Ascii String Bool Sorted Permutation.
From stdpp Require Import gmap strings list.
Import ListNotations.

Local Open Scope Z_scope.

(** ** Exceptions and results *)

Inductive exn : Type :=
  | ValueError
  | ZeroDivisionError
  | TypeError
  | IndexError
  | OSError
  | CollaboratorError.

Inductive result (A : Type) : Type :=
  | Ok (a : A)
  | Raise (e : exn).

Arguments Ok {A} a.
Arguments Raise {A} e.

(** [try: body / except Exception: handler] for a body without side
    effects. *)
Definition try_except {A : Type} (body : result A) (handler : exn -> A) : A :=
  match body with
  | Ok a => a
  | Raise e => handler e
  end.

(** ** Calendar dates ([datetime.datetime] at midnight) *)

Record datetime : Type := mk_datetime { dt_year : Z; dt_month : Z; dt_day : Z }.

Definition is_leap (y : Z) : bool :=
  (y mod 4 =? 0) && (negb (y mod 100 =? 0) || (y mod 400 =? 0)).

Definition days_in_month (y m : Z) : Z :=
  if m =? 2 then (if is_leap y then 29 else 28)
  else if (m =? 4) || (m =? 6) || (m =? 9) || (m =? 11) then 30
  else 31.

(** The range checks of the [datetime] constructor: years 1..9999, months
    1..12, days within the month. *)
Definition valid_date (y m d : Z) : bool :=
  (1 <=? y) && (y <=? 9999) && (1 <=? m) && (m <=? 12) &&
  (1 <=? d) && (d <=? days_in_month y m).

Definition datetime_new (y m d : Z) : result datetime :=
  if valid_date y m d then Ok (mk_datetime y m d) else Raise ValueError.

(** Order of [datetime] values: lexicographic on year, month, day. *)
Definition datetime_leb (a b : datetime) : bool :=
  (dt_year a <? dt_year b) ||
  ((dt_year a =? dt_year b) &&
   ((dt_month a <? dt_month b) ||
    ((dt_month a =? dt_month b) && (dt_day a <=? dt_day b)))).

Definition datetime_eqb (a b : datetime) : bool :=
  (dt_year a =? dt_year b) && (dt_month a =? dt_month b) && (dt_day a =? dt_day b).

(** ** Python strings

    A name of the file system is a string of bytes.  Python reads it as the
    [str] that [os.fsdecode] makes of it: the code points of its UTF-8
    sequences, and the code point U+DC00 + b for every byte b that belongs
    to no well-formed sequence ([surrogateescape]).  The functions on names
    that look for the ASCII characters [.] and [-] or compare with ASCII
    text ([Path.suffix], [Path.stem], [glob('*.pdf')]) give the same on the
    bytes as on the code points and are written on the bytes; the date
    pattern, which has [\d], is written on the code points. *)

Definition code_point : Type := N.

Definition in_range (lo hi c : N) : bool := ((lo <=? c) && (c <=? hi))%N.

(** The well-formed sequences of two, three and four bytes. *)
Definition utf8_2 (b0 b1 : N) : option code_point :=
  if in_range 194 223 b0 && in_range 128 191 b1
  then Some ((b0 - 192) * 64 + (b1 - 128))%N
  else None.

Definition utf8_3 (b0 b1 b2 : N) : option code_point :=
  if in_range 128 191 b2 &&
     ((b0 =? 224)%N && in_range 160 191 b1 ||
      in_range 225 236 b0 && in_range 128 191 b1 ||
      (b0 =? 237)%N && in_range 128 159 b1 ||
      in_range 238 239 b0 && in_range 128 191 b1)
  then Some ((b0 - 224) * 4096 + (b1 - 128) * 64 + (b2 - 128))%N
  else None.

Definition utf8_4 (b0 b1 b2 b3 : N) : option code_point :=
  if in_range 128 191 b2 && in_range 128 191 b3 &&
     ((b0 =? 240)%N && in_range 144 191 b1 ||
      in_range 241 243 b0 && in_range 128 191 b1 ||
      (b0 =? 244)%N && in_range 128 143 b1)
  then Some ((b0 - 240) * 262144 + (b1 - 128) * 4096 + (b2 - 128) * 64 + (b3 - 128))%N
  else None.

Definition surrogate_escape (b : N) : code_point := (56320 + b)%N.

Fixpoint utf8_decode (bs : list N) : list code_point :=
  match bs with
  | [] => []
  | b0 :: r0 =>
      if (b0 <? 128)%N then b0 :: utf8_decode r0
      else
        match r0 with
        | b1 :: r1 =>
            match utf8_2 b0 b1 with
            | Some c => c :: utf8_decode r1
            | None =>
                match r1 with
                | b2 :: r2 =>
                    match utf8_3 b0 b1 b2 with
                    | Some c => c :: utf8_decode r2
                    | None =>
                        match r2 with
                        | b3 :: r3 =>
                            match utf8_4 b0 b1 b2 b3 with
                            | Some c => c :: utf8_decode r3
                            | None => surrogate_escape b0 :: utf8_decode r0
                            end
                        | [] => surrogate_escape b0 :: utf8_decode r0
                        end
                    end
                | [] => surrogate_escape b0 :: utf8_decode r0
                end
            end
        | [] => [surrogate_escape b0]
        end
  end.

(** The [str] of a name. *)
Definition str_of (name : string) : list code_point :=
  utf8_decode (map N_of_ascii (list_ascii_of_string name)).

(** ** Decimal digits

    [\d] in a [str] pattern and [int] take the decimal digits of every
    script (the general category Nd).  They come in runs of ten, from the
    digit zero of a script to its digit nine; the list has the zeros of the
    Unicode database 14.0 (that of CPython 3.11). *)
Definition decimal_zeros : list code_point :=
  [48; 1632; 1776; 1984; 2406; 2534; 2662; 2790;
   2918; 3046; 3174; 3302; 3430; 3558; 3664; 3792;
   3872; 4160; 4240; 6112; 6160; 6470; 6608; 6784;
   6800; 6992; 7088; 7232; 7248; 42528; 43216; 43264;
   43472; 43504; 43600; 44016; 65296; 66720; 68912; 69734;
   69872; 69942; 70096; 70384; 70736; 70864; 71248; 71360;
   71472; 71904; 72016; 72784; 73040; 73120; 92768; 92864;
   93008; 120782; 120792; 120802; 120812; 120822; 123200; 123632;
   125264; 130032]%N.

Definition decimal_value (c : code_point) : option Z :=
  match List.find (fun z => (z <=? c) && (c <? z + 10))%N decimal_zeros with
  | Some z => Some (Z.of_N (c - z))
  | None => None
  end.

(** [\d]. *)
Definition is_digit (c : code_point) : bool :=
  match decimal_value c with
  | Some _ => true
  | None => false
  end.

(** The character class [[lo-hi]] of ASCII digits [lo] and [hi]. *)
Definition digit_class (lo hi : Z) (c : code_point) : bool :=
  in_range (Z.to_N (48 + lo)) (Z.to_N (48 + hi)) c.

(** [int(s)] on a string of decimal digits. *)
Definition int_of (s : list code_point) : Z :=
  fold_left (fun acc c => 10 * acc + match decimal_value c with Some v => v | None => 0 end)
    s 0.

(** ** The date pattern [(\d{4}-\d{2}-\d{2})] *)

Definition dash : code_point := 45%N.

(** The pattern anchored at the head of [cs]: the ten matched characters. *)
Definition match_date_pattern (cs : list code_point) : option (list code_point) :=
  match cs with
  | y1 :: y2 :: y3 :: y4 :: h1 :: m1 :: m2 :: h2 :: d1 :: d2 :: _ =>
      if forallb is_digit [y1; y2; y3; y4; m1; m2; d1; d2]
         && (h1 =? dash)%N && (h2 =? dash)%N
      then Some [y1; y2; y3; y4; h1; m1; m2; h2; d1; d2]
      else None
  | _ => None
  end.

(** [re.findall]: the matches from left to right, without overlap.  [skip]
    counts the characters of the previous match that are still to be passed
    over. *)
Fixpoint re_findall_from (skip : nat) (cs : list code_point) : list (list code_point) :=
  match cs with
  | [] => []
  | _ :: rest =>
      match skip with
      | S k => re_findall_from k rest
      | O =>
          match match_date_pattern cs with
          | Some m => m :: re_findall_from 9 rest
          | None => re_findall_from 0 rest
          end
      end
  end.

Definition re_findall (folder_name : string) : list (list code_point) :=
  re_findall_from 0 (str_of folder_name).

(** ** [datetime.strptime(s, '%Y-%m-%d')] on a match of the pattern

    [strptime] matches its argument against the pattern that it makes of
    the format,
    [(?P<Y>\d\d\d\d)-(?P<m>1[0-2]|0[1-9]|[1-9])-(?P<d>3[0-1]|[1-2]\d|0[1-9]|[1-9]| [1-9])],
    and refuses what the match leaves over.  [findall] hands over only
    strings of ten characters, digits but for the two dashes, and
    [strptime_ymd] is [strptime] on these.  There the alternative [[1-9]]
    of the month cannot be followed by the dash, and the alternatives
    [[1-9]] and [ [1-9]] of the day leave a character over or do not
    match; the other alternatives are the ones below.  Then the numbers
    are read with [int] and the date is built; every refusal is a
    [ValueError]. *)

(** [1[0-2]|0[1-9]] *)
Definition match_month (m1 m2 : code_point) : bool :=
  digit_class 1 1 m1 && digit_class 0 2 m2 ||
  digit_class 0 0 m1 && digit_class 1 9 m2.

(** [3[0-1]|[1-2]\d|0[1-9]] *)
Definition match_day (d1 d2 : code_point) : bool :=
  digit_class 3 3 d1 && digit_class 0 1 d2 ||
  digit_class 1 2 d1 && is_digit d2 ||
  digit_class 0 0 d1 && digit_class 1 9 d2.

Definition strptime_ymd (s : list code_point) : result datetime :=
  match s with
  | [y1; y2; y3; y4; h1; m1; m2; h2; d1; d2] =>
      if forallb is_digit [y1; y2; y3; y4] && (h1 =? dash)%N &&
         match_month m1 m2 && (h2 =? dash)%N && match_day d1 d2
      then datetime_new (int_of [y1; y2; y3; y4]) (int_of [m1; m2]) (int_of [d1; d2])
      else Raise ValueError
  | _ => Raise ValueError
  end.

(** ** [extract_date_from_folder_name] *)

Definition sentinel_date : datetime := mk_datetime 1900 1 1.

Definition extract_date_body (folder_name : string) : result datetime :=
  let dates := re_findall folder_name in
  match dates with
  | first_date :: _ => strptime_ymd first_date
  | [] => Ok sentinel_date
  end.

Definition extract_date_from_folder_name (folder_name : string) : datetime :=
  try_except (extract_date_body folder_name) (fun _ => sentinel_date).


(** ** [list.sort(key=..., reverse=True)]

    The built-in sort is stable, also with [reverse=True]: the result is in
    descending order of the key and elements with equal keys keep the order
    they had.  The model is the insertion sort with these two properties;
    [stable_sort_desc_unique] below shows that they determine the result, so
    any sort with them returns the same list. *)

Definition datetime_ltb (a b : datetime) : bool :=
  (dt_year a <? dt_year b) ||
  ((dt_year a =? dt_year b) &&
   ((dt_month a <? dt_month b) ||
    ((dt_month a =? dt_month b) && (dt_day a <? dt_day b)))).

Section StableSort.
Context {A : Type} (key : A -> datetime).

(** [x] stood before every element of [l] in the input: it passes the
    elements with a strictly greater key and stops at the first other. *)
Fixpoint insert_desc (x : A) (l : list A) : list A :=
  match l with
  | [] => [x]
  | y :: l' =>
      if datetime_ltb (key x) (key y) then y :: insert_desc x l'
      else x :: y :: l'
  end.

Fixpoint sort_desc (l : list A) : list A :=
  match l with
  | [] => []
  | x :: l' => insert_desc x (sort_desc l')
  end.

(** Descending order of the keys, and the elements of one key. *)
Definition sorted_desc (l : list A) : Prop :=
  StronglySorted (fun a b => datetime_leb (key b) (key a) = true) l.

Definition with_key (k : datetime) (l : list A) : list A :=
  List.filter (fun a => datetime_eqb (key a) k) l.
End StableSort.

(** ** Paths *)

Definition path : Type := list string.

(** [Path.name]: the last component. *)
Definition path_name (p : path) : string := List.last p EmptyString.

(** [str.rfind]: the index of the last occurrence of [c]. *)
Fixpoint rfind (c : ascii) (cs : list ascii) : option nat :=
  match cs with
  | [] => None
  | x :: rest =>
      match rfind c rest with
      | Some i => Some (S i)
      | None => if Ascii.eqb x c then Some O else None
      end
  end.

(** [PurePath.suffix] and [PurePath.stem] of a file name: the name is split
    at its last dot, unless that dot is the first or the last character. *)
Definition split_at_suffix (name : string) : list ascii * list ascii :=
  let cs := list_ascii_of_string name in
  match rfind "."%char cs with
  | Some i =>
      if ((0 <? i) && (i <? length cs - 1))%nat
      then (firstn i cs, skipn i cs)
      else (cs, [])
  | None => (cs, [])
  end.

Definition path_suffix (name : string) : string :=
  string_of_list_ascii (snd (split_at_suffix name)).

Definition path_stem (name : string) : string :=
  string_of_list_ascii (fst (split_at_suffix name)).

(** The pattern [*.pdf] of [Path.glob] on one name. *)
Definition glob_pdf_match (name : string) : bool :=
  let cs := list_ascii_of_string name in
  bool_decide (skipn (length cs - 4)%nat cs = list_ascii_of_string ".pdf").

(** ** The file system and the trace *)

Inductive kind : Type := KFile | KDir.

#[global] Instance kind_eq_dec : EqDecision kind.
Proof. solve_decision. Defined.

Inductive level : Type := DEBUG | INFO | WARNING | ERROR.

Inductive message : Type :=
  (* process_folder_structure *)
  | MsgInputMissing
  | MsgNoSubfolders
  | MsgFoundSubfolders (n : nat)
  | MsgFolderStart (rank total : nat) (name : string)
  | MsgNoPdf (name : string)
  | MsgFoundPdfs (name : string) (n : nat)
  | MsgNoVlmDir (stem : string)
  | MsgItemComplete (stem : string)
  | MsgItemIncomplete (stem : string)
  | MsgSkippedItems (name : string) (n : Z)
  | MsgFolderAllDone (name : string)
  | MsgNeedParse (name : string) (n : nat)
  | MsgFolderDone (name : string)
  | MsgFolderError (name : string) (e : exn)
  | MsgWaitNextFolder
  | MsgSummary (pdfs skipped processed folders_skipped folders_processed : Z)
  | MsgAllFoldersDone
  (* parse_doc *)
  | MsgBatchStart (batch total : Z)
  | MsgReadOk (stem : string)
  | MsgReadFailed (stem : string)
  | MsgBatchEmpty (batch : Z)
  | MsgBatchDone (batch : Z)
  | MsgWaitNextBatch
  | MsgAllBatchesDone
  | MsgParseDocError (e : exn)
  (* do_parse *)
  | MsgParseItem (rank total : nat) (stem : string)
  | MsgItemDone (stem : string)
  | MsgItemError (stem : string) (e : exn)
  | MsgUnsupportedBackend (backend : string).

Inductive event : Type :=
  | Log (lv : level) (m : message)
  | Sleep (seconds : Z).

Record world : Type := mk_world {
  w_fs : gmap path kind;
  w_trace : list event
}.

Definition emit (e : event) (w : world) : world :=
  mk_world (w_fs w) (w_trace w ++ [e]).

Definition log (lv : level) (m : message) (w : world) : world :=
  emit (Log lv m) w.

Definition with_fs (f : gmap path kind -> gmap path kind) (w : world) : world :=
  mk_world (f (w_fs w)) (w_trace w).

Definition exists_ (fs : gmap path kind) (p : path) : bool :=
  bool_decide (is_Some (fs !! p)).

Definition is_dir (fs : gmap path kind) (p : path) : bool :=
  bool_decide (fs !! p = Some KDir).

Definition is_file (fs : gmap path kind) (p : path) : bool :=
  bool_decide (fs !! p = Some KFile).

(** The name of [p] inside [dir], when [p] is an entry of [dir]. *)
Definition entry_name (dir p : path) : option string :=
  match List.rev p with
  | name :: parent => if bool_decide (List.rev parent = dir) then Some name else None
  | [] => None
  end.

(** [Path.iterdir]: the entries of a directory, in the order the system
    lists them. *)
Definition iterdir (fs : gmap path kind) (dir : path) : list string :=
  omap (fun pk => entry_name dir (fst pk)) (map_to_list fs).

(** The effect of a call of [Path.mkdir(exist_ok=True)] that returns: a
    missing directory is created, an existing one is left as it is.  The
    call raises where [mkdir_raises] below says so; the tree is then as it
    was. *)
Definition mkdir_exist_ok (p : path) (fs : gmap path kind) : gmap path kind :=
  match fs !! p with
  | Some _ => fs
  | None => <[p := KDir]> fs
  end.

(** The effect of a call of [mkdir(parents=True, exist_ok=True)] or of
    [os.makedirs(exist_ok=True)] that returns: every prefix of the path is
    a directory, from the root down.  The call raises where
    [makedirs_raises] below says so. *)
Definition makedirs (p : path) (fs : gmap path kind) : gmap path kind :=
  fold_left (fun acc n => mkdir_exist_ok (firstn n p) acc) (seq 1 (length p)) fs.

(** Writing a file creates or replaces the node. *)
Definition write_file (p : path) (fs : gmap path kind) : gmap path kind :=
  <[p := KFile]> fs.

(** ** [sort_folders_by_date_desc] *)

Definition sort_folders_by_date_desc (folder_paths : list path) : list path :=
  let folder_date_pairs :=
    map (fun p => (p, extract_date_from_folder_name (path_name p))) folder_paths in
  let folder_date_pairs := sort_desc snd folder_date_pairs in
  map fst folder_date_pairs.

(** ** Computations with a world and exceptions *)

Definition M (A : Type) : Type := world -> result A * world.

Definition ret {A : Type} (a : A) : M A := fun w => (Ok a, w).

Definition raise {A : Type} (e : exn) : M A := fun w => (Raise e, w).

Definition bind {A B : Type} (c : M A) (k : A -> M B) : M B :=
  fun w =>
    match c w with
    | (Ok a, w') => k a w'
    | (Raise e, w') => (Raise e, w')
    end.

Notation "x <~ c ;; k" := (bind c (fun x => k))
  (at level 100, c at next level, right associativity).
Notation "c ;;; k" := (bind c (fun _ => k))
  (at level 100, right associativity).

(** [try: body / except Exception as e: handler]: what the body did to the
    world before it raised stays done. *)
Definition try_catch {A : Type} (body : M A) (handler : exn -> M A) : M A :=
  fun w =>
    match body w with
    | (Ok a, w') => (Ok a, w')
    | (Raise e, w') => handler e w'
    end.

Definition effect (f : world -> world) : M unit := fun w => (Ok tt, f w).

Definition when (b : bool) (c : M unit) : M unit := if b then c else ret tt.

(** A [for] loop whose body has no [break]: an exception of the body leaves
    the loop. *)
Fixpoint for_each {A : Type} (l : list A) (body : A -> M unit) : M unit :=
  match l with
  | [] => ret tt
  | x :: rest => body x ;;; for_each rest body
  end.

(** ** Python sequences *)

Definition len {A : Type} (l : list A) : Z := Z.of_nat (length l).

(** [range(n)]. *)
Definition py_range (n : Z) : list Z := map Z.of_nat (seq 0 (Z.to_nat n)).

(** A slice bound: negative bounds count from the end, and every bound is
    brought into [0, len]. *)
Definition slice_bound (n i : Z) : Z :=
  if i <? 0 then Z.max (i + n) 0 else Z.min i n.

(** [l[start:stop]]. *)
Definition py_slice {A : Type} (l : list A) (start stop : Z) : list A :=
  let s := slice_bound (len l) start in
  let e := slice_bound (len l) stop in
  firstn (Z.to_nat (e - s)) (skipn (Z.to_nat s) l).

(** ** The conversion pipeline ([mineru_vlm.py]) *)

Inductive make_mode : Type := MM_MD | NLP_MD | CONTENT_LIST.

(** The keyword parameters of [parse_doc] apart from [path_list],
    [output_dir] and [batch_size]. *)
Record parse_options : Type := mk_parse_options {
  lang : string;
  backend : string;
  server_url : option string;
  start_page_id : Z;
  end_page_id : option Z;
  formula_enable : bool;
  table_enable : bool;
  f_draw_layout_bbox : bool;
  f_dump_md : bool;
  f_dump_middle_json : bool;
  f_dump_model_output : bool;
  f_dump_orig_pdf : bool;
  f_dump_content_list : bool;
  f_make_md_mode : make_mode
}.

Definition default_options : parse_options :=
  {| lang := "en"; backend := "vlm-transformers"; server_url := None;
     start_page_id := 0; end_page_id := None;
     formula_enable := true; table_enable := true;
     f_draw_layout_bbox := true; f_dump_md := true;
     f_dump_middle_json := true; f_dump_model_output := true;
     f_dump_orig_pdf := true; f_dump_content_list := true;
     f_make_md_mode := MM_MD |}.

(** The steps of [do_parse] on one document at which a collaborator of the
    [mineru] library is called. *)
Inductive stage : Type :=
  | Convert | PrepareEnv | Analyze | DrawLayout | DumpOrig
  | DumpMd | DumpContentList | DumpMiddleJson | DumpModelOutput.

#[global] Instance stage_eq_dec : EqDecision stage.
Proof. solve_decision. Defined.

(** The collaborators are opaque.  What a run can see of them is whether
    reading a document fails and at which step, if any, the conversion of a
    document raises.  The bytes of a document are represented by the path
    they were read from. *)
Record collaborators : Type := mk_collaborators {
  read_fault : path -> bool;
  item_fault : path -> option stage
}.

Section Pipeline.
Variable env : collaborators.

(** [read_fn]: the bytes of a regular file. *)
Definition read_fn (p : path) : M path :=
  fun w =>
    if is_file (w_fs w) p && negb (read_fault env p)
    then (Ok p, w) else (Raise OSError, w).

(** A call into the library for the document [pdf_bytes] at step [s]. *)
Definition collaborator (s : stage) (pdf_bytes : path) : M unit :=
  if bool_decide (item_fault env pdf_bytes = Some s)
  then raise CollaboratorError else ret tt.

(** [md_writer.write] and [write_string], and [draw_layout_bbox], leave a
    file in the document's directory. *)
Definition write_artifact (local_md_dir : path) (file_name : string) : M unit :=
  effect (with_fs (write_file (local_md_dir ++ [file_name]))).

(** [prepare_env(output_dir, pdf_file_name, "vlm")], when its two calls of
    [os.makedirs] return.  The name is joined to the output directory as it
    is: a name [..] is a component like any other here, whereas the system
    resolves it to the parent of the output directory.  A call of
    [os.makedirs] that raises is inside the [try] of [do_parse] and ends the
    conversion of the document like the fault of a collaborator: it is a
    fault of the step [PrepareEnv]. *)
Definition prepare_env (output_dir : path) (pdf_file_name : string) : M (path * path) :=
  let local_md_dir := output_dir ++ [pdf_file_name; "vlm"%string] in
  let local_image_dir := local_md_dir ++ ["images"%string] in
  effect (with_fs (makedirs local_image_dir)) ;;;
  effect (with_fs (makedirs local_md_dir)) ;;;
  ret (local_image_dir, local_md_dir).

(** The body of the [try] of [do_parse] for one document. *)
Definition parse_item (output_dir : path) (o : parse_options)
    (pdf_file_name : string) (pdf_bytes : path) : M unit :=
  when ((0 <? start_page_id o) || bool_decide (is_Some (end_page_id o)))
    (collaborator Convert pdf_bytes) ;;;
  collaborator PrepareEnv pdf_bytes ;;;
  dirs <~ prepare_env output_dir pdf_file_name ;;
  let local_md_dir := snd dirs in
  collaborator Analyze pdf_bytes ;;;
  when (f_draw_layout_bbox o)
    (collaborator DrawLayout pdf_bytes ;;;
     write_artifact local_md_dir (pdf_file_name ++ "_layout.pdf")) ;;;
  when (f_dump_orig_pdf o)
    (collaborator DumpOrig pdf_bytes ;;;
     write_artifact local_md_dir (pdf_file_name ++ "_origin.pdf")) ;;;
  when (f_dump_md o)
    (collaborator DumpMd pdf_bytes ;;;
     write_artifact local_md_dir (pdf_file_name ++ ".md")) ;;;
  when (f_dump_content_list o)
    (collaborator DumpContentList pdf_bytes ;;;
     write_artifact local_md_dir (pdf_file_name ++ "_content_list.json")) ;;;
  when (f_dump_middle_json o)
    (collaborator DumpMiddleJson pdf_bytes ;;;
     write_artifact local_md_dir (pdf_file_name ++ "_middle.json")) ;;;
  when (f_dump_model_output o)
    (collaborator DumpModelOutput pdf_bytes ;;;
     write_artifact local_md_dir (pdf_file_name ++ "_model_output.txt")) ;;;
  effect (log INFO (MsgItemDone pdf_file_name)).

(** The loop of [do_parse] over [enumerate(pdf_bytes_list)]. *)
Fixpoint do_parse_loop (output_dir : path) (o : parse_options)
    (pdf_file_names : list string) (idx : nat) (pdf_bytes_list : list path) : M unit :=
  match pdf_bytes_list with
  | [] => ret tt
  | pdf_bytes :: rest =>
      match pdf_file_names !! idx with
      | None => raise IndexError
      | Some pdf_file_name =>
          effect (log INFO (MsgParseItem (S idx) (length pdf_file_names) pdf_file_name)) ;;;
          try_catch (parse_item output_dir o pdf_file_name pdf_bytes)
            (fun e => effect (log ERROR (MsgItemError pdf_file_name e))) ;;;
          do_parse_loop output_dir o pdf_file_names (S idx) rest
      end
  end.

Definition do_parse (output_dir : path) (pdf_file_names : list string)
    (pdf_bytes_list : list path) (o : parse_options) : M unit :=
  if String.eqb (backend o) "vlm-transformers"
  then do_parse_loop output_dir o pdf_file_names 0 pdf_bytes_list
  else effect (log ERROR (MsgUnsupportedBackend (backend o))).

(** The loop of [parse_doc] that reads the documents of a batch. *)
Fixpoint read_batch (current_batch : list path)
    (acc : list string * list path) : M (list string * list path) :=
  match current_batch with
  | [] => ret acc
  | p :: rest =>
      let file_name := path_stem (path_name p) in
      acc' <~ try_catch
                (pdf_bytes <~ read_fn p ;;
                 effect (log INFO (MsgReadOk file_name)) ;;;
                 ret (fst acc ++ [file_name], snd acc ++ [pdf_bytes]))
                (fun e => effect (log ERROR (MsgReadFailed file_name)) ;;; ret acc) ;;
      read_batch rest acc'
  end.

Definition total_batches (path_list : list path) (batch_size : Z) : Z :=
  (len path_list + batch_size - 1) / batch_size.

Definition current_batch (path_list : list path) (batch_size batch_idx : Z) : list path :=
  let start_idx := batch_idx * batch_size in
  let end_idx := Z.min (start_idx + batch_size) (len path_list) in
  py_slice path_list start_idx end_idx.

(** One round of the batch loop of [parse_doc]. *)
Definition parse_batch (path_list : list path) (output_dir : path)
    (batch_size : Z) (o : parse_options) (batch_idx : Z) : M unit :=
  let total := total_batches path_list batch_size in
  effect (log INFO (MsgBatchStart (batch_idx + 1) total)) ;;;
  lists <~ read_batch (current_batch path_list batch_size batch_idx) ([], []) ;;
  match fst lists with
  | [] => effect (log WARNING (MsgBatchEmpty (batch_idx + 1)))
  | _ =>
      do_parse output_dir (fst lists) (snd lists) o ;;;
      effect (log INFO (MsgBatchDone (batch_idx + 1))) ;;;
      when (batch_idx <? total - 1)
        (effect (log INFO MsgWaitNextBatch) ;;; effect (emit (Sleep 2)))
  end.

Definition parse_doc_body (path_list : list path) (output_dir : path)
    (batch_size : Z) (o : parse_options) : M unit :=
  (if batch_size =? 0 then raise ZeroDivisionError else ret tt) ;;;
  for_each (py_range (total_batches path_list batch_size))
    (parse_batch path_list output_dir batch_size o) ;;;
  effect (log INFO MsgAllBatchesDone).

Definition parse_doc (path_list : list path) (output_dir : path)
    (batch_size : Z) (o : parse_options) : M unit :=
  try_catch (parse_doc_body path_list output_dir batch_size o)
    (fun e => effect (log ERROR (MsgParseDocError e))).
End Pipeline.

(** ** The keyword arguments [**parsing_config]

    [process_folder_structure] passes its extra keyword arguments on to
    [parse_doc].  A keyword that [parse_doc] does not accept, or that the
    call already gives ([path_list], [output_dir]), makes the call itself
    raise [TypeError] before the body of [parse_doc] is entered. *)

Inductive kwarg : Type :=
  | KwLang (v : string)
  | KwBackend (v : string)
  | KwServerUrl (v : option string)
  | KwStartPageId (v : Z)
  | KwEndPageId (v : option Z)
  | KwFormulaEnable (v : bool)
  | KwTableEnable (v : bool)
  | KwDrawLayoutBbox (v : bool)
  | KwDumpMd (v : bool)
  | KwDumpMiddleJson (v : bool)
  | KwDumpModelOutput (v : bool)
  | KwDumpOrigPdf (v : bool)
  | KwDumpContentList (v : bool)
  | KwMakeMdMode (v : make_mode)
  | KwUnexpected (name : string).

Definition set_option (o : parse_options) (kw : kwarg) : result parse_options :=
  let 'mk_parse_options a b c d e f g h i j k l m n := o in
  match kw with
  | KwLang v => Ok (mk_parse_options v b c d e f g h i j k l m n)
  | KwBackend v => Ok (mk_parse_options a v c d e f g h i j k l m n)
  | KwServerUrl v => Ok (mk_parse_options a b v d e f g h i j k l m n)
  | KwStartPageId v => Ok (mk_parse_options a b c v e f g h i j k l m n)
  | KwEndPageId v => Ok (mk_parse_options a b c d v f g h i j k l m n)
  | KwFormulaEnable v => Ok (mk_parse_options a b c d e v g h i j k l m n)
  | KwTableEnable v => Ok (mk_parse_options a b c d e f v h i j k l m n)
  | KwDrawLayoutBbox v => Ok (mk_parse_options a b c d e f g v i j k l m n)
  | KwDumpMd v => Ok (mk_parse_options a b c d e f g h v j k l m n)
  | KwDumpMiddleJson v => Ok (mk_parse_options a b c d e f g h i v k l m n)
  | KwDumpModelOutput v => Ok (mk_parse_options a b c d e f g h i j v l m n)
  | KwDumpOrigPdf v => Ok (mk_parse_options a b c d e f g h i j k v m n)
  | KwDumpContentList v => Ok (mk_parse_options a b c d e f g h i j k l v n)
  | KwMakeMdMode v => Ok (mk_parse_options a b c d e f g h i j k l m v)
  | KwUnexpected _ => Raise TypeError
  end.

Fixpoint bind_kwargs (o : parse_options) (parsing_config : list kwarg) : result parse_options :=
  match parsing_config with
  | [] => Ok o
  | kw :: rest =>
      match set_option o kw with
      | Ok o' => bind_kwargs o' rest
      | Raise e => Raise e
      end
  end.

(** The call [parse_doc(path_list=..., output_dir=..., batch_size=...,
    **parsing_config)]. *)
Definition call_parse_doc (env : collaborators) (path_list : list path)
    (output_dir : path) (batch_size : Z) (parsing_config : list kwarg) : M unit :=
  match bind_kwargs default_options parsing_config with
  | Ok o => parse_doc env path_list output_dir batch_size o
  | Raise e => raise e
  end.

(** ** The driver ([process_paper.py]) *)

Record RunStatistics : Type := mk_stats {
  total_pdfs : Z;
  total_skipped : Z;
  total_processed : Z;
  skipped_folders : Z
}.

Definition result_suffixes : list string := [".md"; ".json"; ".txt"]%string.

(** The loop over [vlm_dir.iterdir()] that stops at the first result file. *)
Definition has_result_file (fs : gmap path kind) (vlm_dir : path) : bool :=
  existsb
    (fun entry =>
       is_file fs (vlm_dir ++ [entry]) &&
       bool_decide (path_suffix entry ∈ result_suffixes))
    (iterdir fs vlm_dir).

(** One round of the loop that filters the documents of a folder: the
    documents kept for parsing, the number skipped, the world. *)
Definition check_pdf (output_subfolder : path)
    (acc : list path * Z * world) (pdf_file : path) : list path * Z * world :=
  let '(filtered_pdf_files, skipped_count, w) := acc in
  let pdf_name_without_ext := path_stem (path_name pdf_file) in
  let output_pdf_dir := output_subfolder ++ [pdf_name_without_ext] in
  if exists_ (w_fs w) output_pdf_dir && is_dir (w_fs w) output_pdf_dir then
    let vlm_dir := output_pdf_dir ++ ["vlm"%string] in
    let '(has_results, w) :=
      if exists_ (w_fs w) vlm_dir && is_dir (w_fs w) vlm_dir
      then (has_result_file (w_fs w) vlm_dir, w)
      else (false, log DEBUG (MsgNoVlmDir pdf_name_without_ext) w) in
    if has_results
    then (filtered_pdf_files, skipped_count + 1,
          log INFO (MsgItemComplete pdf_name_without_ext) w)
    else (filtered_pdf_files ++ [pdf_file], skipped_count,
          log INFO (MsgItemIncomplete pdf_name_without_ext) w)
  else (filtered_pdf_files ++ [pdf_file], skipped_count, w).

(** [subfolder.glob('*.pdf')]. *)
Definition glob_pdf (fs : gmap path kind) (subfolder : path) : list path :=
  map (fun n => subfolder ++ [n]) (List.filter glob_pdf_match (iterdir fs subfolder)).

(** Where the body of the folder loop stands when it has filtered the
    documents of a folder. *)
Inductive scan_result : Type :=
  | NoPdfFound (acc : RunStatistics * world)
      (* [continue]: the folder holds no document *)
  | AllParsed (acc : RunStatistics * world)
      (* [continue]: nothing is left to parse *)
  | Pending (filtered_pdf_files : list path) (output_subfolder : path)
      (acc : RunStatistics * world)
      (* the [try] around [parse_doc] is entered *).

Section Driver.
(** The driver is written against the call of [parse_doc] it makes:
    [call_parse_doc] for the program itself. *)
Variable parse_doc_call : list path -> path -> Z -> list kwarg -> M unit.
Variable output_path : path.
Variable batch_size : Z.
Variable parsing_config : list kwarg.

(** The body of the folder loop up to the [try], when the creation of the
    output folder returns ([exec_folder_iteration] below has the case in
    which it raises): the output folder is created, the documents are found and filtered and the counters of the
    found and skipped documents are updated. *)
Definition scan_folder (n_folders folder_idx : nat) (subfolder : path)
    (acc : RunStatistics * world) : scan_result :=
  let '(st, w) := acc in
  let name := path_name subfolder in
  let w := log INFO (MsgFolderStart (S folder_idx) n_folders name) w in
  let output_subfolder := output_path ++ [name] in
  let w := with_fs (mkdir_exist_ok output_subfolder) w in
  let pdf_files := glob_pdf (w_fs w) subfolder in
  match pdf_files with
  | [] => NoPdfFound (st, log WARNING (MsgNoPdf name) w)
  | _ :: _ =>
      let st := mk_stats (total_pdfs st + len pdf_files) (total_skipped st)
                  (total_processed st) (skipped_folders st) in
      let w := log INFO (MsgFoundPdfs name (length pdf_files)) w in
      let '(filtered_pdf_files, skipped_count, w) :=
        fold_left (check_pdf output_subfolder) pdf_files ([], 0, w) in
      let '(st, w) :=
        if 0 <? skipped_count
        then (mk_stats (total_pdfs st) (total_skipped st + skipped_count)
                (total_processed st) (skipped_folders st),
              log INFO (MsgSkippedItems name skipped_count) w)
        else (st, w) in
      match filtered_pdf_files with
      | [] =>
          AllParsed
            (mk_stats (total_pdfs st) (total_skipped st) (total_processed st)
               (skipped_folders st + 1),
             log INFO (MsgFolderAllDone name) w)
      | _ :: _ =>
          Pending filtered_pdf_files output_subfolder
            (st, log INFO (MsgNeedParse name (length filtered_pdf_files)) w)
      end
  end.

(** The [try] around [parse_doc], its handler, and the pause before the
    next folder. *)
Definition dispatch_folder (n_folders folder_idx : nat) (subfolder : path)
    (filtered_pdf_files : list path) (output_subfolder : path)
    (acc : RunStatistics * world) : RunStatistics * world :=
  let '(st, w) := acc in
  let name := path_name subfolder in
  match parse_doc_call filtered_pdf_files output_subfolder batch_size
          parsing_config w with
  | (Ok _, w) =>
      let st := mk_stats (total_pdfs st) (total_skipped st)
                  (total_processed st + len filtered_pdf_files)
                  (skipped_folders st) in
      let w := log INFO (MsgFolderDone name) w in
      if Z.of_nat folder_idx <? Z.of_nat n_folders - 1
      then (st, emit (Sleep 3) (log INFO MsgWaitNextFolder w))
      else (st, w)
  | (Raise e, w) => (st, log ERROR (MsgFolderError name e) w)
  end.

(** The body of the loop over the sorted folders. *)
Definition folder_iteration (n_folders folder_idx : nat) (subfolder : path)
    (acc : RunStatistics * world) : RunStatistics * world :=
  match scan_folder n_folders folder_idx subfolder acc with
  | NoPdfFound acc' => acc'
  | AllParsed acc' => acc'
  | Pending filtered_pdf_files output_subfolder acc' =>
      dispatch_folder n_folders folder_idx subfolder
        filtered_pdf_files output_subfolder acc'
  end.

(** [for folder_idx, subfolder in enumerate(sorted_subfolders)]. *)
Fixpoint process_folders (n_folders folder_idx : nat) (folders : list path)
    (acc : RunStatistics * world) : RunStatistics * world :=
  match folders with
  | [] => acc
  | subfolder :: rest =>
      process_folders n_folders (S folder_idx) rest
        (folder_iteration n_folders folder_idx subfolder acc)
  end.

(** The start of [process_folder_structure] when the creation of the
    output root and the listing of the input root return: the sorted
    folders of the input root, or [None] when the function returns at once.
    [exec_discover] below adds the cases in which one of the two raises. *)
Definition discover (input_path : path) (w : world) : option (list path) * world :=
  if negb (exists_ (w_fs w) input_path) then (None, log ERROR MsgInputMissing w)
  else
    let w := with_fs (makedirs output_path) w in
    let subfolders :=
      List.filter (is_dir (w_fs w))
        (map (fun n => input_path ++ [n]) (iterdir (w_fs w) input_path)) in
    match subfolders with
    | [] => (None, log WARNING MsgNoSubfolders w)
    | _ :: _ =>
        (Some (sort_folders_by_date_desc subfolders),
         log INFO (MsgFoundSubfolders (length subfolders)) w)
    end.

(** [process_folder_structure]: the counters that the summary reports, or
    [None] when the function returns before it has any. *)
Definition process_folder_structure (input_path : path) (w : world)
    : option RunStatistics * world :=
  match discover input_path w with
  | (None, w) => (None, w)
  | (Some sorted_subfolders, w) =>
      let '(st, w) :=
        process_folders (length sorted_subfolders) 0 sorted_subfolders
          (mk_stats 0 0 0 0, w) in
      let w :=
        log INFO (MsgSummary (total_pdfs st) (total_skipped st)
                    (total_processed st) (skipped_folders st)
                    (len sorted_subfolders - skipped_folders st)) w in
      (Some st, log INFO MsgAllFoldersDone w)
  end.
End Driver.


(** ** Notions of the specification *)

(** A decimal digit of some script. *)
Definition decimal_digit (c : code_point) : Prop := exists v, decimal_value c = Some v.

(** A text of the shape dddd-dd-dd. *)
Definition date_shaped (m : list code_point) : Prop :=
  exists y1 y2 y3 y4 m1 m2 d1 d2,
    m = [y1; y2; y3; y4; dash; m1; m2; dash; d1; d2] /\
    Forall decimal_digit [y1; y2; y3; y4; m1; m2; d1; d2].

(** The text [cs] has the date-shaped text [m] at position [i]. *)
Definition pattern_at (cs : list code_point) (i : nat) (m : list code_point) : Prop :=
  date_shaped m /\ exists pre post, cs = pre ++ m ++ post /\ length pre = i.

(** [m] is the first match of the pattern, from left to right. *)
Definition first_match (cs : list code_point) (i : nat) (m : list code_point) : Prop :=
  pattern_at cs i m /\
  forall j m', (j < i)%nat -> ~ pattern_at cs j m'.

Definition no_match (cs : list code_point) : Prop :=
  forall j m', ~ pattern_at cs j m'.

(** One of the characters [0] to [9]. *)
Definition ascii_digit (c : code_point) : bool := in_range 48 57 c.

(** The calendar date that a date-shaped text gives, if it gives one: the
    month and the first digit of the day are written with the characters
    [0] to [9], and so is the second digit of the day unless the day is
    between 10 and 29; year, month and day are a date of the calendar. *)
Definition read_date (m : list code_point) : option datetime :=
  match m with
  | [y1; y2; y3; y4; _; m1; m2; _; d1; d2] =>
      let year := int_of [y1; y2; y3; y4] in
      let month := int_of [m1; m2] in
      let day := int_of [d1; d2] in
      if ascii_digit m1 && ascii_digit m2 && ascii_digit d1 &&
         (ascii_digit d2 || (10 <=? day) && (day <=? 29)) &&
         valid_date year month day
      then Some (mk_datetime year month day)
      else None
  | _ => None
  end.

(** The priority key of a folder. *)
Definition folder_date (p : path) : datetime :=
  extract_date_from_folder_name (path_name p).

(** The batches that the loop of [parse_doc] goes through, in order. *)
Definition batches (path_list : list path) (batch_size : Z) : list (list path) :=
  map (current_batch path_list batch_size) (py_range (total_batches path_list batch_size)).

(** The quotient rounded up. *)
Definition ceil_div (n b : Z) : Z := n / b + (if n mod b =? 0 then 0 else 1).

(** A document is complete: its output directory is a directory, the [vlm]
    directory in it is a directory and holds a regular file with one of the
    result suffixes. *)
Definition complete (fs : gmap path kind) (output_subfolder pdf_file : path) : Prop :=
  let output_pdf_dir := output_subfolder ++ [path_stem (path_name pdf_file)] in
  let vlm_dir := output_pdf_dir ++ ["vlm"%string] in
  fs !! output_pdf_dir = Some KDir /\
  fs !! vlm_dir = Some KDir /\
  exists entry : string,
    fs !! (vlm_dir ++ [entry]) = Some KFile /\ In (path_suffix entry) result_suffixes.

Definition is_complete (fs : gmap path kind) (output_subfolder pdf_file : path) : bool :=
  let output_pdf_dir := output_subfolder ++ [path_stem (path_name pdf_file)] in
  let vlm_dir := output_pdf_dir ++ ["vlm"%string] in
  is_dir fs output_pdf_dir && is_dir fs vlm_dir && has_result_file fs vlm_dir.

(** An event that is a log line (not a pause). *)
Definition is_log_line (ev : event) : Prop := exists lv m, ev = Log lv m.

(** How the round of the folder loop for one folder ends. *)
Inductive folder_outcome : Type :=
  | FolderEmpty
  | FolderAllParsed
  | FolderParsed (dispatched : list path)
  | FolderFailed (dispatched : list path) (e : exn).

Section RunReport.
Variable parse_doc_call : list path -> path -> Z -> list kwarg -> M unit.
Variable output_path : path.
Variable batch_size : Z.
Variable parsing_config : list kwarg.

Definition folder_outcome_of (n_folders folder_idx : nat) (subfolder : path)
    (acc : RunStatistics * world) : folder_outcome :=
  match scan_folder output_path n_folders folder_idx subfolder acc with
  | NoPdfFound _ => FolderEmpty
  | AllParsed _ => FolderAllParsed
  | Pending filtered_pdf_files output_subfolder (_, w) =>
      match parse_doc_call filtered_pdf_files output_subfolder batch_size
              parsing_config w with
      | (Ok _, _) => FolderParsed filtered_pdf_files
      | (Raise e, _) => FolderFailed filtered_pdf_files e
      end
  end.

(** The outcomes of the folders of a run, in the order of the loop. *)
Fixpoint folder_outcomes (n_folders folder_idx : nat) (folders : list path)
    (acc : RunStatistics * world) : list folder_outcome :=
  match folders with
  | [] => []
  | subfolder :: rest =>
      folder_outcome_of n_folders folder_idx subfolder acc ::
      folder_outcomes n_folders (S folder_idx) rest
        (folder_iteration parse_doc_call output_path batch_size parsing_config
           n_folders folder_idx subfolder acc)
  end.

(** The outcomes of a whole run. *)
Definition run_outcomes (input_path : path) (w : world) : list folder_outcome :=
  match discover output_path input_path w with
  | (Some sorted_subfolders, w0) =>
      folder_outcomes (length sorted_subfolders) 0 sorted_subfolders
        (mk_stats 0 0 0 0, w0)
  | (None, _) => []
  end.
End RunReport.

(** The documents of the folders whose call of [parse_doc] raised: they
    were found, not skipped, and not counted as processed. *)
Definition items_in_failed_groups (outcomes : list folder_outcome) : Z :=
  fold_right
    (fun o acc => match o with FolderFailed d _ => len d + acc | _ => acc end)
    0 outcomes.

Definition items_dispatched (outcomes : list folder_outcome) : Z :=
  fold_right
    (fun o acc => match o with FolderParsed d => len d + acc | _ => acc end)
    0 outcomes.

Definition folders_all_parsed (outcomes : list folder_outcome) : Z :=
  fold_right
    (fun o acc => match o with FolderAllParsed => 1 + acc | _ => acc end)
    0 outcomes.

Definition is_failed (o : folder_outcome) : Prop :=
  match o with FolderFailed _ _ => True | _ => False end.

(** Counters added field by field. *)
Definition add_stats (a b : RunStatistics) : RunStatistics :=
  mk_stats (total_pdfs a + total_pdfs b) (total_skipped a + total_skipped b)
    (total_processed a + total_processed b) (skipped_folders a + skipped_folders b).

(** ** A sample tree

    Three folders under [in]: one with three documents, one with two
    documents of which [p1] was converted by an earlier run, one without
    documents.  The conversion of [b.pdf] fails in the analysis. *)

Definition fs_of (dirs files : list path) : gmap path kind :=
  fold_left (fun fs p => <[p := KFile]> fs) files
    (fold_left (fun fs p => <[p := KDir]> fs) dirs ∅).

Definition sample_fs : gmap path kind :=
  fs_of
    [["in"]; ["in"; "2020-01-01_A"]; ["in"; "2022-06-01_B"]; ["in"; "no_date_C"];
     ["out"]; ["out"; "2020-01-01_A"]; ["out"; "2020-01-01_A"; "p1"];
     ["out"; "2020-01-01_A"; "p1"; "vlm"]]%string
    [["in"; "2020-01-01_A"; "p1.pdf"]; ["in"; "2020-01-01_A"; "p2.pdf"];
     ["in"; "2022-06-01_B"; "a.pdf"]; ["in"; "2022-06-01_B"; "b.pdf"];
     ["in"; "2022-06-01_B"; "c.pdf"]; ["in"; "2022-06-01_B"; "notes.txt"];
     ["out"; "2020-01-01_A"; "p1"; "vlm"; "p1.md"]]%string.

Definition sample_world : world := mk_world sample_fs [].

Definition sample_env : collaborators :=
  mk_collaborators (fun _ => false)
    (fun p => if bool_decide (p = ["in"; "2022-06-01_B"; "b.pdf"]%string)
              then Some Analyze else None).

(** The files that the configuration asks [do_parse] to leave for one
    document, in its directory [output_dir/name/vlm]. *)
Definition artifacts (o : parse_options) (output_dir : path) (name : string) : list path :=
  let local_md_dir := output_dir ++ [name; "vlm"%string] in
  (if f_draw_layout_bbox o then [local_md_dir ++ [name ++ "_layout.pdf"]%string] else []) ++
  (if f_dump_orig_pdf o then [local_md_dir ++ [name ++ "_origin.pdf"]%string] else []) ++
  (if f_dump_md o then [local_md_dir ++ [name ++ ".md"]%string] else []) ++
  (if f_dump_content_list o then [local_md_dir ++ [name ++ "_content_list.json"]%string] else []) ++
  (if f_dump_middle_json o then [local_md_dir ++ [name ++ "_middle.json"]%string] else []) ++
  (if f_dump_model_output o then [local_md_dir ++ [name ++ "_model_output.txt"]%string] else []).

(** [w'] is a later state of [w]: the regular files are still there and the
    trace has grown at its end. *)
Definition extends (w w' : world) : Prop :=
  (forall p, w_fs w !! p = Some KFile -> w_fs w' !! p = Some KFile) /\
  exists added, w_trace w' = w_trace w ++ added.

(** A computation only moves the world forward. *)
Definition forward {A : Type} (c : M A) : Prop := forall w, extends w (snd (c w)).

(** The event [ev] was added to the trace after the state [w0]. *)
Definition logged_since (w0 : world) (ev : event) (w : world) : Prop :=
  exists added, w_trace w = w_trace w0 ++ added /\ In ev added.

(** A write that is made when its flag is set. *)
Definition write_if (flag : bool) (p : path) (w : world) : world :=
  if flag then with_fs (write_file p) w else w.

(** The logical name of a document. *)
Definition doc_name (p : path) : string := path_stem (path_name p).

(** What [parse_doc] did for the document [p] between the states [w0] and
    [w']: its conversion was started; if no collaborator fails on it, the
    conversion ended and the artifacts are there. *)
Definition item_served (env : collaborators) (o : parse_options) (output_dir : path)
    (w0 w' : world) (p : path) : Prop :=
  (exists rank total,
     logged_since w0 (Log INFO (MsgParseItem rank total (doc_name p))) w') /\
  (item_fault env p = None ->
     logged_since w0 (Log INFO (MsgItemDone (doc_name p))) w' /\
     forall a, In a (artifacts o output_dir (doc_name p)) -> w_fs w' !! a = Some KFile).

(** The documents can be read: they are regular files and [read_fn] does
    not fail on them. *)
Definition readable (env : collaborators) (w : world) (docs : list path) : Prop :=
  forall p, In p docs -> w_fs w !! p = Some KFile /\ read_fault env p = false.

(** The dispatched documents on which no collaborator fails. *)
Definition items_converted (env : collaborators) (outcomes : list folder_outcome) : Z :=
  fold_right
    (fun o acc =>
       match o with
       | FolderParsed d =>
           len (List.filter (fun p => bool_decide (item_fault env p = None)) d) + acc
       | _ => acc
       end)
    0 outcomes.

(** The reading of the counters in which a document whose conversion failed
    is not counted as processed. *)
Definition processed_excludes_failed (env : collaborators) (output_path : path)
    (batch_size : Z) (parsing_config : list kwarg) (input_path : path) (w : world) : Prop :=
  forall st w',
    process_folder_structure (call_parse_doc env) output_path batch_size
      parsing_config input_path w = (Some st, w') ->
    total_processed st =
      items_converted env
        (run_outcomes (call_parse_doc env) output_path batch_size parsing_config
           input_path w).

(** The sample tree after a run with the default configuration. *)
Definition sample_world_after_run : world :=
  snd (process_folder_structure (call_parse_doc sample_env) ["out"%string] 5 []
         ["in"%string] sample_world).

(** The documents left to parse, when the scan of a folder ends with some. *)
Definition pending_files (r : scan_result) : option (list path) :=
  match r with
  | Pending filtered_pdf_files _ _ => Some filtered_pdf_files
  | _ => None
  end.

(** ** Further notions *)

(** A keyword that [parse_doc] does not accept. *)
Definition is_unexpected (kw : kwarg) : Prop :=
  match kw with KwUnexpected _ => True | _ => False end.

(** The call of [parse_doc] for the folder raised [TypeError], or was not
    made. *)
Definition failed_with_type_error_or_idle (o : folder_outcome) : Prop :=
  match o with
  | FolderParsed _ => False
  | FolderFailed _ e => e = TypeError
  | _ => True
  end.

(** A computation keeps the relation [R] between the world before and the
    world after. *)
Definition preserves (R : world -> world -> Prop) {A : Type} (c : M A) : Prop :=
  forall w, R w (snd (c w)).

(** The path [q] is not [out] and not below it.  Paths are compared
    component by component, as the program builds them: a component [..]
    or a link is not resolved. *)
Definition outside (out q : path) : Prop := forall rest, q <> out ++ rest.

(** No component of the path is [..]: the path names the same node for
    the system, which resolves [..] to the parent, as it does here. *)
Definition resolved (p : path) : Prop := ~ In ".."%string p.

(** Between [w] and [w'] nothing changed outside the tree of [out], except
    that missing ancestors of [out] may have been created: a node that
    existed outside is the same, and a path outside that is not an ancestor
    of [out] is as it was, present or not. *)
Definition frame (out : path) (w w' : world) : Prop :=
  (forall q k, outside out q -> w_fs w !! q = Some k -> w_fs w' !! q = Some k) /\
  (forall q, outside out q -> (forall rest, out <> q ++ rest) ->
     w_fs w' !! q = w_fs w !! q).

(** The messages that [parse_doc] writes itself, outside [do_parse]. *)
Definition batch_message (m : message) : Prop :=
  match m with
  | MsgBatchStart _ _ | MsgReadOk _ | MsgReadFailed _ | MsgBatchEmpty _
  | MsgBatchDone _ | MsgWaitNextBatch | MsgAllBatchesDone | MsgParseDocError _ => True
  | _ => False
  end.

(** The messages that [do_parse] writes. *)
Definition item_message (m : message) : Prop :=
  match m with
  | MsgParseItem _ _ _ | MsgItemDone _ | MsgItemError _ _ | MsgUnsupportedBackend _ => True
  | _ => False
  end.

(** Between [w] and [w'] the file system is the same and only events of the
    kind [allowed] were added to the trace. *)
Definition quiet (allowed : event -> Prop) (w w' : world) : Prop :=
  w_fs w' = w_fs w /\
  exists added, w_trace w' = w_trace w ++ added /\ Forall allowed added.

(** A log line of [parse_doc] itself. *)
Definition batch_event (ev : event) : Prop :=
  match ev with
  | Log _ m => batch_message m
  | Sleep _ => False
  end.

(** What [parse_doc] adds to the trace when [do_parse] refuses the backend:
    its own log lines, the pauses between batches and the refusal. *)
Definition refusal_event (ev : event) : Prop :=
  match ev with
  | Log _ (MsgUnsupportedBackend _) => True
  | Log _ m => batch_message m
  | Sleep _ => True
  end.

(** Between [w] and [w'] regular files stayed, the trace grew, and at the
    paths shorter than [depth] directories stayed and no regular file
    appeared. *)
Definition keeps_shallow (depth : nat) (w w' : world) : Prop :=
  extends w w' /\
  forall q, (length q < depth)%nat ->
    (w_fs w !! q = Some KDir -> w_fs w' !! q = Some KDir) /\
    (w_fs w' !! q = Some KFile -> w_fs w !! q = Some KFile).

(** The document [p] can be read in [w]. *)
Definition can_read (env : collaborators) (w : world) (p : path) : Prop :=
  w_fs w !! p = Some KFile /\ read_fault env p = false.

(** The document [p] of the folder [subfolder] can be converted from the
    state [w]: its name ends with ".pdf", it can be read, no collaborator
    fails on it, and no regular file stands where its output directories
    go. *)
Definition convertible (env : collaborators) (output_path : path) (w : world)
    (subfolder p : path) : Prop :=
  (exists stem : string, p = subfolder ++ [(stem ++ ".pdf")%string]) /\
  can_read env w p /\
  item_fault env p = None /\
  w_fs w !! (output_path ++ [path_name subfolder; doc_name p]) <> Some KFile /\
  w_fs w !! (output_path ++ [path_name subfolder; doc_name p; "vlm"%string]) <> Some KFile.

(** ** The steps of a conversion *)

(** The order in which [do_parse] goes through the steps. *)
Definition stage_rank (s : stage) : nat :=
  match s with
  | Convert => 0 | PrepareEnv => 1 | Analyze => 2 | DrawLayout => 3 | DumpOrig => 4
  | DumpMd => 5 | DumpContentList => 6 | DumpMiddleJson => 7 | DumpModelOutput => 8
  end%nat.

(** The guard of a step in [do_parse]. *)
Definition stage_enabled (o : parse_options) (s : stage) : bool :=
  match s with
  | Convert => (0 <? start_page_id o) || bool_decide (is_Some (end_page_id o))
  | PrepareEnv | Analyze => true
  | DrawLayout => f_draw_layout_bbox o
  | DumpOrig => f_dump_orig_pdf o
  | DumpMd => f_dump_md o
  | DumpContentList => f_dump_content_list o
  | DumpMiddleJson => f_dump_middle_json o
  | DumpModelOutput => f_dump_model_output o
  end.

(** The steps that leave a file with one of the result suffixes. *)
Definition is_result_stage (s : stage) : bool :=
  match s with
  | DumpMd | DumpContentList | DumpMiddleJson | DumpModelOutput => true
  | _ => false
  end.

(** The world in which the conversion of a document stops when its step
    [s] raises: the directories are there once [prepare_env] was reached,
    and so are the files of the enabled steps before [s]. *)
Definition after_fault (o : parse_options) (output_dir : path) (name : string)
    (s : stage) (w : world) : world :=
  let d := output_dir ++ [name; "vlm"%string] in
  let done t := stage_enabled o t && (stage_rank t <? stage_rank s)%nat in
  if (stage_rank s <? 2)%nat then w
  else
    write_if (done DumpModelOutput) (d ++ [name ++ "_model_output.txt"]%string)
    (write_if (done DumpMiddleJson) (d ++ [name ++ "_middle.json"]%string)
    (write_if (done DumpContentList) (d ++ [name ++ "_content_list.json"]%string)
    (write_if (done DumpMd) (d ++ [name ++ ".md"]%string)
    (write_if (done DumpOrig) (d ++ [name ++ "_origin.pdf"]%string)
    (write_if (done DrawLayout) (d ++ [name ++ "_layout.pdf"]%string)
    (with_fs (makedirs d) (with_fs (makedirs (d ++ ["images"%string])) w))))))).

(** The bytes of the full-width digit [d] (U+FF10 + d), for examples. *)
Definition fullwidth_digit (d : nat) : string :=
  String (ascii_of_nat 239) (String (ascii_of_nat 188)
    (String (ascii_of_nat (144 + d)) EmptyString)).

(** ** The failures of the driver's directory operations

    [Path.mkdir] and [Path.iterdir] raise subclasses of [OSError]
    ([FileExistsError], [NotADirectoryError], [FileNotFoundError]).  The
    driver calls them outside every [try]: a failure ends the run with the
    exception.  [discover], [folder_iteration], [process_folders] and
    [process_folder_structure] are the run in which these calls return;
    the functions below are the run with their failures. *)

(** The parent of [p] is a directory.  The parent of a path of one
    component is the directory the paths start from. *)
Definition parent_is_dir (fs : gmap path kind) (p : path) : bool :=
  match removelast p with
  | [] => true
  | parent => is_dir fs parent
  end.

(** [Path.mkdir(exist_ok=True)] raises: a regular file occupies the path
    ([FileExistsError]), or the path is free and its parent is missing
    ([FileNotFoundError]) or is a regular file ([NotADirectoryError]). *)
Definition mkdir_raises (fs : gmap path kind) (p : path) : bool :=
  match fs !! p with
  | Some KDir => false
  | Some KFile => true
  | None => negb (parent_is_dir fs p)
  end.

(** [mkdir(parents=True, exist_ok=True)] and [os.makedirs(exist_ok=True)]
    raise: a regular file stands at the path ([FileExistsError]) or at one
    of its ancestors ([NotADirectoryError]). *)
Definition makedirs_raises (fs : gmap path kind) (p : path) : bool :=
  existsb (fun n => is_file fs (firstn n p)) (seq 1 (length p)).

Section DriverFaults.
Variable parse_doc_call : list path -> path -> Z -> list kwarg -> M unit.
Variable output_path : path.
Variable batch_size : Z.
Variable parsing_config : list kwarg.

(** The start of [process_folder_structure]: the creation of the output
    root raises when a regular file is in its way, and the listing of the
    input root raises when the input root is not a directory. *)
Definition exec_discover (input_path : path) : M (option (list path)) :=
  fun w =>
    if negb (exists_ (w_fs w) input_path) then (Ok None, log ERROR MsgInputMissing w)
    else if makedirs_raises (w_fs w) output_path then (Raise OSError, w)
    else
      let w := with_fs (makedirs output_path) w in
      if negb (is_dir (w_fs w) input_path) then (Raise OSError, w)
      else
        let subfolders :=
          List.filter (is_dir (w_fs w))
            (map (fun n => input_path ++ [n]) (iterdir (w_fs w) input_path)) in
        match subfolders with
        | [] => (Ok None, log WARNING MsgNoSubfolders w)
        | _ :: _ =>
            (Ok (Some (sort_folders_by_date_desc subfolders)),
             log INFO (MsgFoundSubfolders (length subfolders)) w)
        end.

(** The body of the loop over the sorted folders: after the first log line
    the creation of the output folder raises, or the round goes on as
    [folder_iteration] has it. *)
Definition exec_folder_iteration (n_folders folder_idx : nat) (subfolder : path)
    (st : RunStatistics) : M RunStatistics :=
  fun w =>
    let name := path_name subfolder in
    let output_subfolder := output_path ++ [name] in
    if mkdir_raises (w_fs w) output_subfolder
    then (Raise OSError, log INFO (MsgFolderStart (S folder_idx) n_folders name) w)
    else
      let '(st, w) :=
        folder_iteration parse_doc_call output_path batch_size parsing_config
          n_folders folder_idx subfolder (st, w) in
      (Ok st, w).

(** [for folder_idx, subfolder in enumerate(sorted_subfolders)]: an
    exception of a round ends the loop. *)
Fixpoint exec_process_folders (n_folders folder_idx : nat) (folders : list path)
    (st : RunStatistics) : M RunStatistics :=
  match folders with
  | [] => ret st
  | subfolder :: rest =>
      st <~ exec_folder_iteration n_folders folder_idx subfolder st ;;
      exec_process_folders n_folders (S folder_idx) rest st
  end.

(** [process_folder_structure]: the counters that the summary reports, or
    [None] when the function returns before it has any, or the exception
    that ends it. *)
Definition exec_process_folder_structure (input_path : path)
    : M (option RunStatistics) :=
  found <~ exec_discover input_path ;;
  match found with
  | None => ret None
  | Some sorted_subfolders =>
      st <~ exec_process_folders (length sorted_subfolders) 0 sorted_subfolders
              (mk_stats 0 0 0 0) ;;
      effect (log INFO (MsgSummary (total_pdfs st) (total_skipped st)
                          (total_processed st) (skipped_folders st)
                          (len sorted_subfolders - skipped_folders st))) ;;;
      effect (log INFO MsgAllFoldersDone) ;;;
      ret (Some st)
  end.

(** No regular file is in the way of the directories that a run from [w]
    creates itself: the input root is a directory, the creation of the
    output root does not raise, and the output folder of no folder of the
    run is a regular file. *)
Definition run_dirs_free (input_path : path) (w : world) : bool :=
  is_dir (w_fs w) input_path &&
  negb (makedirs_raises (w_fs w) output_path) &&
  match fst (discover output_path input_path w) with
  | Some folders =>
      forallb (fun f => negb (is_file (w_fs w) (output_path ++ [path_name f]))) folders
  | None => true
  end.
End DriverFaults.

(** The folders whose call of [parse_doc] raised, those whose call
    returned, and those without documents. *)
Definition folders_failed (outcomes : list folder_outcome) : Z :=
  fold_right
    (fun o acc => match o with FolderFailed _ _ => 1 + acc | _ => acc end)
    0 outcomes.

Definition folders_parsed (outcomes : list folder_outcome) : Z :=
  fold_right
    (fun o acc => match o with FolderParsed _ => 1 + acc | _ => acc end)
    0 outcomes.

Definition folders_empty (outcomes : list folder_outcome) : Z :=
  fold_right
    (fun o acc => match o with FolderEmpty => 1 + acc | _ => acc end)
    0 outcomes.

(** The sample tree with a regular file where the output folder of the
    last folder goes. *)
Definition blocked_world : world :=
  mk_world (<[["out"; "no_date_C"]%string := KFile]> sample_fs) [].

(** The summary is in the trace. *)
Definition summary_logged (w : world) : Prop :=
  exists a b c d e, In (Log INFO (MsgSummary a b c d e)) (w_trace w).

(** ** The batches in the log of [parse_doc] *)

(** The line that the reading of the document [p] leaves. *)
Definition read_event_of (p : path) (ev : event) : Prop :=
  ev = Log INFO (MsgReadOk (doc_name p)) \/
  ev = Log ERROR (MsgReadFailed (doc_name p)).

(** An event of a round of the batch loop that comes after the readings:
    neither the first line of a round, nor the line of a reading, nor the
    last line of [parse_doc]. *)
Definition inner_event (ev : event) : Prop :=
  match ev with
  | Log _ (MsgBatchStart _ _) | Log _ (MsgReadOk _) | Log _ (MsgReadFailed _)
  | Log _ MsgAllBatchesDone | Log _ (MsgParseDocError _) => False
  | _ => True
  end.

(** What the round of the batch loop for [batch], the batch of index [idx]
    among [total], adds to the trace: the line that announces the batch,
    one line for the reading of each of its documents, in order, then what
    the conversion and the end of the round write. *)
Definition batch_segment (total : Z) (idx : nat) (batch : list path)
    (seg : list event) : Prop :=
  exists reads rest,
    seg = Log INFO (MsgBatchStart (Z.of_nat idx + 1) total) :: reads ++ rest /\
    Forall2 read_event_of batch reads /\
    Forall inner_event rest.

(** The trace grew by events of the kind [allowed]. *)
Definition grows_by (allowed : event -> Prop) (w w' : world) : Prop :=
  exists added, w_trace w' = w_trace w ++ added /\ Forall allowed added.


(** * Date extraction *)

Lemma decimal_value_bounds (c : code_point) (v : Z) :
  decimal_value c = Some v -> 0 <= v <= 9.
Proof.
  unfold decimal_value.
  match goal with
  | |- context [List.find ?f ?l] => destruct (List.find f l) as [z|] eqn:E
  end; [|discriminate].
  apply find_some in E as [_ E]. apply andb_true_iff in E as [H1 H2].
  apply N.leb_le in H1. apply N.ltb_lt in H2. intros [= <-]. lia.
Qed.

Lemma ascii_digit_value (c : code_point) :
  ascii_digit c = true -> decimal_value c = Some (Z.of_N c - 48).
Proof.
  unfold ascii_digit, in_range. intros H. apply andb_true_iff in H as [H1 H2].
  apply N.leb_le in H1. apply N.leb_le in H2.
  unfold decimal_value, decimal_zeros. cbn [List.find].
  assert (Hc : ((48 <=? c) && (c <? 48 + 10))%N = true).
  { apply andb_true_iff. split; [apply N.leb_le|apply N.ltb_lt]; lia. }
  rewrite Hc. f_equal. lia.
Qed.

Lemma is_digit_spec (c : code_point) : is_digit c = true <-> decimal_digit c.
Proof.
  unfold is_digit, decimal_digit. destruct (decimal_value c) as [v|].
  - split; eauto.
  - split; [discriminate|]. intros [v Hv]. discriminate.
Qed.

Lemma match_date_pattern_spec (cs m : list code_point) :
  match_date_pattern cs = Some m <-> date_shaped m /\ exists post, cs = m ++ post.
Proof.
  unfold match_date_pattern, date_shaped. split.
  - destruct cs as [|y1 [|y2 [|y3 [|y4 [|h1 [|m1 [|m2 [|h2 [|d1 [|d2 post]]]]]]]]]];
      try discriminate.
    destruct (forallb is_digit [y1; y2; y3; y4; m1; m2; d1; d2]
              && (h1 =? dash)%N && (h2 =? dash)%N) eqn:E; [|discriminate].
    intros [= <-].
    apply andb_true_iff in E as [E H2]. apply andb_true_iff in E as [E H1].
    apply N.eqb_eq in H1, H2. subst h1 h2. split.
    + exists y1, y2, y3, y4, m1, m2, d1, d2. split; [reflexivity|].
      rewrite forallb_forall in E. apply List.Forall_forall. intros c Hc.
      apply is_digit_spec. now apply E.
    + exists post. reflexivity.
  - intros [(y1 & y2 & y3 & y4 & m1 & m2 & d1 & d2 & -> & Hd) [post ->]].
    cbn [app].
    assert (E : forallb is_digit [y1; y2; y3; y4; m1; m2; d1; d2] = true).
    { apply forallb_forall. intros c Hc. apply is_digit_spec.
      rewrite List.Forall_forall in Hd. now apply Hd. }
    rewrite E, N.eqb_refl. reflexivity.
Qed.

Lemma pattern_at_spec (cs : list code_point) (i : nat) (m : list code_point) :
  pattern_at cs i m <-> match_date_pattern (skipn i cs) = Some m.
Proof.
  rewrite match_date_pattern_spec. unfold pattern_at. split.
  - intros [Hs (pre & post & -> & <-)]. split; [exact Hs|]. exists post.
    rewrite skipn_app, skipn_all, Nat.sub_diag. reflexivity.
  - intros [Hs [post Hpost]]. split; [exact Hs|].
    exists (firstn i cs), post. split.
    + rewrite <- Hpost. symmetry. apply firstn_skipn.
    + apply firstn_length_le.
      destruct (Nat.le_gt_cases i (length cs)) as [Hle|Hgt]; [exact Hle|].
      rewrite skipn_all2 in Hpost by lia.
      destruct Hs as (y1 & y2 & y3 & y4 & m1 & m2 & d1 & d2 & -> & _). discriminate.
Qed.

(** What [findall] finds: nothing when the pattern is at no position, and
    otherwise first the match at the leftmost position. *)
Lemma re_findall_from_cases (cs : list code_point) :
  (re_findall_from 0 cs = [] /\ forall j, match_date_pattern (skipn j cs) = None) \/
  (exists i m rest,
     re_findall_from 0 cs = m :: rest /\
     match_date_pattern (skipn i cs) = Some m /\
     forall j, (j < i)%nat -> match_date_pattern (skipn j cs) = None).
Proof.
  induction cs as [|c cs IH].
  - left. split; [reflexivity|]. intros j. now destruct j.
  - cbn [re_findall_from].
    destruct (match_date_pattern (c :: cs)) as [m|] eqn:Em.
    + right. exists 0%nat, m, (re_findall_from 9 cs).
      split; [reflexivity|]. split; [exact Em|]. intros j Hj. lia.
    + destruct IH as [[Hnil Hnone]|(i & m & rest & Hf & Hm & Hnone)].
      * left. split; [exact Hnil|]. intros [|j]; [exact Em|apply Hnone].
      * right. exists (S i), m, rest. split; [exact Hf|]. split; [exact Hm|].
        intros [|j] Hj; [exact Em|]. apply Hnone. lia.
Qed.

Lemma re_findall_first (cs : list code_point) (i : nat) (m : list code_point) :
  first_match cs i m -> exists rest, re_findall_from 0 cs = m :: rest.
Proof.
  intros [Hm Hnone]. apply pattern_at_spec in Hm.
  destruct (re_findall_from_cases cs) as [[_ Hn]|(i' & m' & rest & Hf & Hm' & Hn)].
  - rewrite Hn in Hm. discriminate.
  - destruct (Nat.lt_trichotomy i' i) as [Hlt|[->|Hgt]].
    + exfalso. apply (Hnone i' m' Hlt). now apply pattern_at_spec.
    + rewrite Hm in Hm'. injection Hm' as <-. eauto.
    + rewrite (Hn i Hgt) in Hm. discriminate.
Qed.

Lemma re_findall_none (cs : list code_point) :
  no_match cs -> re_findall_from 0 cs = [].
Proof.
  intros Hnone.
  destruct (re_findall_from_cases cs) as [[Hnil _]|(i & m & rest & _ & Hm & _)];
    [exact Hnil|].
  exfalso. apply (Hnone i m). now apply pattern_at_spec.
Qed.

Lemma digit_class_spec (lo hi : Z) (c : code_point) :
  0 <= lo -> hi <= 9 ->
  digit_class lo hi c = true <->
  ascii_digit c = true /\ lo <= Z.of_N c - 48 <= hi.
Proof.
  intros Hlo Hhi. unfold digit_class, ascii_digit, in_range.
  rewrite !andb_true_iff, !N.leb_le. lia.
Qed.

Lemma int_of_two (c1 c2 : code_point) (v1 v2 : Z) :
  decimal_value c1 = Some v1 -> decimal_value c2 = Some v2 ->
  int_of [c1; c2] = 10 * v1 + v2.
Proof. intros H1 H2. unfold int_of. cbn [fold_left]. rewrite H1, H2. lia. Qed.

(** The pattern of [strptime] takes a month exactly when it is written
    with the characters [0] to [9] and is between 1 and 12. *)
Lemma match_month_spec (m1 m2 : code_point) (v1 v2 : Z) :
  decimal_value m1 = Some v1 -> decimal_value m2 = Some v2 ->
  match_month m1 m2 = true <->
  ascii_digit m1 = true /\ ascii_digit m2 = true /\ 1 <= 10 * v1 + v2 <= 12.
Proof.
  intros H1 H2.
  pose proof (decimal_value_bounds _ _ H1) as B1.
  pose proof (decimal_value_bounds _ _ H2) as B2.
  unfold match_month.
  rewrite orb_true_iff, !andb_true_iff, !digit_class_spec by lia.
  split.
  - intros [[[A1 R1] [A2 R2]]|[[A1 R1] [A2 R2]]];
      rewrite (ascii_digit_value _ A1) in H1; rewrite (ascii_digit_value _ A2) in H2;
      injection H1 as <-; injection H2 as <-; repeat split; assumption || lia.
  - intros (A1 & A2 & R).
    rewrite (ascii_digit_value _ A1) in H1; rewrite (ascii_digit_value _ A2) in H2.
    injection H1 as <-; injection H2 as <-.
    destruct (Z.eq_dec (Z.of_N m1 - 48) 1); [left|right]; repeat split; assumption || lia.
Qed.

(** It takes a day between 1 and 31 exactly when the first digit is one of
    the characters [0] to [9], and the second one too unless the day is
    between 10 and 29. *)
Lemma match_day_spec (d1 d2 : code_point) (v1 v2 : Z) :
  decimal_value d1 = Some v1 -> decimal_value d2 = Some v2 ->
  match_day d1 d2 = true <->
  ascii_digit d1 = true /\
  (ascii_digit d2 = true \/ 10 <= 10 * v1 + v2 <= 29) /\
  1 <= 10 * v1 + v2 <= 31.
Proof.
  intros H1 H2.
  pose proof (decimal_value_bounds _ _ H1) as B1.
  pose proof (decimal_value_bounds _ _ H2) as B2.
  assert (Hd2 : is_digit d2 = true) by (apply is_digit_spec; red; eauto).
  unfold match_day.
  rewrite !orb_true_iff, !andb_true_iff, !digit_class_spec by lia.
  split.
  - intros [[[[A1 R1] [A2 R2]]|[[A1 R1] _]]|[[A1 R1] [A2 R2]]];
      rewrite (ascii_digit_value _ A1) in H1; injection H1 as <-;
      try (rewrite (ascii_digit_value _ A2) in H2; injection H2 as <-);
      (split; [assumption|]); (split; [|lia]); first [left; assumption|right; lia].
  - intros (A1 & [A2|R2] & R).
    + rewrite (ascii_digit_value _ A1) in H1; injection H1 as <-.
      pose proof A2 as A2'. rewrite (ascii_digit_value _ A2) in H2; injection H2 as <-.
      destruct (Z.eq_dec (Z.of_N d1 - 48) 3); [left; left|].
      { repeat split; assumption || lia. }
      destruct (Z.eq_dec (Z.of_N d1 - 48) 0); [right|left; right].
      { repeat split; assumption || lia. }
      repeat split; assumption || lia.
    + rewrite (ascii_digit_value _ A1) in H1; injection H1 as <-.
      left. right. repeat split; assumption || lia.
Qed.

Lemma valid_date_ranges (y m d : Z) :
  valid_date y m d = true -> 1 <= m <= 12 /\ 1 <= d <= 31.
Proof.
  unfold valid_date, days_in_month. rewrite !andb_true_iff, !Z.leb_le.
  intros (((((_ & _) & Hm1) & Hm2) & Hd1) & Hd2).
  split; [lia|]. split; [lia|].
  destruct (m =? 2); [destruct (is_leap y); lia|].
  destruct ((m =? 4) || (m =? 6) || (m =? 9) || (m =? 11)); lia.
Qed.

(** [strptime] on a match of the pattern gives the date that is read from
    it, and raises [ValueError] when none is. *)
Lemma strptime_ymd_read_date (m : list code_point) :
  date_shaped m ->
  strptime_ymd m = match read_date m with Some d => Ok d | None => Raise ValueError end.
Proof.
  intros (y1 & y2 & y3 & y4 & m1 & m2 & d1 & d2 & -> & Hd).
  rewrite List.Forall_forall in Hd.
  assert (Hdig : forall c, In c [y1; y2; y3; y4; m1; m2; d1; d2] -> is_digit c = true)
    by (intros c Hc; apply is_digit_spec; now apply Hd).
  destruct (Hd m1) as [u1 Hu1]; [cbn; tauto|].
  destruct (Hd m2) as [u2 Hu2]; [cbn; tauto|].
  destruct (Hd d1) as [v1 Hv1]; [cbn; tauto|].
  destruct (Hd d2) as [v2 Hv2]; [cbn; tauto|].
  unfold strptime_ymd, read_date. cbn zeta.
  assert (Hy : forallb is_digit [y1; y2; y3; y4] = true).
  { apply forallb_forall. intros c Hc. apply Hdig. cbn in Hc |- *. tauto. }
  rewrite Hy, N.eqb_refl. cbn [andb].
  set (year := int_of [y1; y2; y3; y4]).
  rewrite (int_of_two _ _ _ _ Hu1 Hu2), (int_of_two _ _ _ _ Hv1 Hv2).
  pose proof (match_month_spec m1 m2 u1 u2 Hu1 Hu2) as Hmonth.
  pose proof (match_day_spec d1 d2 v1 v2 Hv1 Hv2) as Hday.
  pose proof (valid_date_ranges year (10 * u1 + u2) (10 * v1 + v2)) as Hvalid.
  unfold datetime_new.
  destruct (valid_date year (10 * u1 + u2) (10 * v1 + v2)) eqn:Ev.
  - specialize (Hvalid eq_refl).
    destruct (match_month m1 m2) eqn:Em, (match_day d1 d2) eqn:Ed; cbn [andb].
    + destruct (proj1 Hmonth eq_refl) as (-> & -> & _).
      destruct (proj1 Hday eq_refl) as (-> & Hor & _). cbn [andb].
      destruct Hor as [->|Hr]; [reflexivity|].
      replace ((10 <=? 10 * v1 + v2) && (10 * v1 + v2 <=? 29)) with true
        by (symmetry; apply andb_true_iff; split; apply Z.leb_le; lia).
      now rewrite orb_true_r.
    + destruct (ascii_digit m1 && ascii_digit m2 && ascii_digit d1 &&
                (ascii_digit d2 || (10 <=? 10 * v1 + v2) && (10 * v1 + v2 <=? 29)))
        eqn:E; [|reflexivity].
      exfalso. apply andb_true_iff in E as [E E4]. apply andb_true_iff in E as [E E3].
      assert (Hd' : false = true); [|discriminate].
      apply Hday. split; [exact E3|]. split; [|lia].
      apply orb_true_iff in E4 as [E4|E4]; [now left|right].
      apply andb_true_iff in E4 as [Ha Hb]. apply Z.leb_le in Ha, Hb. lia.
    + destruct (ascii_digit m1 && ascii_digit m2) eqn:E; [|reflexivity].
      exfalso. apply andb_true_iff in E as [E1 E2].
      assert (Hm' : false = true) by (apply Hmonth; repeat split; auto; lia).
      discriminate.
    + destruct (ascii_digit m1 && ascii_digit m2) eqn:E; [|reflexivity].
      exfalso. apply andb_true_iff in E as [E1 E2].
      assert (Hm' : false = true) by (apply Hmonth; repeat split; auto; lia).
      discriminate.
  - rewrite andb_false_r. now destruct (match_month m1 m2 && true && match_day d1 d2).
Qed.

Lemma extract_date_body_first (folder_name : string) (i : nat) (m : list code_point) :
  first_match (str_of folder_name) i m ->
  extract_date_body folder_name =
  match read_date m with Some d => Ok d | None => Raise ValueError end.
Proof.
  intros Hfirst. unfold extract_date_body, re_findall.
  destruct (re_findall_first _ _ _ Hfirst) as [rest ->].
  apply strptime_ymd_read_date. apply Hfirst.
Qed.

(** Written with the characters [0] to [9], a match gives its date
    exactly when year, month and day are a date of the calendar. *)
Lemma read_date_ascii (y1 y2 y3 y4 h1 m1 m2 h2 d1 d2 : code_point) :
  forallb ascii_digit [m1; m2; d1; d2] = true ->
  let year := int_of [y1; y2; y3; y4] in
  let month := int_of [m1; m2] in
  let day := int_of [d1; d2] in
  read_date [y1; y2; y3; y4; h1; m1; m2; h2; d1; d2] =
  if valid_date year month day then Some (mk_datetime year month day) else None.
Proof.
  cbn [forallb]. rewrite !andb_true_iff. intros (E1 & E2 & E3 & E4 & _).
  cbn zeta. unfold read_date. rewrite E1, E2, E3, E4. reflexivity.
Qed.

(** C5: for every folder name, read as Python reads it, either the date
    pattern is at no position of the name or there is a first match from
    the left.  The key is the date that the first match gives (year, month
    and day being a date of the calendar and written as [strptime] takes
    them), and the sentinel 1900-01-01 when the first match gives no date
    and when nothing matches; for a first match whose month and day are
    written with the characters [0] to [9], the key is its date exactly
    when year, month and day are a date of the calendar, and the sentinel
    otherwise; an exception of the body is turned into the sentinel, so
    the function returns in every case. *)
Theorem extract_date_first_match (folder_name : string) :
  let cs := str_of folder_name in
  (no_match cs \/ exists i m, first_match cs i m) /\
  (forall i m, first_match cs i m ->
     m = firstn 10 (skipn i cs) /\
     extract_date_from_folder_name folder_name =
       match read_date m with
       | Some d => d
       | None => mk_datetime 1900 1 1
       end) /\
  (forall i y1 y2 y3 y4 m1 m2 d1 d2,
     first_match cs i [y1; y2; y3; y4; dash; m1; m2; dash; d1; d2] ->
     forallb ascii_digit [m1; m2; d1; d2] = true ->
     let year := int_of [y1; y2; y3; y4] in
     let month := int_of [m1; m2] in
     let day := int_of [d1; d2] in
     extract_date_from_folder_name folder_name =
       if valid_date year month day then mk_datetime year month day
       else mk_datetime 1900 1 1) /\
  (no_match cs ->
     extract_date_from_folder_name folder_name = mk_datetime 1900 1 1) /\
  (forall e, extract_date_body folder_name = Raise e ->
     extract_date_from_folder_name folder_name = mk_datetime 1900 1 1).
Proof.
  cbn zeta. split; [|split; [|split; [|split]]].
  - destruct (re_findall_from_cases (str_of folder_name))
      as [[_ Hn]|(i & m & rest & _ & Hm & Hn)].
    + left. intros j m' H. apply pattern_at_spec in H. rewrite Hn in H. discriminate.
    + right. exists i, m. split; [now apply pattern_at_spec|].
      intros j m' Hj H. apply pattern_at_spec in H. rewrite (Hn j Hj) in H. discriminate.
  - intros i m Hfirst. split.
    + destruct Hfirst as [[Hs (pre & post & -> & <-)] _].
      rewrite skipn_app, skipn_all, Nat.sub_diag. cbn [skipn app].
      destruct Hs as (y1 & y2 & y3 & y4 & m1 & m2 & d1 & d2 & -> & _). reflexivity.
    + unfold extract_date_from_folder_name.
      rewrite (extract_date_body_first _ _ _ Hfirst).
      destruct (read_date m); reflexivity.
  - intros i y1 y2 y3 y4 m1 m2 d1 d2 Hfirst Hascii.
    unfold extract_date_from_folder_name.
    rewrite (extract_date_body_first _ _ _ Hfirst).
    rewrite (read_date_ascii y1 y2 y3 y4 dash m1 m2 dash d1 d2 Hascii). cbn zeta.
    destruct (valid_date _ _ _); reflexivity.
  - intros Hnone. unfold extract_date_from_folder_name, extract_date_body, re_findall.
    rewrite re_findall_none; [reflexivity|exact Hnone].
  - intros e He. unfold extract_date_from_folder_name. rewrite He. reflexivity.
Qed.

Lemma extract_date_first_match_witness :
  first_match (str_of "2015-01-01_2015-03-31_MNSC") 0 (str_of "2015-01-01") /\
  extract_date_from_folder_name "2015-01-01_2015-03-31_MNSC" = mk_datetime 2015 1 1.
Proof.
  assert (H : first_match (str_of "2015-01-01_2015-03-31_MNSC") 0 (str_of "2015-01-01")).
  { split; [|intros j m' Hj; lia]. apply pattern_at_spec. vm_compute. reflexivity. }
  split; [exact H|].
  destruct (extract_date_first_match "2015-01-01_2015-03-31_MNSC") as (_ & Hfirst & _).
  destruct (Hfirst _ _ H) as [_ ->]. reflexivity.
Defined.

(** The examples of the specification, and names with digits of other
    scripts: a year in full-width digits is read; a month in full-width
    digits is refused by [strptime]. *)
Example extract_date_examples :
  extract_date_from_folder_name "2015-01-01_2015-03-31_MNSC" = mk_datetime 2015 1 1 /\
  extract_date_from_folder_name "no-date-here" = mk_datetime 1900 1 1 /\
  extract_date_from_folder_name "2099-13-40_bad" = mk_datetime 1900 1 1 /\
  extract_date_from_folder_name "2099-13-40_2015-01-01" = mk_datetime 1900 1 1 /\
  extract_date_from_folder_name "2023-02-29" = mk_datetime 1900 1 1 /\
  extract_date_from_folder_name "2024-02-29" = mk_datetime 2024 2 29 /\
  extract_date_from_folder_name
    (fullwidth_digit 2 ++ fullwidth_digit 0 ++ fullwidth_digit 1 ++ fullwidth_digit 5
     ++ "-01-01_A") = mk_datetime 2015 1 1 /\
  extract_date_from_folder_name
    ("2015-01-1" ++ fullwidth_digit 5) = mk_datetime 2015 1 15 /\
  extract_date_from_folder_name
    ("2015-" ++ fullwidth_digit 0 ++ fullwidth_digit 1 ++ "-01") = mk_datetime 1900 1 1.
Proof. repeat split; vm_compute; reflexivity. Qed.

(** * The order of dates *)

Lemma datetime_leb_spec (a b : datetime) :
  datetime_leb a b = true <->
  dt_year a < dt_year b \/
  (dt_year a = dt_year b /\
   (dt_month a < dt_month b \/ (dt_month a = dt_month b /\ dt_day a <= dt_day b))).
Proof.
  unfold datetime_leb.
  rewrite !orb_true_iff, !andb_true_iff, !orb_true_iff, !andb_true_iff,
    !Z.ltb_lt, !Z.eqb_eq, Z.leb_le.
  reflexivity.
Qed.

Lemma datetime_ltb_spec (a b : datetime) :
  datetime_ltb a b = true <->
  dt_year a < dt_year b \/
  (dt_year a = dt_year b /\
   (dt_month a < dt_month b \/ (dt_month a = dt_month b /\ dt_day a < dt_day b))).
Proof.
  unfold datetime_ltb.
  rewrite !orb_true_iff, !andb_true_iff, !orb_true_iff, !andb_true_iff,
    !Z.ltb_lt, !Z.eqb_eq.
  reflexivity.
Qed.

Lemma datetime_eqb_eq (a b : datetime) : datetime_eqb a b = true <-> a = b.
Proof.
  split.
  - destruct a, b. unfold datetime_eqb. cbn.
    rewrite !andb_true_iff, !Z.eqb_eq. intros [[-> ->] ->]. reflexivity.
  - intros ->. destruct b. unfold datetime_eqb. cbn. rewrite !Z.eqb_refl. reflexivity.
Qed.

Lemma datetime_leb_ltb (a b : datetime) : datetime_leb a b = negb (datetime_ltb b a).
Proof.
  apply eq_true_iff_eq. rewrite negb_true_iff, <- not_true_iff_false.
  rewrite datetime_leb_spec, datetime_ltb_spec. lia.
Qed.

Lemma datetime_leb_refl (a : datetime) : datetime_leb a a = true.
Proof. apply datetime_leb_spec. lia. Qed.

Lemma datetime_ltb_leb (a b : datetime) : datetime_ltb a b = true -> datetime_leb a b = true.
Proof. rewrite datetime_leb_spec, datetime_ltb_spec. lia. Qed.

Lemma datetime_leb_trans (a b c : datetime) :
  datetime_leb a b = true -> datetime_leb b c = true -> datetime_leb a c = true.
Proof. rewrite !datetime_leb_spec. lia. Qed.

Lemma datetime_leb_antisym (a b : datetime) :
  datetime_leb a b = true -> datetime_leb b a = true -> a = b.
Proof.
  rewrite !datetime_leb_spec. destruct a, b. cbn. intros H1 H2. f_equal; lia.
Qed.

Lemma datetime_ltb_neq (a b : datetime) : datetime_ltb a b = true -> a <> b.
Proof. rewrite datetime_ltb_spec. intros H ->. lia. Qed.

(** * The stable sort *)

Section StableSortFacts.
Context {A : Type} (key : A -> datetime).

Lemma Forall_insert_desc (P : A -> Prop) (x : A) (l : list A) :
  P x -> Forall P l -> Forall P (insert_desc key x l).
Proof.
  intros Hx Hl. induction Hl as [|y l Hy Hl IH]; cbn.
  - constructor; auto.
  - destruct (datetime_ltb (key x) (key y)); repeat constructor; auto.
Qed.

Lemma insert_desc_sorted (x : A) (l : list A) :
  sorted_desc key l -> sorted_desc key (insert_desc key x l).
Proof.
  unfold sorted_desc. induction 1 as [|y l Hs IH Hy]; cbn.
  - repeat constructor.
  - destruct (datetime_ltb (key x) (key y)) eqn:E.
    + constructor; [exact IH|].
      apply Forall_insert_desc; [|exact Hy]. now apply datetime_ltb_leb.
    + assert (Hyx : datetime_leb (key y) (key x) = true)
        by (rewrite datetime_leb_ltb, E; reflexivity).
      constructor; [constructor; assumption|].
      constructor; [exact Hyx|].
      eapply Forall_impl; [exact Hy|]. cbn. intros z Hz.
      eapply datetime_leb_trans; eassumption.
Qed.

Lemma sort_desc_sorted (l : list A) : sorted_desc key (sort_desc key l).
Proof.
  induction l as [|x l IH]; cbn; [constructor|]. now apply insert_desc_sorted.
Qed.

Lemma with_key_insert_desc (k : datetime) (x : A) (l : list A) :
  with_key key k (insert_desc key x l) = with_key key k (x :: l).
Proof.
  induction l as [|y l IH]; [reflexivity|].
  cbn [insert_desc]. destruct (datetime_ltb (key x) (key y)) eqn:E; [|reflexivity].
  unfold with_key in *. cbn [List.filter] in *. rewrite IH.
  apply datetime_ltb_neq in E.
  destruct (datetime_eqb (key x) k) eqn:Ex, (datetime_eqb (key y) k) eqn:Ey;
    try reflexivity.
  apply datetime_eqb_eq in Ex, Ey. congruence.
Qed.

Lemma with_key_sort_desc (k : datetime) (l : list A) :
  with_key key k (sort_desc key l) = with_key key k l.
Proof.
  induction l as [|x l IH]; [reflexivity|].
  cbn [sort_desc]. rewrite with_key_insert_desc.
  unfold with_key in *. cbn [List.filter]. now rewrite IH.
Qed.

Lemma insert_desc_perm (x : A) (l : list A) : Permutation (x :: l) (insert_desc key x l).
Proof.
  induction l as [|y l IH]; cbn; [reflexivity|].
  destruct (datetime_ltb (key x) (key y)); [|reflexivity].
  rewrite perm_swap. now constructor.
Qed.

Lemma sort_desc_perm (l : list A) : Permutation l (sort_desc key l).
Proof.
  induction l as [|x l IH]; cbn; [constructor|].
  rewrite <- insert_desc_perm. now constructor.
Qed.

Lemma with_key_In (k : datetime) (x : A) (l : list A) :
  In x (with_key key k l) <-> In x l /\ key x = k.
Proof.
  unfold with_key. rewrite filter_In, datetime_eqb_eq. reflexivity.
Qed.

(** Descending order and the order inside every key determine a list. *)
Lemma stable_sort_desc_unique (l1 : list A) : forall l2 : list A,
  sorted_desc key l1 -> sorted_desc key l2 ->
  (forall k, with_key key k l1 = with_key key k l2) ->
  l1 = l2.
Proof.
  induction l1 as [|a l1 IH]; intros l2 Hs1 Hs2 Hk.
  - destruct l2 as [|b l2]; [reflexivity|].
    specialize (Hk (key b)). unfold with_key in Hk. cbn in Hk.
    rewrite (proj2 (datetime_eqb_eq _ _) eq_refl) in Hk. discriminate.
  - destruct l2 as [|b l2].
    + specialize (Hk (key a)). unfold with_key in Hk. cbn in Hk.
      rewrite (proj2 (datetime_eqb_eq _ _) eq_refl) in Hk. discriminate.
    + apply StronglySorted_inv in Hs1 as [Hs1 Ha].
      apply StronglySorted_inv in Hs2 as [Hs2 Hb].
      assert (Hkey : key a = key b).
      { apply datetime_leb_antisym.
        - assert (Hin : In a (b :: l2)).
          { apply (with_key_In (key a)). rewrite <- Hk. apply with_key_In.
            split; [now left|reflexivity]. }
          destruct Hin as [->|Hin]; [apply datetime_leb_refl|].
          rewrite List.Forall_forall in Hb. now apply Hb.
        - assert (Hin : In b (a :: l1)).
          { apply (with_key_In (key b)). rewrite Hk. apply with_key_In.
            split; [now left|reflexivity]. }
          destruct Hin as [->|Hin]; [apply datetime_leb_refl|].
          rewrite List.Forall_forall in Ha. now apply Ha. }
      assert (Hab : a = b).
      { specialize (Hk (key a)). unfold with_key in Hk. cbn in Hk.
        rewrite <- Hkey in Hk.
        rewrite (proj2 (datetime_eqb_eq _ _) eq_refl) in Hk. congruence. }
      subst b. f_equal. apply IH; try assumption.
      intros k. specialize (Hk k). unfold with_key in *. cbn in Hk.
      destruct (datetime_eqb (key a) k); congruence.
Qed.

(** An element of a filtered list splits the list it was filtered from. *)
Lemma filter_split (P : A -> bool) (l : list A) : forall (r1 r2 : list A) (x : A),
  List.filter P l = r1 ++ x :: r2 ->
  exists l1 l2, l = l1 ++ x :: l2 /\ List.filter P l1 = r1 /\ List.filter P l2 = r2.
Proof.
  induction l as [|y l IH]; intros r1 r2 x H.
  - destruct r1; discriminate.
  - cbn in H. destruct (P y) eqn:E.
    + destruct r1 as [|z r1]; cbn in H.
      * injection H as <- H. exists [], l. cbn. auto.
      * injection H as <- H. destruct (IH _ _ _ H) as (l1 & l2 & -> & H1 & H2).
        exists (y :: l1), l2. cbn. rewrite E, H1. auto.
    + destruct (IH _ _ _ H) as (l1 & l2 & -> & H1 & H2).
      exists (y :: l1), l2. cbn. rewrite E. auto.
Qed.

(** Two elements of one key stand in the output in the order of the input. *)
Lemma same_key_order_kept (l l' : list A) :
  (forall k, with_key key k l' = with_key key k l) ->
  forall a b l1 l2 l3, l = l1 ++ a :: l2 ++ b :: l3 -> key a = key b ->
  exists l1' l2' l3', l' = l1' ++ a :: l2' ++ b :: l3'.
Proof.
  intros Hk a b l1 l2 l3 -> Hab. specialize (Hk (key a)).
  unfold with_key in Hk.
  rewrite List.filter_app in Hk. cbn [List.filter] in Hk.
  rewrite (proj2 (datetime_eqb_eq _ _) eq_refl) in Hk.
  rewrite List.filter_app in Hk. cbn [List.filter] in Hk.
  rewrite <- Hab in Hk.
  rewrite (proj2 (datetime_eqb_eq _ _) eq_refl) in Hk.
  apply filter_split in Hk as (l1' & r & -> & _ & Hr).
  apply filter_split in Hr as (l2' & l3' & -> & _ & _).
  eauto.
Qed.

(** In descending order nothing with a greater key follows. *)
Lemma sorted_desc_greater_first (l1 l2 : list A) (b a : A) :
  sorted_desc key (l1 ++ b :: l2) -> datetime_ltb (key b) (key a) = true ->
  ~ In a l2.
Proof.
  unfold sorted_desc. intros Hs Hlt Hin.
  induction l1 as [|c l1 IH]; cbn in Hs.
  - apply StronglySorted_inv in Hs as [_ Hb]. rewrite List.Forall_forall in Hb.
    specialize (Hb _ Hin). cbn in Hb. rewrite datetime_leb_ltb, Hlt in Hb. discriminate.
  - apply StronglySorted_inv in Hs as [Hs _]. auto.
Qed.

Lemma sort_desc_decorated (l : list A) :
  sort_desc snd (map (fun p => (p, key p)) l) = map (fun p => (p, key p)) (sort_desc key l).
Proof.
  induction l as [|x l IH]; [reflexivity|].
  cbn [map sort_desc]. rewrite IH. generalize (sort_desc key l). intros s.
  induction s as [|y s IHs]; [reflexivity|].
  cbn. destruct (datetime_ltb (key x) (key y)); cbn; [now rewrite IHs|reflexivity].
Qed.
End StableSortFacts.

(** * The folder prioritizer *)

Lemma sort_folders_is_sort_desc (folder_paths : list path) :
  sort_folders_by_date_desc folder_paths = sort_desc folder_date folder_paths.
Proof.
  unfold sort_folders_by_date_desc.
  change (fun p => (p, extract_date_from_folder_name (path_name p)))
    with (fun p => (p, folder_date p)).
  rewrite sort_desc_decorated, map_map. cbn. apply map_id.
Qed.

(** C7: the folders come out in descending order of their dates, as a
    rearrangement of the input in which the folders of one date keep the
    order of the input: two folders of the same date stand as they stood.
    The two properties fix the result, so every run on the same input gives
    the same order. *)
Theorem sort_folders_stable (folder_paths : list path) :
  let sorted_paths := sort_folders_by_date_desc folder_paths in
  sorted_desc folder_date sorted_paths /\
  Permutation folder_paths sorted_paths /\
  (forall k, with_key folder_date k sorted_paths = with_key folder_date k folder_paths) /\
  (forall a b l1 l2 l3,
     folder_paths = l1 ++ a :: l2 ++ b :: l3 -> folder_date a = folder_date b ->
     exists l1' l2' l3', sorted_paths = l1' ++ a :: l2' ++ b :: l3') /\
  (forall l',
     sorted_desc folder_date l' ->
     (forall k, with_key folder_date k l' = with_key folder_date k folder_paths) ->
     l' = sorted_paths).
Proof.
  cbn zeta. rewrite sort_folders_is_sort_desc.
  split; [apply sort_desc_sorted|].
  split; [apply sort_desc_perm|].
  split; [intros k; apply with_key_sort_desc|].
  split.
  - apply same_key_order_kept. intros k. apply with_key_sort_desc.
  - intros l' Hs Hk. apply stable_sort_desc_unique with (key := folder_date).
    + exact Hs.
    + apply sort_desc_sorted.
    + intros k. rewrite Hk. symmetry. apply with_key_sort_desc.
Qed.

Lemma sort_folders_stable_witness :
  exists l1 l2 l3,
    sort_folders_by_date_desc
      [["in"; "2020-01-01_A"]; ["in"; "2022-06-01_B"]; ["in"; "2020-01-01_C"]]%string
    = l1 ++ ["in"; "2020-01-01_A"]%string :: l2 ++ ["in"; "2020-01-01_C"]%string :: l3.
Proof.
  destruct (sort_folders_stable
              [["in"; "2020-01-01_A"]; ["in"; "2022-06-01_B"]; ["in"; "2020-01-01_C"]]%string)
    as (_ & _ & _ & Hpair & _).
  apply (Hpair _ _ [] [["in"; "2022-06-01_B"]%string] []); reflexivity.
Defined.

(** The example of the specification. *)
Example sort_folders_example :
  sort_folders_by_date_desc
    [["in"; "2020-01-01_A"]; ["in"; "2022-06-01_B"]; ["in"; "no_date_C"]]%string
  = [["in"; "2022-06-01_B"]; ["in"; "2020-01-01_A"]; ["in"; "no_date_C"]]%string.
Proof. reflexivity. Qed.

(** C6, at a folder dated before 1900: the folder without a date is put
    before the dated folder. *)
Theorem undated_folder_before_early_date :
  folder_date ["in"; "no_date_B"]%string = mk_datetime 1900 1 1 /\
  extract_date_body "no_date_B" = Ok (mk_datetime 1900 1 1) /\
  extract_date_body "1850-05-05_A" = Ok (mk_datetime 1850 5 5) /\
  sort_folders_by_date_desc [["in"; "1850-05-05_A"]; ["in"; "no_date_B"]]%string
  = [["in"; "no_date_B"]; ["in"; "1850-05-05_A"]]%string.
Proof. repeat split; reflexivity. Qed.

(** What does hold: a folder whose date is later than the sentinel is never
    behind a folder that has the sentinel as its key. *)
Lemma later_date_before_sentinel (folder_paths l1 l2 : list path) (a b : path) :
  sort_folders_by_date_desc folder_paths = l1 ++ b :: l2 ->
  folder_date b = sentinel_date ->
  datetime_ltb sentinel_date (folder_date a) = true ->
  ~ In a l2.
Proof.
  intros Hout Hb Ha.
  apply (sorted_desc_greater_first folder_date l1 l2 b a).
  - rewrite <- Hout, sort_folders_is_sort_desc. apply sort_desc_sorted.
  - now rewrite Hb.
Qed.

(** * Batches *)

Lemma firstn_add_skipn {A : Type} (a c : nat) (l : list A) :
  firstn (a + c) l = firstn a l ++ firstn c (skipn a l).
Proof.
  revert l. induction a as [|a IH]; intros l; [reflexivity|].
  destruct l as [|x l]; cbn.
  - now destruct c.
  - now rewrite IH.
Qed.

Lemma current_batch_of_nat (l : list path) (b k : nat) :
  (0 < b)%nat ->
  current_batch l (Z.of_nat b) (Z.of_nat k) = firstn b (skipn (k * b) l).
Proof.
  intros Hb. unfold current_batch, py_slice, slice_bound, len.
  set (n := length l).
  rewrite <- Nat2Z.inj_mul, <- Nat2Z.inj_add.
  destruct (Z.ltb_spec (Z.of_nat (k * b)) 0); [lia|].
  destruct (Z.ltb_spec (Z.min (Z.of_nat (k * b + b)) (Z.of_nat n)) 0); [lia|].
  destruct (Nat.le_gt_cases (k * b) n) as [Hle|Hgt].
  - replace (Z.to_nat (Z.min (Z.of_nat (k * b)) (Z.of_nat n))) with (k * b)%nat by lia.
    destruct (Nat.le_gt_cases (k * b + b) n) as [Hle'|Hgt'].
    + f_equal. lia.
    + replace (Z.to_nat _) with (n - k * b)%nat by lia.
      rewrite !firstn_all2; [reflexivity| |]; rewrite length_skipn; fold n; lia.
  - replace (Z.to_nat (Z.min (Z.of_nat (k * b)) (Z.of_nat n))) with n by lia.
    rewrite !skipn_all2 by (fold n; lia). now rewrite !firstn_nil.
Qed.

Lemma concat_chunks (l : list path) (b m : nat) :
  concat (map (fun k => firstn b (skipn (k * b) l)) (seq 0 m)) = firstn (m * b) l.
Proof.
  induction m as [|m IH]; [reflexivity|].
  rewrite seq_S, map_app, concat_app, IH. cbn [map concat seq Nat.add].
  rewrite app_nil_r. replace (S m * b)%nat with (m * b + b)%nat by lia.
  now rewrite firstn_add_skipn.
Qed.

Lemma total_batches_ceil (l : list path) (B : Z) :
  0 < B -> total_batches l B = ceil_div (len l) B.
Proof.
  intros HB. unfold total_batches, ceil_div.
  pose proof (Z.div_mod (len l) B ltac:(lia)) as Hdm.
  pose proof (Z.mod_pos_bound (len l) B HB) as Hr.
  set (q := len l / B) in *. set (r := len l mod B) in *.
  destruct (Z.eqb_spec r 0) as [Hr0|Hr0].
  - symmetry. apply (Z.div_unique _ _ _ (B - 1)); lia.
  - symmetry. apply (Z.div_unique _ _ _ (r - 1)); lia.
Qed.

Lemma batches_of_nat (l : list path) (b : nat) :
  (0 < b)%nat ->
  batches l (Z.of_nat b) =
  map (fun k => firstn b (skipn (k * b) l))
    (seq 0 (Z.to_nat (total_batches l (Z.of_nat b)))).
Proof.
  intros Hb. unfold batches, py_range. rewrite map_map.
  apply map_ext. intros k. now apply current_batch_of_nat.
Qed.

Lemma batches_concat (path_list : list path) (batch_size : Z) :
  0 < batch_size -> concat (batches path_list batch_size) = path_list.
Proof.
  intros HB.
  pose proof (total_batches_ceil path_list batch_size HB) as Hceil.
  set (b := Z.to_nat batch_size).
  assert (Hb : (0 < b)%nat) by lia.
  assert (HBb : batch_size = Z.of_nat b) by lia.
  pose proof (Z.div_mod (len path_list) batch_size ltac:(lia)) as Hdm.
  pose proof (Z.mod_pos_bound (len path_list) batch_size HB) as Hr.
  pose proof (Z.div_pos (len path_list) batch_size ltac:(unfold len; lia) HB) as Hq.
  assert (Hm : Z.of_nat (Z.to_nat (total_batches path_list batch_size))
               = ceil_div (len path_list) batch_size).
  { rewrite Hceil. unfold ceil_div. destruct (_ =? 0); lia. }
  rewrite HBb at 1. rewrite batches_of_nat by exact Hb. rewrite concat_chunks.
  apply firstn_all2. rewrite <- HBb.
  unfold ceil_div in Hm. unfold len in *.
  destruct (Z.eqb_spec (Z.of_nat (length path_list) mod batch_size) 0); nia.
Qed.

(** * The file system *)

Lemma entry_name_Some (dir p : path) (name : string) :
  entry_name dir p = Some name <-> p = dir ++ [name].
Proof.
  unfold entry_name. split.
  - destruct (List.rev p) as [|n parent] eqn:E; [discriminate|].
    case_bool_decide as Hd; [|discriminate]. intros [= ->].
    rewrite <- (rev_involutive p), E. cbn. now rewrite Hd.
  - intros ->. rewrite rev_app_distr. cbn.
    rewrite rev_involutive. now rewrite bool_decide_eq_true_2.
Qed.

Lemma iterdir_spec (fs : gmap path kind) (dir : path) (name : string) :
  In name (iterdir fs dir) <-> is_Some (fs !! (dir ++ [name])).
Proof.
  unfold iterdir. rewrite <- list_elem_of_In, list_elem_of_omap. split.
  - intros [[p k] [Hin Hname]]. cbn in Hname.
    apply entry_name_Some in Hname as ->.
    apply elem_of_map_to_list in Hin. eauto.
  - intros [k Hk]. exists (dir ++ [name], k). split.
    + now apply elem_of_map_to_list.
    + cbn. now apply entry_name_Some.
Qed.

Lemma is_dir_spec (fs : gmap path kind) (p : path) :
  is_dir fs p = true <-> fs !! p = Some KDir.
Proof. unfold is_dir. apply bool_decide_eq_true. Qed.

Lemma is_file_spec (fs : gmap path kind) (p : path) :
  is_file fs p = true <-> fs !! p = Some KFile.
Proof. unfold is_file. apply bool_decide_eq_true. Qed.

Lemma is_dir_exists (fs : gmap path kind) (p : path) :
  exists_ fs p && is_dir fs p = is_dir fs p.
Proof.
  unfold exists_, is_dir. destruct (fs !! p) as [[]|] eqn:E.
  - rewrite (bool_decide_eq_false_2 (Some KFile = Some KDir)) by congruence.
    apply andb_false_r.
  - rewrite !bool_decide_eq_true_2; eauto.
  - rewrite bool_decide_eq_false_2; [reflexivity|]. intros [? ?]; congruence.
Qed.

(** * Completion detection *)

Lemma has_result_file_spec (fs : gmap path kind) (vlm_dir : path) :
  has_result_file fs vlm_dir = true <->
  exists entry : string,
    fs !! (vlm_dir ++ [entry]) = Some KFile /\ In (path_suffix entry) result_suffixes.
Proof.
  unfold has_result_file. rewrite existsb_exists. split.
  - intros (entry & _ & H). apply andb_true_iff in H as [Hf Hs].
    apply is_file_spec in Hf. apply bool_decide_eq_true in Hs.
    exists entry. split; [exact Hf|]. now apply list_elem_of_In.
  - intros (entry & Hf & Hs). exists entry. split.
    + apply iterdir_spec. eauto.
    + apply andb_true_iff. split; [now apply is_file_spec|].
      apply bool_decide_eq_true. now apply list_elem_of_In.
Qed.

Lemma is_complete_spec (fs : gmap path kind) (output_subfolder pdf_file : path) :
  is_complete fs output_subfolder pdf_file = true <->
  complete fs output_subfolder pdf_file.
Proof.
  unfold is_complete, complete. cbn zeta.
  rewrite !andb_true_iff, !is_dir_spec, has_result_file_spec. tauto.
Qed.

(** One round of the filter loop keeps the document or counts it as
    skipped, by [is_complete], and leaves the file system as it is. *)
Lemma check_pdf_step (output_subfolder : path) (filtered : list path)
    (skipped : Z) (w : world) (pdf_file : path) :
  exists w',
    check_pdf output_subfolder (filtered, skipped, w) pdf_file =
      (if is_complete (w_fs w) output_subfolder pdf_file
       then (filtered, skipped + 1, w')
       else (filtered ++ [pdf_file], skipped, w')) /\
    w_fs w' = w_fs w /\
    exists lines, w_trace w' = w_trace w ++ lines /\
                  Forall is_log_line lines.
Proof.
  unfold check_pdf, is_complete. cbn zeta. rewrite !is_dir_exists.
  destruct (is_dir (w_fs w) (output_subfolder ++ [path_stem (path_name pdf_file)])); cbn.
  - destruct (is_dir (w_fs w) _); cbn.
    + destruct (has_result_file (w_fs w) _); eexists; (split; [reflexivity|]);
        (split; [reflexivity|]); eexists; (split; [reflexivity|]);
        repeat constructor; unfold is_log_line; eauto.
    + eexists; (split; [reflexivity|]); (split; [reflexivity|]).
      exists [Log DEBUG (MsgNoVlmDir (path_stem (path_name pdf_file)));
              Log INFO (MsgItemIncomplete (path_stem (path_name pdf_file)))].
      cbn. rewrite <- app_assoc. split; [reflexivity|]. repeat constructor; unfold is_log_line; eauto.
  - exists w. split; [reflexivity|]. split; [reflexivity|].
    exists []. rewrite app_nil_r. split; [reflexivity|constructor].
Qed.

Lemma check_pdf_fold (output_subfolder : path) (pdf_files : list path) :
  forall (filtered : list path) (skipped : Z) (w : world),
  exists w',
    fold_left (check_pdf output_subfolder) pdf_files (filtered, skipped, w) =
      (filtered ++ List.filter (fun p => negb (is_complete (w_fs w) output_subfolder p)) pdf_files,
       skipped + len (List.filter (is_complete (w_fs w) output_subfolder) pdf_files),
       w') /\
    w_fs w' = w_fs w /\
    exists lines, w_trace w' = w_trace w ++ lines /\
                  Forall is_log_line lines.
Proof.
  induction pdf_files as [|p pdf_files IH]; intros filtered skipped w.
  - exists w. cbn. rewrite app_nil_r, Z.add_0_r. split; [reflexivity|].
    split; [reflexivity|]. exists []. rewrite app_nil_r. split; [reflexivity|constructor].
  - cbn [fold_left List.filter].
    destruct (check_pdf_step output_subfolder filtered skipped w p)
      as (w1 & -> & Hfs1 & lines1 & Ht1 & Hl1).
    destruct (is_complete (w_fs w) output_subfolder p) eqn:E; cbn [negb].
    + destruct (IH filtered (skipped + 1) w1) as (w' & -> & Hfs & lines & Ht & Hl).
      exists w'. rewrite Hfs1. split.
      * f_equal. f_equal. unfold len. cbn [length]. lia.
      * split; [congruence|]. exists (lines1 ++ lines).
        rewrite Ht, Ht1, app_assoc. split; [reflexivity|]. now apply Forall_app.
    + destruct (IH (filtered ++ [p]) skipped w1) as (w' & -> & Hfs & lines & Ht & Hl).
      exists w'. rewrite Hfs1. split.
      * now rewrite <- app_assoc.
      * split; [congruence|]. exists (lines1 ++ lines).
        rewrite Ht, Ht1, app_assoc. split; [reflexivity|]. now apply Forall_app.
Qed.

Lemma In_firstn_list {A : Type} (n : nat) (l : list A) (x : A) :
  In x (firstn n l) -> In x l.
Proof. intros H. rewrite <- (firstn_skipn n l). apply in_or_app. now left. Qed.

Lemma In_skipn_list {A : Type} (n : nat) (l : list A) (x : A) :
  In x (skipn n l) -> In x l.
Proof. intros H. rewrite <- (firstn_skipn n l). apply in_or_app. now right. Qed.

Lemma In_current_batch (l : list path) (B idx : Z) (p : path) :
  In p (current_batch l B idx) -> In p l.
Proof.
  unfold current_batch, py_slice. intros H.
  apply In_firstn_list, In_skipn_list in H. exact H.
Qed.

(** C3: the filter loop classifies a document as complete exactly when its
    output directory is a directory whose [vlm] directory is a directory
    with a regular file of suffix .md, .json or .txt in it.  The documents
    kept for parsing are the others, in their order; the complete ones are
    counted as skipped and are in no batch; a document whose output
    directory exists without such a file is kept. *)
Theorem completion_detection (output_subfolder : path) (pdf_files : list path) (w : world) :
  let fs := w_fs w in
  exists (filtered : list path) (skipped_count : Z) (w' : world),
    fold_left (check_pdf output_subfolder) pdf_files ([], 0, w)
      = (filtered, skipped_count, w') /\
    w_fs w' = fs /\
    filtered = List.filter (fun p => negb (is_complete fs output_subfolder p)) pdf_files /\
    skipped_count = len (List.filter (is_complete fs output_subfolder) pdf_files) /\
    (forall p, is_complete fs output_subfolder p = true <-> complete fs output_subfolder p) /\
    (forall p, In p filtered <-> In p pdf_files /\ ~ complete fs output_subfolder p) /\
    (forall p B idx, complete fs output_subfolder p ->
       ~ In p (current_batch filtered B idx)) /\
    (forall p, In p pdf_files ->
       fs !! (output_subfolder ++ [path_stem (path_name p)]) = Some KDir ->
       (fs !! (output_subfolder ++ [path_stem (path_name p); "vlm"%string]) <> Some KDir \/
        forall entry : string,
          fs !! (output_subfolder ++ [path_stem (path_name p); "vlm"%string; entry])
            = Some KFile ->
          ~ In (path_suffix entry) result_suffixes) ->
       In p filtered).
Proof.
  cbn zeta.
  destruct (check_pdf_fold output_subfolder pdf_files [] 0 w) as (w' & Hfold & Hfs & _).
  cbn [app] in Hfold. rewrite Z.add_0_l in Hfold.
  assert (Hin : forall p,
    In p (List.filter (fun p => negb (is_complete (w_fs w) output_subfolder p)) pdf_files)
    <-> In p pdf_files /\ ~ complete (w_fs w) output_subfolder p).
  { intros p. rewrite filter_In, negb_true_iff, <- is_complete_spec.
    destruct (is_complete _ _ _); intuition congruence. }
  eexists _, _, w'. split; [exact Hfold|].
  split; [exact Hfs|]. split; [reflexivity|]. split; [reflexivity|].
  split; [intros p; apply is_complete_spec|].
  split; [exact Hin|]. split.
  - intros p B idx Hc Hb. apply In_current_batch, Hin in Hb. tauto.
  - intros p Hp Hdir Hno. apply Hin. split; [exact Hp|].
    unfold complete. cbn zeta. intros (_ & Hvlm & entry & Hfile & Hsuf).
    repeat (rewrite <- app_assoc in Hvlm; cbn [app] in Hvlm).
    repeat (rewrite <- app_assoc in Hfile; cbn [app] in Hfile).
    destruct Hno as [Hno|Hno]; [exact (Hno Hvlm)|exact (Hno entry Hfile Hsuf)].
Qed.

(** * The folder loop *)

Lemma log_is_log_line (lv : level) (m : message) : is_log_line (Log lv m).
Proof. unfold is_log_line. eauto. Qed.

Lemma world_eta (w : world) : w = mk_world (w_fs w) (w_trace w).
Proof. now destruct w. Qed.

Lemma len_filter_split {A : Type} (f : A -> bool) (l : list A) :
  len (List.filter f l) + len (List.filter (fun x => negb (f x)) l) = len l.
Proof.
  unfold len. induction l as [|x l IH]; [reflexivity|].
  cbn [List.filter]. destruct (f x); cbn [negb length]; lia.
Qed.

(** The part of the loop body before the [try], in closed form: the output
    folder is created, nothing else changes in the file system, only log
    lines are written, the found documents are counted, the complete ones
    are counted as skipped. *)
Lemma scan_folder_cases (output_path : path) (n_folders folder_idx : nat)
    (subfolder : path) (w : world) :
  let output_subfolder := output_path ++ [path_name subfolder] in
  let fs1 := mkdir_exist_ok output_subfolder (w_fs w) in
  let pdf_files := glob_pdf fs1 subfolder in
  let filtered := List.filter (fun p => negb (is_complete fs1 output_subfolder p)) pdf_files in
  let k := len (List.filter (is_complete fs1 output_subfolder) pdf_files) in
  exists lines, Forall is_log_line lines /\
    let w1 := mk_world fs1 (w_trace w ++ lines) in
    forall st : RunStatistics,
    scan_folder output_path n_folders folder_idx subfolder (st, w) =
      match pdf_files with
      | [] => NoPdfFound (st, w1)
      | _ :: _ =>
          match filtered with
          | [] =>
              AllParsed
                (mk_stats (total_pdfs st + len pdf_files) (total_skipped st + k)
                   (total_processed st) (skipped_folders st + 1), w1)
          | _ :: _ =>
              Pending filtered output_subfolder
                (mk_stats (total_pdfs st + len pdf_files) (total_skipped st + k)
                   (total_processed st) (skipped_folders st), w1)
          end
      end.
Proof.
  cbn zeta.
  pose proof (fun st => eq_refl (scan_folder output_path n_folders folder_idx subfolder (st, w)))
    as Hscan.
  unfold scan_folder at 2 in Hscan. cbv zeta in Hscan.
  set (name := path_name subfolder) in *.
  set (out := output_path ++ [name]) in *.
  set (w0 := with_fs (mkdir_exist_ok out) (log INFO (MsgFolderStart (S folder_idx) n_folders name) w)) in *.
  change (w_fs w0) with (mkdir_exist_ok out (w_fs w)) in Hscan.
  set (fs1 := mkdir_exist_ok out (w_fs w)) in *.
  destruct (glob_pdf fs1 subfolder) as [|p0 pdfs] eqn:Eglob.
  - exists [Log INFO (MsgFolderStart (S folder_idx) n_folders name); Log WARNING (MsgNoPdf name)].
    split; [repeat constructor; apply log_is_log_line|].
    intros st. rewrite Hscan, ?Eglob.
    cbn. unfold log, emit. cbn. now rewrite <- app_assoc.
  - set (wf := log INFO (MsgFoundPdfs name (length (p0 :: pdfs))) w0).
    destruct (check_pdf_fold out (p0 :: pdfs) [] 0 wf) as (w' & Hfold & Hfs & lines & Ht & Hl).
    change (w_fs wf) with fs1 in Hfold, Hfs.
    cbn [app] in Hfold. rewrite Z.add_0_l in Hfold.
    set (k := len (List.filter (is_complete fs1 out) (p0 :: pdfs))) in *.
    assert (Hk : 0 <= k) by (unfold k, len; lia).
    set (filtered := List.filter (fun p => negb (is_complete fs1 out p)) (p0 :: pdfs)) in *.
    destruct (Z.ltb_spec 0 k) as [Hpos|Hzero].
    + destruct filtered as [|f0 filtered'].
      * exists ([Log INFO (MsgFolderStart (S folder_idx) n_folders name);
                 Log INFO (MsgFoundPdfs name (length (p0 :: pdfs)))] ++ lines ++
                [Log INFO (MsgSkippedItems name k); Log INFO (MsgFolderAllDone name)]).
        split.
        { repeat (apply Forall_app; split); try assumption;
            repeat constructor; apply log_is_log_line. }
        intros st. rewrite Hscan, ?Eglob. fold wf. rewrite Hfold.
        rewrite (proj2 (Z.ltb_lt 0 k) Hpos).
        cbn [total_pdfs total_skipped total_processed skipped_folders].
        f_equal. f_equal. rewrite (world_eta w').
        unfold log, emit. cbn. rewrite Hfs, Ht. cbn.
        f_equal. now rewrite <- !app_assoc.
      * exists ([Log INFO (MsgFolderStart (S folder_idx) n_folders name);
                 Log INFO (MsgFoundPdfs name (length (p0 :: pdfs)))] ++ lines ++
                [Log INFO (MsgSkippedItems name k);
                 Log INFO (MsgNeedParse name (length (f0 :: filtered')))]).
        split.
        { repeat (apply Forall_app; split); try assumption;
            repeat constructor; apply log_is_log_line. }
        intros st. rewrite Hscan, ?Eglob. fold wf. rewrite Hfold.
        rewrite (proj2 (Z.ltb_lt 0 k) Hpos).
        cbn [total_pdfs total_skipped total_processed skipped_folders].
        f_equal. f_equal. rewrite (world_eta w').
        unfold log, emit. cbn. rewrite Hfs, Ht. cbn.
        f_equal. now rewrite <- !app_assoc.
    + assert (Hk0 : k = 0) by lia.
      destruct filtered as [|f0 filtered'].
      * exists ([Log INFO (MsgFolderStart (S folder_idx) n_folders name);
                 Log INFO (MsgFoundPdfs name (length (p0 :: pdfs)))] ++ lines ++
                [Log INFO (MsgFolderAllDone name)]).
        split.
        { repeat (apply Forall_app; split); try assumption;
            repeat constructor; apply log_is_log_line. }
        intros st. rewrite Hscan, ?Eglob. fold wf. rewrite Hfold.
        rewrite (proj2 (Z.ltb_ge 0 k) Hzero), Hk0, !Z.add_0_r.
        cbn [total_pdfs total_skipped total_processed skipped_folders].
        f_equal. f_equal. rewrite (world_eta w').
        unfold log, emit. cbn. rewrite Hfs, Ht. cbn.
        f_equal. now rewrite <- !app_assoc.
      * exists ([Log INFO (MsgFolderStart (S folder_idx) n_folders name);
                 Log INFO (MsgFoundPdfs name (length (p0 :: pdfs)))] ++ lines ++
                [Log INFO (MsgNeedParse name (length (f0 :: filtered')))]).
        split.
        { repeat (apply Forall_app; split); try assumption;
            repeat constructor; apply log_is_log_line. }
        intros st. rewrite Hscan, ?Eglob. fold wf. rewrite Hfold.
        rewrite (proj2 (Z.ltb_ge 0 k) Hzero), Hk0, !Z.add_0_r.
        cbn [total_pdfs total_skipped total_processed skipped_folders].
        f_equal. f_equal. rewrite (world_eta w').
        unfold log, emit. cbn. rewrite Hfs, Ht. cbn.
        f_equal. now rewrite <- !app_assoc.
Qed.

Section DriverFacts.
Variable parse_doc_call : list path -> path -> Z -> list kwarg -> M unit.
Variable output_path : path.
Variable batch_size : Z.
Variable parsing_config : list kwarg.

Local Abbreviation iteration := (folder_iteration parse_doc_call output_path batch_size parsing_config).
Local Abbreviation loop := (process_folders parse_doc_call output_path batch_size parsing_config).
Local Abbreviation outcome_of := (folder_outcome_of parse_doc_call output_path batch_size parsing_config).
Local Abbreviation outcomes := (folder_outcomes parse_doc_call output_path batch_size parsing_config).

(** What one round of the folder loop adds to the counters, by its
    outcome. *)
Lemma folder_iteration_counts (n_folders folder_idx : nat) (subfolder : path)
    (st : RunStatistics) (w : world) :
  let st' := fst (iteration n_folders folder_idx subfolder (st, w)) in
  let o := outcome_of n_folders folder_idx subfolder (st, w) in
  total_pdfs st' - total_skipped st' - total_processed st' =
    total_pdfs st - total_skipped st - total_processed st + items_in_failed_groups [o] /\
  total_processed st' = total_processed st + items_dispatched [o] /\
  skipped_folders st' = skipped_folders st + folders_all_parsed [o].
Proof.
  cbn zeta. unfold folder_iteration, folder_outcome_of.
  destruct (scan_folder_cases output_path n_folders folder_idx subfolder w)
    as (lines & _ & Hscan). cbn zeta in Hscan. rewrite Hscan. clear Hscan.
  set (out := output_path ++ [path_name subfolder]).
  set (fs1 := mkdir_exist_ok out (w_fs w)).
  pose proof (len_filter_split (is_complete fs1 out) (glob_pdf fs1 subfolder)) as Hsplit.
  destruct (glob_pdf fs1 subfolder) as [|p0 pdfs]; [cbn; lia|].
  destruct (List.filter (fun p => negb (is_complete fs1 out p)) (p0 :: pdfs))
    as [|f0 filtered].
  - change (len (@nil path)) with 0 in Hsplit.
    unfold items_in_failed_groups, items_dispatched, folders_all_parsed.
    cbn [fold_right fst total_pdfs total_skipped total_processed skipped_folders]. lia.
  - unfold dispatch_folder.
    destruct (parse_doc_call (f0 :: filtered) out batch_size parsing_config _)
      as [[[]|e] w2].
    + unfold items_in_failed_groups, items_dispatched, folders_all_parsed.
      destruct (Z.of_nat folder_idx <? Z.of_nat n_folders - 1);
        cbn [fold_right fst total_pdfs total_skipped total_processed skipped_folders];
        lia.
    + unfold items_in_failed_groups, items_dispatched, folders_all_parsed.
      cbn [fold_right fst total_pdfs total_skipped total_processed skipped_folders]. lia.
Qed.

Lemma process_folders_counts (n_folders : nat) (folders : list path) :
  forall (folder_idx : nat) (st : RunStatistics) (w : world),
  let st' := fst (loop n_folders folder_idx folders (st, w)) in
  let os := outcomes n_folders folder_idx folders (st, w) in
  total_pdfs st' - total_skipped st' - total_processed st' =
    total_pdfs st - total_skipped st - total_processed st + items_in_failed_groups os /\
  total_processed st' = total_processed st + items_dispatched os /\
  skipped_folders st' = skipped_folders st + folders_all_parsed os.
Proof.
  induction folders as [|f folders IH]; intros folder_idx st w; cbn zeta.
  - cbn. lia.
  - cbn [process_folders folder_outcomes].
    pose proof (folder_iteration_counts n_folders folder_idx f st w) as Hstep.
    cbn zeta in Hstep.
    destruct (iteration n_folders folder_idx f (st, w)) as [st1 w1] eqn:E.
    specialize (IH (S folder_idx) st1 w1). cbn zeta in IH.
    cbn [fst] in Hstep.
    set (o := outcome_of n_folders folder_idx f (st, w)) in *.
    set (os := outcomes n_folders (S folder_idx) folders (st1, w1)) in *.
    unfold items_in_failed_groups, items_dispatched, folders_all_parsed in *.
    cbn [fold_right] in *. destruct o; lia.
Qed.

(** The run reaches its summary as soon as there is a folder to visit. *)
Lemma process_folder_structure_summary (input_path : path) (w : world)
    (sorted_subfolders : list path) (w0 : world) :
  discover output_path input_path w = (Some sorted_subfolders, w0) ->
  exists st w1,
    loop (length sorted_subfolders) 0 sorted_subfolders (mk_stats 0 0 0 0, w0) = (st, w1) /\
    process_folder_structure parse_doc_call output_path batch_size parsing_config
      input_path w =
    (Some st,
     mk_world (w_fs w1)
       (w_trace w1 ++
        [Log INFO (MsgSummary (total_pdfs st) (total_skipped st) (total_processed st)
                     (skipped_folders st) (len sorted_subfolders - skipped_folders st));
         Log INFO MsgAllFoldersDone])).
Proof.
  intros Hd. unfold process_folder_structure. rewrite Hd.
  destruct (loop _ _ _ _) as [st w1]. exists st, w1. split; [reflexivity|].
  unfold log, emit. cbn. now rewrite <- app_assoc.
Qed.

Lemma process_folder_structure_Some (input_path : path) (w : world)
    (st : RunStatistics) (w' : world) :
  process_folder_structure parse_doc_call output_path batch_size parsing_config
    input_path w = (Some st, w') ->
  exists sorted_subfolders w0 w1,
    discover output_path input_path w = (Some sorted_subfolders, w0) /\
    loop (length sorted_subfolders) 0 sorted_subfolders (mk_stats 0 0 0 0, w0) = (st, w1).
Proof.
  unfold process_folder_structure.
  destruct (discover output_path input_path w) as [[sorted|] w0] eqn:Hd; [|discriminate].
  destruct (loop _ _ _ _) as [st1 w1] eqn:El. intros [= <- <-]. eauto.
Qed.
End DriverFacts.

(** * The counters of a run *)

(** C1: when [process_folder_structure] reaches the end, the documents
    found are the documents skipped as complete, the documents counted as
    processed and the documents that were handed to a call of [parse_doc]
    that raised. *)
Theorem statistics_consistency
    (parse_doc_call : list path -> path -> Z -> list kwarg -> M unit)
    (output_path : path) (batch_size : Z) (parsing_config : list kwarg)
    (input_path : path) (w : world) (st : RunStatistics) (w' : world) :
  process_folder_structure parse_doc_call output_path batch_size parsing_config
    input_path w = (Some st, w') ->
  total_pdfs st =
    total_skipped st + total_processed st +
    items_in_failed_groups
      (run_outcomes parse_doc_call output_path batch_size parsing_config input_path w).
Proof.
  intros Hrun.
  destruct (process_folder_structure_Some _ _ _ _ _ _ _ _ Hrun)
    as (sorted & w0 & w1 & Hd & Hloop).
  unfold run_outcomes. rewrite Hd.
  pose proof (process_folders_counts parse_doc_call output_path batch_size
                parsing_config (length sorted) sorted 0 (mk_stats 0 0 0 0) w0) as H.
  cbn zeta in H. rewrite Hloop in H. cbn in H. lia.
Qed.

Lemma statistics_consistency_witness :
  exists st w',
    process_folder_structure (call_parse_doc sample_env) ["out"%string] 2
      [KwUnexpected "dpi"] ["in"%string] sample_world = (Some st, w') /\
    items_in_failed_groups
      (run_outcomes (call_parse_doc sample_env) ["out"%string] 2
         [KwUnexpected "dpi"] ["in"%string] sample_world) = 4 /\
    total_pdfs st = 5 /\ total_skipped st = 1 /\ total_processed st = 0 /\
    total_pdfs st =
      total_skipped st + total_processed st +
      items_in_failed_groups
        (run_outcomes (call_parse_doc sample_env) ["out"%string] 2
           [KwUnexpected "dpi"] ["in"%string] sample_world).
Proof.
  assert (Hst : fst (process_folder_structure (call_parse_doc sample_env) ["out"%string] 2
                       [KwUnexpected "dpi"] ["in"%string] sample_world)
                = Some (mk_stats 5 1 0 0)) by (vm_compute; reflexivity).
  assert (Hfailed : items_in_failed_groups
                      (run_outcomes (call_parse_doc sample_env) ["out"%string] 2
                         [KwUnexpected "dpi"] ["in"%string] sample_world) = 4)
    by (vm_compute; reflexivity).
  destruct (process_folder_structure (call_parse_doc sample_env) ["out"%string] 2
              [KwUnexpected "dpi"] ["in"%string] sample_world) as [ost w'] eqn:Erun.
  cbn [fst] in Hst. subst ost.
  exists (mk_stats 5 1 0 0), w'. split; [reflexivity|]. split; [exact Hfailed|].
  split; [reflexivity|]. split; [reflexivity|]. split; [reflexivity|].
  exact (statistics_consistency _ _ _ _ _ _ _ _ Erun).
Defined.

(** * Failure of a folder, and folders with nothing to parse *)

Lemma filter_none {A : Type} (f : A -> bool) (l : list A) :
  (forall x, In x l -> f x = false) -> List.filter f l = [].
Proof.
  induction l as [|x l IH]; intros H; [reflexivity|].
  cbn. rewrite (H x) by now left. apply IH. intros y Hy. apply H. now right.
Qed.

Section Containment.
Variable parse_doc_call : list path -> path -> Z -> list kwarg -> M unit.
Variable output_path : path.
Variable batch_size : Z.
Variable parsing_config : list kwarg.

Local Abbreviation iteration := (folder_iteration parse_doc_call output_path batch_size parsing_config).
Local Abbreviation loop := (process_folders parse_doc_call output_path batch_size parsing_config).

Lemma add_stats_zero (st : RunStatistics) : add_stats st (mk_stats 0 0 0 0) = st.
Proof. destruct st. unfold add_stats. cbn. f_equal; lia. Qed.

Lemma add_stats_assoc (a b c : RunStatistics) :
  add_stats (add_stats a b) c = add_stats a (add_stats b c).
Proof. unfold add_stats. cbn. f_equal; lia. Qed.

(** A round of the folder loop reads the world and not the counters: it
    adds to the counters what it would add to zero. *)
Lemma folder_iteration_shift (n_folders folder_idx : nat) (subfolder : path)
    (st : RunStatistics) (w : world) :
  iteration n_folders folder_idx subfolder (st, w) =
  (add_stats st (fst (iteration n_folders folder_idx subfolder (mk_stats 0 0 0 0, w))),
   snd (iteration n_folders folder_idx subfolder (mk_stats 0 0 0 0, w))).
Proof.
  unfold folder_iteration.
  destruct (scan_folder_cases output_path n_folders folder_idx subfolder w)
    as (lines & _ & Hscan). cbn zeta in Hscan. rewrite !Hscan. clear Hscan.
  set (out := output_path ++ [path_name subfolder]).
  set (fs1 := mkdir_exist_ok out (w_fs w)).
  destruct (glob_pdf fs1 subfolder) as [|p0 pdfs].
  - cbn [fst snd]. now rewrite add_stats_zero.
  - destruct (List.filter (fun p => negb (is_complete fs1 out p)) (p0 :: pdfs))
      as [|f0 filtered].
    + cbn [fst snd]. unfold add_stats. cbn [total_pdfs total_skipped total_processed skipped_folders].
      repeat f_equal; lia.
    + unfold dispatch_folder.
      destruct (parse_doc_call (f0 :: filtered) out batch_size parsing_config _)
        as [[[]|e] w2].
      * destruct (Z.of_nat folder_idx <? Z.of_nat n_folders - 1); cbn [fst snd];
          unfold add_stats; cbn [total_pdfs total_skipped total_processed skipped_folders];
          repeat f_equal; lia.
      * cbn [fst snd]. unfold add_stats.
        cbn [total_pdfs total_skipped total_processed skipped_folders].
        repeat f_equal; lia.
Qed.

Lemma process_folders_shift (n_folders : nat) (folders : list path) :
  forall (folder_idx : nat) (st : RunStatistics) (w : world),
  loop n_folders folder_idx folders (st, w) =
  (add_stats st (fst (loop n_folders folder_idx folders (mk_stats 0 0 0 0, w))),
   snd (loop n_folders folder_idx folders (mk_stats 0 0 0 0, w))).
Proof.
  induction folders as [|f folders IH]; intros folder_idx st w.
  - cbn. now rewrite add_stats_zero.
  - cbn [process_folders].
    rewrite (folder_iteration_shift n_folders folder_idx f st w).
    destruct (iteration n_folders folder_idx f (mk_stats 0 0 0 0, w)) as [d w1].
    cbn [fst snd]. rewrite (IH (S folder_idx) (add_stats st d) w1).
    rewrite (IH (S folder_idx) d w1). cbn [fst snd].
    now rewrite add_stats_assoc.
Qed.

(** C9: a folder that has documents, all of them complete, is counted as a
    skipped folder and its documents as skipped; the round of the loop only
    creates the output folder and writes log lines (the same whatever the
    call of [parse_doc] would do: it is not made), there is no pause, and
    the loop goes on with the next folder. *)
Theorem nothing_to_parse_skips_folder
    (n_folders folder_idx : nat) (subfolder : path) (rest : list path) (w : world) :
  let output_subfolder := output_path ++ [path_name subfolder] in
  let fs1 := mkdir_exist_ok output_subfolder (w_fs w) in
  let pdf_files := glob_pdf fs1 subfolder in
  pdf_files <> [] ->
  (forall p, In p pdf_files -> complete fs1 output_subfolder p) ->
  exists lines,
    Forall is_log_line lines /\ ~ In (Sleep 3) lines /\
    forall st : RunStatistics,
      let after :=
        (mk_stats (total_pdfs st + len pdf_files) (total_skipped st + len pdf_files)
           (total_processed st) (skipped_folders st + 1),
         mk_world fs1 (w_trace w ++ lines)) in
      scan_folder output_path n_folders folder_idx subfolder (st, w) = AllParsed after /\
      iteration n_folders folder_idx subfolder (st, w) = after /\
      loop n_folders folder_idx (subfolder :: rest) (st, w)
        = loop n_folders (S folder_idx) rest after.
Proof.
  cbn zeta. intros Hne Hall.
  destruct (scan_folder_cases output_path n_folders folder_idx subfolder w)
    as (lines & Hlines & Hcases). cbn zeta in Hcases.
  set (out := output_path ++ [path_name subfolder]) in *.
  set (fs1 := mkdir_exist_ok out (w_fs w)) in *.
  assert (Hfilt : List.filter (fun p => negb (is_complete fs1 out p)) (glob_pdf fs1 subfolder) = []).
  { apply filter_none. intros p Hp.
    apply Hall, is_complete_spec in Hp. now rewrite Hp. }
  pose proof (len_filter_split (is_complete fs1 out) (glob_pdf fs1 subfolder)) as Hsplit.
  rewrite Hfilt in Hsplit. change (len (@nil path)) with 0 in Hsplit.
  rewrite Hfilt in Hcases.
  assert (Hk : len (List.filter (is_complete fs1 out) (glob_pdf fs1 subfolder))
               = len (glob_pdf fs1 subfolder)) by lia.
  rewrite Hk in Hcases.
  exists lines. split; [exact Hlines|]. split.
  - intros Hin. rewrite List.Forall_forall in Hlines.
    destruct (Hlines _ Hin) as (lv & m & Heq). discriminate.
  - intros st. cbn zeta.
    assert (Hscan : scan_folder output_path n_folders folder_idx subfolder (st, w)
                    = AllParsed
                        (mk_stats (total_pdfs st + len (glob_pdf fs1 subfolder))
                           (total_skipped st + len (glob_pdf fs1 subfolder))
                           (total_processed st) (skipped_folders st + 1),
                         mk_world fs1 (w_trace w ++ lines))).
    { rewrite Hcases. destruct (glob_pdf fs1 subfolder); [congruence|reflexivity]. }
    split; [exact Hscan|].
    assert (Hit : iteration n_folders folder_idx subfolder (st, w)
                  = (mk_stats (total_pdfs st + len (glob_pdf fs1 subfolder))
                       (total_skipped st + len (glob_pdf fs1 subfolder))
                       (total_processed st) (skipped_folders st + 1),
                     mk_world fs1 (w_trace w ++ lines))).
    { unfold folder_iteration. now rewrite Hscan. }
    split; [exact Hit|]. cbn [process_folders]. now rewrite Hit.
Qed.
End Containment.

(** * The pipeline *)

Lemma extends_refl (w : world) : extends w w.
Proof. split; [auto|]. exists []. now rewrite app_nil_r. Qed.

Lemma extends_trans (w1 w2 w3 : world) : extends w1 w2 -> extends w2 w3 -> extends w1 w3.
Proof.
  intros [Hf1 [a1 Ht1]] [Hf2 [a2 Ht2]]. split; [auto|].
  exists (a1 ++ a2). now rewrite Ht2, Ht1, app_assoc.
Qed.

Lemma logged_since_extends (w0 w w' : world) (ev : event) :
  logged_since w0 ev w -> extends w w' -> logged_since w0 ev w'.
Proof.
  intros (a & Ht & Hin) [_ [a' Ht']]. exists (a ++ a'). split.
  - now rewrite Ht', Ht, app_assoc.
  - apply in_or_app. now left.
Qed.

Lemma logged_since_start (w0 w w' : world) (ev : event) :
  extends w0 w -> logged_since w ev w' -> logged_since w0 ev w'.
Proof.
  intros [_ [a Ht]] (a' & Ht' & Hin). exists (a ++ a'). split.
  - now rewrite Ht', Ht, app_assoc.
  - apply in_or_app. now right.
Qed.

Lemma extends_emit (ev : event) (w : world) : extends w (emit ev w).
Proof. split; [auto|]. now exists [ev]. Qed.

Lemma extends_emit_r (ev : event) (w w' : world) : extends w w' -> extends w (emit ev w').
Proof. intros H. eapply extends_trans; [exact H|apply extends_emit]. Qed.

Lemma logged_since_emit (ev : event) (w : world) : logged_since w ev (emit ev w).
Proof. exists [ev]. split; [reflexivity|now left]. Qed.

Lemma mkdir_exist_ok_keeps (p q : path) (fs : gmap path kind) (k : kind) :
  fs !! q = Some k -> mkdir_exist_ok p fs !! q = Some k.
Proof.
  intros Hq. unfold mkdir_exist_ok. destruct (fs !! p) eqn:Ep; [exact Hq|].
  rewrite lookup_insert_ne; [exact Hq|]. intros ->. congruence.
Qed.

Lemma makedirs_keeps (p q : path) (fs : gmap path kind) (k : kind) :
  fs !! q = Some k -> makedirs p fs !! q = Some k.
Proof.
  unfold makedirs. generalize (seq 1 (length p)). intros ns. revert fs.
  induction ns as [|n ns IH]; intros fs Hq; [exact Hq|].
  cbn [fold_left]. apply IH. now apply mkdir_exist_ok_keeps.
Qed.

Lemma write_file_keeps (p q : path) (fs : gmap path kind) :
  fs !! q = Some KFile -> write_file p fs !! q = Some KFile.
Proof.
  intros Hq. unfold write_file. destruct (decide (p = q)) as [->|Hne].
  - apply lookup_insert_eq.
  - now rewrite lookup_insert_ne.
Qed.

Lemma write_file_written (p : path) (fs : gmap path kind) :
  write_file p fs !! p = Some KFile.
Proof. apply lookup_insert_eq. Qed.

Lemma extends_with_fs (f : gmap path kind -> gmap path kind) (w : world) :
  (forall fs q, fs !! q = Some KFile -> f fs !! q = Some KFile) ->
  extends w (with_fs f w).
Proof. intros Hf. split; [cbn; auto|]. exists []. cbn. now rewrite app_nil_r. Qed.

Lemma forward_ret {A : Type} (a : A) : forward (ret a).
Proof. intros w. apply extends_refl. Qed.

Lemma forward_raise {A : Type} (e : exn) : forward (@raise A e).
Proof. intros w. apply extends_refl. Qed.

Lemma forward_bind {A B : Type} (c : M A) (k : A -> M B) :
  forward c -> (forall a, forward (k a)) -> forward (bind c k).
Proof.
  intros Hc Hk w. unfold bind. specialize (Hc w).
  destruct (c w) as [[a|e] w1]; cbn [snd] in *; [|exact Hc].
  eapply extends_trans; [exact Hc|apply Hk].
Qed.

Lemma forward_try_catch {A : Type} (c : M A) (h : exn -> M A) :
  forward c -> (forall e, forward (h e)) -> forward (try_catch c h).
Proof.
  intros Hc Hh w. unfold try_catch. specialize (Hc w).
  destruct (c w) as [[a|e] w1]; cbn [snd] in *; [exact Hc|].
  eapply extends_trans; [exact Hc|apply Hh].
Qed.

Lemma forward_effect (f : world -> world) :
  (forall w, extends w (f w)) -> forward (effect f).
Proof. intros Hf w. apply Hf. Qed.

Lemma forward_log (lv : level) (m : message) : forward (effect (log lv m)).
Proof. apply forward_effect. intros w. apply extends_emit. Qed.

Lemma forward_when (b : bool) (c : M unit) : forward c -> forward (when b c).
Proof. intros Hc. destruct b; [exact Hc|apply forward_ret]. Qed.

Lemma forward_for_each {A : Type} (l : list A) (body : A -> M unit) :
  (forall x, forward (body x)) -> forward (for_each l body).
Proof.
  intros Hb. induction l as [|x l IH]; cbn; [apply forward_ret|].
  apply forward_bind; auto.
Qed.

Section PipelineFacts.
Variable env : collaborators.

Lemma forward_collaborator (s : stage) (b : path) : forward (collaborator env s b).
Proof.
  unfold collaborator. case_bool_decide; [apply forward_raise|apply forward_ret].
Qed.

Lemma forward_write_artifact (d : path) (f : string) : forward (write_artifact d f).
Proof.
  apply forward_effect. intros w. apply extends_with_fs. intros fs q.
  apply write_file_keeps.
Qed.

Lemma forward_prepare_env (out : path) (name : string) : forward (prepare_env out name).
Proof.
  unfold prepare_env. repeat apply forward_bind; intros;
    try apply forward_ret;
    apply forward_effect; intros w; apply extends_with_fs; intros fs q;
    apply makedirs_keeps.
Qed.

Lemma forward_parse_item (out : path) (o : parse_options) (name : string) (b : path) :
  forward (parse_item env out o name b).
Proof.
  unfold parse_item.
  repeat first
    [ apply forward_collaborator
    | apply forward_write_artifact
    | apply forward_prepare_env
    | apply forward_log
    | apply forward_when
    | apply forward_bind; [|intros ?]
    | progress cbv zeta ].
Qed.

Lemma forward_do_parse_loop (out : path) (o : parse_options) (names : list string)
    (bytes : list path) : forall idx, forward (do_parse_loop env out o names idx bytes).
Proof.
  induction bytes as [|b bytes IH]; intros idx; cbn [do_parse_loop];
    [apply forward_ret|].
  destruct (names !! idx); [|apply forward_raise].
  apply forward_bind; [apply forward_log|intros _].
  apply forward_bind; [|intros _; apply IH].
  apply forward_try_catch; [apply forward_parse_item|intros e; apply forward_log].
Qed.

Lemma forward_do_parse (out : path) (names : list string) (bytes : list path)
    (o : parse_options) : forward (do_parse env out names bytes o).
Proof.
  unfold do_parse. destruct (String.eqb _ _);
    [apply forward_do_parse_loop|apply forward_log].
Qed.

Lemma forward_read_fn (p : path) : forward (read_fn env p).
Proof. intros w. unfold read_fn. destruct (_ && _); apply extends_refl. Qed.

Lemma forward_read_batch (batch : list path) :
  forall acc, forward (read_batch env batch acc).
Proof.
  induction batch as [|p batch IH]; intros acc; cbn [read_batch];
    [apply forward_ret|].
  apply forward_bind; [|intros acc'; apply IH].
  apply forward_try_catch.
  - apply forward_bind; [apply forward_read_fn|intros ?].
    apply forward_bind; [apply forward_log|intros ?; apply forward_ret].
  - intros e. apply forward_bind; [apply forward_log|intros ?; apply forward_ret].
Qed.

Lemma forward_parse_batch (path_list : list path) (out : path) (B : Z)
    (o : parse_options) (idx : Z) : forward (parse_batch env path_list out B o idx).
Proof.
  unfold parse_batch.
  apply forward_bind; [apply forward_log|intros _].
  apply forward_bind; [apply forward_read_batch|intros lists].
  destruct (fst lists); [apply forward_log|].
  apply forward_bind; [apply forward_do_parse|intros _].
  apply forward_bind; [apply forward_log|intros _].
  apply forward_when. apply forward_bind; [apply forward_log|intros _].
  apply forward_effect. intros w. apply extends_emit.
Qed.

Lemma forward_parse_doc (path_list : list path) (out : path) (B : Z) (o : parse_options) :
  forward (parse_doc env path_list out B o).
Proof.
  unfold parse_doc, parse_doc_body.
  apply forward_try_catch; [|intros e; apply forward_log].
  apply forward_bind; [destruct (B =? 0); [apply forward_raise|apply forward_ret]|intros _].
  apply forward_bind; [|intros _; apply forward_log].
  apply forward_for_each. intros idx. apply forward_parse_batch.
Qed.

(** The body of [parse_doc] is inside a handler that returns: no exception
    leaves [parse_doc]. *)
Lemma parse_doc_returns (path_list : list path) (out : path) (B : Z)
    (o : parse_options) (w : world) :
  fst (parse_doc env path_list out B o w) = Ok tt.
Proof.
  unfold parse_doc, try_catch.
  destruct (parse_doc_body env path_list out B o w) as [[[]|e] w1]; reflexivity.
Qed.
End PipelineFacts.

Section ItemFacts.
Variable env : collaborators.

Lemma collaborator_ok (s : stage) (b : path) :
  item_fault env b = None -> collaborator env s b = ret tt.
Proof.
  intros H. unfold collaborator. rewrite H.
  now rewrite bool_decide_eq_false_2 by discriminate.
Qed.

(** The conversion of a document on which no collaborator fails, as the
    sequence of its writes. *)
Lemma parse_item_ok (out : path) (o : parse_options) (name : string) (b : path) (w : world) :
  item_fault env b = None ->
  let d := out ++ [name; "vlm"%string] in
  parse_item env out o name b w =
  (Ok tt,
   log INFO (MsgItemDone name)
     (write_if (f_dump_model_output o) (d ++ [name ++ "_model_output.txt"]%string)
     (write_if (f_dump_middle_json o) (d ++ [name ++ "_middle.json"]%string)
     (write_if (f_dump_content_list o) (d ++ [name ++ "_content_list.json"]%string)
     (write_if (f_dump_md o) (d ++ [name ++ ".md"]%string)
     (write_if (f_dump_orig_pdf o) (d ++ [name ++ "_origin.pdf"]%string)
     (write_if (f_draw_layout_bbox o) (d ++ [name ++ "_layout.pdf"]%string)
     (with_fs (makedirs d) (with_fs (makedirs (d ++ ["images"%string])) w))))))))).
Proof.
  intros H. cbn zeta. unfold parse_item. rewrite !collaborator_ok by exact H.
  destruct ((0 <? start_page_id o) || bool_decide (is_Some (end_page_id o)));
    destruct (f_draw_layout_bbox o), (f_dump_orig_pdf o), (f_dump_md o),
      (f_dump_content_list o), (f_dump_middle_json o), (f_dump_model_output o);
    reflexivity.
Qed.

Lemma write_if_keeps (flag : bool) (p q : path) (w : world) :
  w_fs w !! q = Some KFile -> w_fs (write_if flag p w) !! q = Some KFile.
Proof. destruct flag; cbn; [apply write_file_keeps|auto]. Qed.

Lemma write_if_trace (flag : bool) (p : path) (w : world) :
  w_trace (write_if flag p w) = w_trace w.
Proof. now destruct flag. Qed.

Lemma write_if_written (p : path) (w : world) :
  w_fs (write_if true p w) !! p = Some KFile.
Proof. cbn. apply write_file_written. Qed.

Lemma parse_item_artifacts (out : path) (o : parse_options) (name : string) (b : path)
    (w : world) :
  item_fault env b = None ->
  fst (parse_item env out o name b w) = Ok tt /\
  logged_since w (Log INFO (MsgItemDone name)) (snd (parse_item env out o name b w)) /\
  forall a, In a (artifacts o out name) ->
    w_fs (snd (parse_item env out o name b w)) !! a = Some KFile.
Proof.
  intros H. rewrite (parse_item_ok out o name b w H). cbn zeta. cbn [fst snd].
  split; [reflexivity|]. split.
  - exists [Log INFO (MsgItemDone name)]. split; [|now left].
    unfold log, emit. cbn [w_trace]. now rewrite !write_if_trace.
  - intros a Ha. unfold artifacts in Ha. cbn zeta in Ha.
    change (w_fs (log INFO (MsgItemDone name) ?x)) with (w_fs x).
    repeat (apply in_app_or in Ha as [Ha|Ha]);
      match type of Ha with
      | In _ (if ?f then _ else _) =>
          destruct f eqn:Ef; [destruct Ha as [<-|[]]|destruct Ha]
      end;
      repeat first [apply write_if_written | apply write_if_keeps].
Qed.
End ItemFacts.

Section ServingFacts.
Variable env : collaborators.
Variable o : parse_options.
Variable out : path.

Lemma item_served_extends (w0 w1 w2 : world) (p : path) :
  item_served env o out w0 w1 p -> extends w1 w2 -> item_served env o out w0 w2 p.
Proof.
  intros [(rank & total & Hs) Hd] Hext. split.
  - exists rank, total. eapply logged_since_extends; eassumption.
  - intros Hf. destruct (Hd Hf) as [Hl Ha]. split.
    + eapply logged_since_extends; eassumption.
    + intros a Hin. apply Hext. auto.
Qed.

Lemma item_served_start (w0 w1 w2 : world) (p : path) :
  extends w0 w1 -> item_served env o out w1 w2 p -> item_served env o out w0 w2 p.
Proof.
  intros Hext [(rank & total & Hs) Hd]. split.
  - exists rank, total. eapply logged_since_start; eassumption.
  - intros Hf. destruct (Hd Hf) as [Hl Ha]. split; [|exact Ha].
    eapply logged_since_start; eassumption.
Qed.

Lemma readable_extends (w w' : world) (docs : list path) :
  readable env w docs -> extends w w' -> readable env w' docs.
Proof.
  intros Hr [Hf _] p Hp. destruct (Hr p Hp) as [H1 H2]. split; [auto|exact H2].
Qed.

(** The loop of [do_parse] starts the conversion of every document it is
    given and returns, whatever fails inside. *)
Lemma do_parse_loop_serves (bytes : list path) : forall (pre : list string) (w : world),
  fst (do_parse_loop env out o (pre ++ map doc_name bytes) (length pre) bytes w) = Ok tt /\
  forall p, In p bytes ->
    item_served env o out w
      (snd (do_parse_loop env out o (pre ++ map doc_name bytes) (length pre) bytes w)) p.
Proof.
  induction bytes as [|b bytes IH]; intros pre w.
  - cbn. split; [reflexivity|]. intros p [].
  - pose (names := pre ++ doc_name b :: map doc_name bytes).
    pose (w1 := log INFO (MsgParseItem (S (length pre)) (length names) (doc_name b)) w).
    pose (item := try_catch (parse_item env out o (doc_name b) b)
                    (fun e => effect (log ERROR (MsgItemError (doc_name b) e)))).
    assert (Hnames : names = (pre ++ [doc_name b]) ++ map doc_name bytes)
      by (unfold names; now rewrite <- app_assoc).
    assert (Hidx : S (length pre) = length (pre ++ [doc_name b]))
      by (rewrite length_app; cbn; lia).
    assert (Hitem_ok : fst (item w1) = Ok tt).
    { unfold item, try_catch. destruct (parse_item _ _ _ _ _ w1) as [[[]|e] w2]; reflexivity. }
    assert (Hitem_fw : extends w1 (snd (item w1))).
    { apply (forward_try_catch _ _ (forward_parse_item env out o (doc_name b) b)).
      intros e. apply forward_log. }
    assert (Hb : item_served env o out w (snd (item w1)) b).
    { split.
      - exists (S (length pre)), (length names).
        eapply logged_since_extends; [apply logged_since_emit|exact Hitem_fw].
      - intros Hf. destruct (parse_item_artifacts env out o (doc_name b) b w1 Hf)
          as (Hok & Hlog & Hart).
        unfold item, try_catch.
        destruct (parse_item env out o (doc_name b) b w1) as [[[]|e] w2];
          cbn [fst snd] in *; [|discriminate].
        split; [|exact Hart].
        eapply logged_since_start; [apply extends_emit|exact Hlog]. }
    assert (Hstep :
      do_parse_loop env out o (pre ++ map doc_name (b :: bytes)) (length pre) (b :: bytes) w
      = do_parse_loop env out o ((pre ++ [doc_name b]) ++ map doc_name bytes)
          (length (pre ++ [doc_name b])) bytes (snd (item w1))).
    { cbn [map do_parse_loop]. rewrite list_lookup_middle by reflexivity.
      rewrite <- Hnames, <- Hidx. fold names.
      unfold bind at 1. unfold effect at 1. fold w1.
      unfold bind at 1. fold item.
      destruct (item w1) as [[[]|e] w2]; [reflexivity|discriminate]. }
    rewrite Hstep.
    destruct (IH (pre ++ [doc_name b]) (snd (item w1))) as [Hok Hserved].
    split; [exact Hok|].
    assert (Hfw : extends (snd (item w1))
              (snd (do_parse_loop env out o ((pre ++ [doc_name b]) ++ map doc_name bytes)
                      (length (pre ++ [doc_name b])) bytes (snd (item w1)))))
      by apply forward_do_parse_loop.
    intros p [<-|Hp].
    + eapply item_served_extends; [exact Hb|exact Hfw].
    + eapply item_served_start; [|apply Hserved, Hp].
      eapply extends_trans; [apply extends_emit|exact Hitem_fw].
Qed.

Lemma read_batch_all (batch : list path) : forall (acc : list string * list path) (w : world),
  readable env w batch ->
  exists w',
    read_batch env batch acc w
      = (Ok (fst acc ++ map doc_name batch, snd acc ++ batch), w') /\
    extends w w'.
Proof.
  induction batch as [|p batch IH]; intros acc w Hr.
  - exists w. cbn. rewrite !app_nil_r. destruct acc. split; [reflexivity|apply extends_refl].
  - cbn [read_batch map]. fold (doc_name p).
    destruct (Hr p ltac:(now left)) as [Hfile Hfault].
    unfold bind at 1. unfold try_catch, bind at 1. unfold read_fn.
    unfold is_file. rewrite bool_decide_eq_true_2 by exact Hfile. rewrite Hfault.
    cbn [andb negb]. unfold bind at 1. unfold effect at 1.
    unfold ret at 1. cbn [fst snd].
    set (w1 := log INFO (MsgReadOk (doc_name p)) w).
    destruct (IH (fst acc ++ [doc_name p], snd acc ++ [p]) w1) as (w' & Hrb & Hext).
    { eapply readable_extends; [|apply extends_emit].
      intros q Hq. apply Hr. now right. }
    exists w'. rewrite Hrb. cbn [fst snd]. rewrite <- !app_assoc. split; [reflexivity|].
    eapply extends_trans; [apply extends_emit|exact Hext].
Qed.
End ServingFacts.

Section BatchFacts.
Variable env : collaborators.
Variable o : parse_options.
Variable out : path.
Variable path_list : list path.
Variable batch_size : Z.
Hypothesis backend_supported : backend o = "vlm-transformers"%string.

Lemma do_parse_supported (names : list string) (bytes : list path) :
  do_parse env out names bytes o = do_parse_loop env out o names 0 bytes.
Proof. unfold do_parse. now rewrite backend_supported. Qed.

Lemma parse_batch_serves (idx : Z) (w : world) :
  readable env w (current_batch path_list batch_size idx) ->
  fst (parse_batch env path_list out batch_size o idx w) = Ok tt /\
  forall p, In p (current_batch path_list batch_size idx) ->
    item_served env o out w (snd (parse_batch env path_list out batch_size o idx w)) p.
Proof.
  intros Hr.
  set (total := total_batches path_list batch_size).
  set (w1 := log INFO (MsgBatchStart (idx + 1) total) w).
  destruct (read_batch_all env (current_batch path_list batch_size idx) ([], []) w1)
    as (w2 & Hrb & Hext2).
  { eapply readable_extends; [exact Hr|apply extends_emit]. }
  cbn [fst snd app] in Hrb.
  destruct (current_batch path_list batch_size idx) as [|b batch'] eqn:Eb.
  - assert (Heq : parse_batch env path_list out batch_size o idx w
                  = (Ok tt, log WARNING (MsgBatchEmpty (idx + 1)) w2)).
    { unfold parse_batch, bind, effect. fold total. fold w1. rewrite Eb, Hrb.
      reflexivity. }
    rewrite Heq. split; [reflexivity|]. intros p [].
  - destruct (do_parse_loop_serves env o out (b :: batch') [] w2) as [Hok Hserved].
    cbn [app length map] in Hok, Hserved.
    destruct (do_parse_loop env out o (doc_name b :: map doc_name batch') 0 (b :: batch') w2)
      as [[[]|e] w3] eqn:Eloop; cbn [fst snd] in *; [|discriminate].
    assert (Heq : parse_batch env path_list out batch_size o idx w
                  = (Ok tt,
                     if idx <? total - 1
                     then emit (Sleep 2)
                            (log INFO MsgWaitNextBatch (log INFO (MsgBatchDone (idx + 1)) w3))
                     else log INFO (MsgBatchDone (idx + 1)) w3)).
    { unfold parse_batch, bind, effect. fold total. fold w1. rewrite Eb, Hrb.
      cbn [fst snd map]. rewrite do_parse_supported, Eloop.
      destruct (idx <? total - 1); reflexivity. }
    rewrite Heq. split; [reflexivity|]. cbn [snd].
    intros p Hp. specialize (Hserved p Hp).
    assert (H3 : item_served env o out w w3 p).
    { eapply item_served_start; [|exact Hserved].
      eapply extends_trans; [apply extends_emit|exact Hext2]. }
    eapply item_served_extends; [exact H3|].
    destruct (idx <? total - 1); unfold log;
      repeat apply extends_emit_r; apply extends_refl.
Qed.

Lemma for_each_batch_serves (idxs : list Z) : forall w : world,
  readable env w path_list ->
  fst (for_each idxs (parse_batch env path_list out batch_size o) w) = Ok tt /\
  forall idx p, In idx idxs -> In p (current_batch path_list batch_size idx) ->
    item_served env o out w
      (snd (for_each idxs (parse_batch env path_list out batch_size o) w)) p.
Proof.
  induction idxs as [|i idxs IH]; intros w Hr.
  - cbn. split; [reflexivity|]. intros idx p [].
  - cbn [for_each].
    assert (Hri : readable env w (current_batch path_list batch_size i)).
    { intros p Hp. apply Hr. eapply In_current_batch, Hp. }
    destruct (parse_batch_serves i w Hri) as [Hok Hserved].
    pose proof (forward_parse_batch env path_list out batch_size o i w) as Hfw.
    unfold bind.
    destruct (parse_batch env path_list out batch_size o i w) as [[[]|e] w1];
      cbn [fst snd] in *; [|discriminate].
    destruct (IH w1 (readable_extends env w w1 path_list Hr Hfw)) as [Hok' Hserved'].
    split; [exact Hok'|].
    intros idx p [<-|Hidx] Hp.
    + eapply item_served_extends; [apply Hserved, Hp|].
      apply (forward_for_each idxs _ (forward_parse_batch env path_list out batch_size o)).
    + eapply item_served_start; [exact Hfw|]. now apply Hserved' with (idx := idx).
Qed.

(** With a positive batch size, the supported backend and readable
    documents, [parse_doc] starts the conversion of every document of its
    list, and a document on which no collaborator fails has its artifacts
    when [parse_doc] returns. *)
Lemma parse_doc_serves (w : world) :
  0 < batch_size -> readable env w path_list ->
  forall p, In p path_list ->
    item_served env o out w (snd (parse_doc env path_list out batch_size o w)) p.
Proof.
  intros HB Hr p Hp.
  assert (Hidx : exists idx, In idx (py_range (total_batches path_list batch_size)) /\
                             In p (current_batch path_list batch_size idx)).
  { rewrite <- (batches_concat path_list batch_size HB) in Hp.
    apply in_concat in Hp as (batch & Hb & Hp). unfold batches in Hb.
    apply in_map_iff in Hb as (idx & <- & Hidx). eauto. }
  destruct Hidx as (idx & Hidx & Hpb).
  destruct (for_each_batch_serves (py_range (total_batches path_list batch_size)) w Hr)
    as [Hok Hserved].
  specialize (Hserved idx p Hidx Hpb).
  unfold parse_doc, try_catch, parse_doc_body.
  destruct (Z.eqb_spec batch_size 0) as [->|_]; [lia|].
  unfold bind at 1. unfold ret at 1. unfold bind at 1.
  destruct (for_each _ _ w) as [[[]|e] w1]; cbn [fst snd] in *; [|discriminate].
  unfold effect. cbn [snd].
  eapply item_served_extends; [exact Hserved|apply extends_emit].
Qed.
End BatchFacts.

(** * The call of [parse_doc] made by the driver *)

Lemma call_parse_doc_bound (env : collaborators) (parsing_config : list kwarg)
    (o : parse_options) (path_list : list path) (out : path) (B : Z) :
  bind_kwargs default_options parsing_config = Ok o ->
  call_parse_doc env path_list out B parsing_config = parse_doc env path_list out B o.
Proof. intros H. unfold call_parse_doc. now rewrite H. Qed.

Lemma no_failed_no_items (os : list folder_outcome) :
  Forall (fun oc => ~ is_failed oc) os -> items_in_failed_groups os = 0.
Proof.
  induction 1 as [|oc os Hoc _ IH]; [reflexivity|].
  unfold items_in_failed_groups in *. cbn [fold_right]. rewrite IH.
  destruct oc; cbn in Hoc; tauto.
Qed.

Section ReturningCall.
Variable parse_doc_call : list path -> path -> Z -> list kwarg -> M unit.
Variable output_path : path.
Variable batch_size : Z.
Variable parsing_config : list kwarg.
Hypothesis call_returns :
  forall path_list out w, fst (parse_doc_call path_list out batch_size parsing_config w) = Ok tt.

(** When the call returns, the round of the loop counts all the documents
    it handed over as processed. *)
Lemma folder_iteration_pending (n_folders folder_idx : nat) (subfolder : path)
    (st : RunStatistics) (w : world) (filtered : list path) (out : path)
    (st1 : RunStatistics) (w1 : world) :
  scan_folder output_path n_folders folder_idx subfolder (st, w)
    = Pending filtered out (st1, w1) ->
  let w2 := snd (parse_doc_call filtered out batch_size parsing_config w1) in
  exists w3,
    folder_iteration parse_doc_call output_path batch_size parsing_config
      n_folders folder_idx subfolder (st, w)
    = (mk_stats (total_pdfs st1) (total_skipped st1)
         (total_processed st + len filtered) (skipped_folders st1), w3) /\
    extends w2 w3 /\
    total_pdfs st1 - total_pdfs st = total_skipped st1 - total_skipped st + len filtered.
Proof.
  intros Hscan. cbn zeta.
  destruct (scan_folder_cases output_path n_folders folder_idx subfolder w)
    as (lines & _ & Hcases). cbn zeta in Hcases.
  set (out0 := output_path ++ [path_name subfolder]) in *.
  set (fs1 := mkdir_exist_ok out0 (w_fs w)) in *.
  pose proof (len_filter_split (is_complete fs1 out0) (glob_pdf fs1 subfolder)) as Hsplit.
  assert (Hst : total_processed st1 = total_processed st /\
                total_pdfs st1 - total_pdfs st
                = total_skipped st1 - total_skipped st + len filtered).
  { rewrite Hcases in Hscan.
    remember (glob_pdf fs1 subfolder) as pdfs eqn:Epdfs.
    remember (List.filter (fun p => negb (is_complete fs1 out0 p)) pdfs) as flt eqn:Eflt.
    destruct pdfs; [discriminate|]. destruct flt; [discriminate|].
    injection Hscan as <- _ <- _. cbn [total_pdfs total_skipped total_processed].
    cbn [List.filter] in Hsplit. split; [reflexivity|lia]. }
  unfold folder_iteration. rewrite Hscan. unfold dispatch_folder.
  pose proof (call_returns filtered out w1) as Hret.
  destruct (parse_doc_call filtered out batch_size parsing_config w1) as [[[]|e] w2];
    cbn [fst snd] in *; [|discriminate].
  destruct Hst as [Hp Hd]. rewrite Hp.
  destruct (Z.of_nat folder_idx <? Z.of_nat n_folders - 1); eexists;
    (split; [reflexivity|]); (split; [|exact Hd]);
    unfold log; repeat apply extends_emit_r; apply extends_refl.
Qed.

Lemma folder_outcomes_not_failed (n_folders : nat) (folders : list path) :
  forall (folder_idx : nat) (acc : RunStatistics * world),
  Forall (fun oc => ~ is_failed oc)
    (folder_outcomes parse_doc_call output_path batch_size parsing_config
       n_folders folder_idx folders acc).
Proof.
  induction folders as [|f folders IH]; intros folder_idx acc; cbn [folder_outcomes];
    constructor; [|apply IH].
  unfold folder_outcome_of.
  destruct (scan_folder _ _ _ _ _) as [?|?|filtered out [st1 w1]]; cbn; try tauto.
  pose proof (call_returns filtered out w1) as Hret.
  destruct (parse_doc_call filtered out batch_size parsing_config w1) as [[[]|e] w2];
    cbn in *; [tauto|discriminate].
Qed.

Lemma run_processes_all_pending (input_path : path) (w : world) :
  Forall (fun oc => ~ is_failed oc)
    (run_outcomes parse_doc_call output_path batch_size parsing_config input_path w) /\
  forall st w',
    process_folder_structure parse_doc_call output_path batch_size parsing_config
      input_path w = (Some st, w') ->
    total_processed st = total_pdfs st - total_skipped st.
Proof.
  assert (Hnf : Forall (fun oc => ~ is_failed oc)
            (run_outcomes parse_doc_call output_path batch_size parsing_config input_path w)).
  { unfold run_outcomes. destruct (discover output_path input_path w) as [[sorted|] w0];
      [apply folder_outcomes_not_failed|constructor]. }
  split; [exact Hnf|].
  intros st w' Hrun.
  destruct (process_folder_structure_Some _ _ _ _ _ _ _ _ Hrun)
    as (sorted & w0 & w1 & Hd & Hloop).
  pose proof (process_folders_counts parse_doc_call output_path batch_size
                parsing_config (length sorted) sorted 0 (mk_stats 0 0 0 0) w0) as H.
  cbn zeta in H. rewrite Hloop in H. cbn [fst] in H.
  unfold run_outcomes in Hnf. rewrite Hd in Hnf.
  rewrite (no_failed_no_items _ Hnf) in H. cbn in H. lia.
Qed.
End ReturningCall.

(** * Failures inside [parse_doc] *)

(** C10: no exception leaves [parse_doc], whatever its arguments and
    whatever fails inside.  So a call with keyword arguments that
    [parse_doc] accepts returns; the round of the folder loop then adds the
    whole list it handed over to [total_processed]; in a run no call of
    [parse_doc] raises, and at the summary every document that was found
    and not skipped is counted as processed.  This holds for every
    behaviour of the collaborators. *)
Theorem parse_doc_never_raises (env : collaborators) :
  (forall path_list out B o w, fst (parse_doc env path_list out B o w) = Ok tt) /\
  (forall parsing_config o,
     bind_kwargs default_options parsing_config = Ok o ->
     (forall path_list out B w,
        fst (call_parse_doc env path_list out B parsing_config w) = Ok tt) /\
     (forall output_path B n_folders folder_idx subfolder st w filtered out st1 w1,
        scan_folder output_path n_folders folder_idx subfolder (st, w)
          = Pending filtered out (st1, w1) ->
        total_processed
          (fst (folder_iteration (call_parse_doc env) output_path B parsing_config
                  n_folders folder_idx subfolder (st, w)))
        = total_processed st + len filtered) /\
     (forall output_path B input_path w,
        Forall (fun oc => ~ is_failed oc)
          (run_outcomes (call_parse_doc env) output_path B parsing_config input_path w) /\
        forall st w',
          process_folder_structure (call_parse_doc env) output_path B parsing_config
            input_path w = (Some st, w') ->
          total_processed st = total_pdfs st - total_skipped st)).
Proof.
  split; [intros; apply parse_doc_returns|].
  intros parsing_config o Hbind.
  assert (Hret : forall B path_list out w,
            fst (call_parse_doc env path_list out B parsing_config w) = Ok tt).
  { intros. rewrite (call_parse_doc_bound env parsing_config o) by exact Hbind.
    apply parse_doc_returns. }
  split; [intros; apply Hret|]. split.
  - intros output_path B n_folders folder_idx subfolder st w filtered out st1 w1 Hscan.
    destruct (folder_iteration_pending (call_parse_doc env) output_path B parsing_config
                (Hret B) n_folders folder_idx subfolder st w filtered out st1 w1 Hscan)
      as (w3 & -> & _). reflexivity.
  - intros output_path B input_path w.
    apply run_processes_all_pending. apply Hret.
Qed.

Lemma parse_doc_never_raises_witness :
  bind_kwargs default_options [KwDumpOrigPdf false; KwLang "ch"]
    = Ok (mk_parse_options "ch" "vlm-transformers" None 0 None true true true true
            true true false true MM_MD) /\
  fst (call_parse_doc sample_env
         [["in"; "2022-06-01_B"; "b.pdf"]%string] ["out"; "2022-06-01_B"]%string 0
         [KwDumpOrigPdf false; KwLang "ch"] sample_world) = Ok tt.
Proof.
  split; [reflexivity|].
  destruct (parse_doc_never_raises sample_env) as [_ H].
  destruct (H [KwDumpOrigPdf false; KwLang "ch"] _ eq_refl) as [Hcall _].
  apply Hcall.
Defined.

(** C2, at the sample tree: the conversion of [b.pdf] fails and leaves no
    markdown file, three of the four documents handed to [parse_doc] are
    converted, and [total_processed] is four: the document that failed is
    counted as processed. *)
Lemma failed_item_counted_as_processed :
  fst (process_folder_structure (call_parse_doc sample_env) ["out"%string] 5 []
         ["in"%string] sample_world) = Some (mk_stats 5 1 4 0) /\
  In (Log ERROR (MsgItemError "b" CollaboratorError)) (w_trace sample_world_after_run) /\
  w_fs sample_world_after_run !! ["out"; "2022-06-01_B"; "b"; "vlm"; "b.md"]%string = None /\
  items_converted sample_env
    (run_outcomes (call_parse_doc sample_env) ["out"%string] 5 [] ["in"%string]
       sample_world) = 3 /\
  ~ processed_excludes_failed sample_env ["out"%string] 5 [] ["in"%string] sample_world.
Proof.
  assert (Hconv : items_converted sample_env
            (run_outcomes (call_parse_doc sample_env) ["out"%string] 5 [] ["in"%string]
               sample_world) = 3) by (vm_compute; reflexivity).
  split; [vm_compute; reflexivity|].
  split; [vm_compute; tauto|].
  split; [vm_compute; reflexivity|].
  split; [exact Hconv|].
  assert (Hst : fst (process_folder_structure (call_parse_doc sample_env) ["out"%string] 5
                       [] ["in"%string] sample_world)
                = Some (mk_stats 5 1 4 0)) by (vm_compute; reflexivity).
  intros H. unfold processed_excludes_failed in H. rewrite Hconv in H.
  destruct (process_folder_structure (call_parse_doc sample_env) ["out"%string] 5 []
              ["in"%string] sample_world) as [ost w'] eqn:Erun.
  cbn [fst] in Hst. subst ost.
  specialize (H _ _ eq_refl). discriminate H.
Qed.

Lemma nothing_to_parse_skips_folder_witness :
  skipped_folders
    (fst (folder_iteration (call_parse_doc sample_env) ["out"%string] 5 [] 3 1
            ["in"; "2020-01-01_A"]%string (mk_stats 3 0 3 0, sample_world_after_run))) = 1 /\
  total_skipped
    (fst (folder_iteration (call_parse_doc sample_env) ["out"%string] 5 [] 3 1
            ["in"; "2020-01-01_A"]%string (mk_stats 3 0 3 0, sample_world_after_run))) = 2.
Proof.
  pose proof (nothing_to_parse_skips_folder (call_parse_doc sample_env) ["out"%string] 5 []
                3 1 ["in"; "2020-01-01_A"]%string [] sample_world_after_run) as H.
  cbv zeta in H.
  set (out := ["out"%string] ++ [path_name ["in"; "2020-01-01_A"]%string]) in *.
  set (fs1 := mkdir_exist_ok out (w_fs sample_world_after_run)) in *.
  assert (Hglob : glob_pdf fs1 ["in"; "2020-01-01_A"]%string
                  = [["in"; "2020-01-01_A"; "p2.pdf"]; ["in"; "2020-01-01_A"; "p1.pdf"]]%string)
    by (vm_compute; reflexivity).
  rewrite Hglob in H.
  destruct H as (lines & _ & _ & H).
  - discriminate.
  - intros p Hp. cbn [In] in Hp.
    destruct Hp as [<-|[<-|[]]]; apply is_complete_spec; vm_compute; reflexivity.
  - destruct (H (mk_stats 3 0 3 0)) as (_ & -> & _). split; reflexivity.
Defined.


(** * Bounds of the counters *)

Lemma items_in_failed_groups_nonneg (os : list folder_outcome) :
  0 <= items_in_failed_groups os.
Proof.
  unfold items_in_failed_groups.
  induction os as [|o os IH]; cbn [fold_right]; [lia|].
  destruct o; unfold len in *; lia.
Qed.

Lemma items_dispatched_nonneg (os : list folder_outcome) : 0 <= items_dispatched os.
Proof.
  unfold items_dispatched.
  induction os as [|o os IH]; cbn [fold_right]; [lia|].
  destruct o; unfold len in *; lia.
Qed.

Lemma folders_all_parsed_bounds (os : list folder_outcome) :
  0 <= folders_all_parsed os <= len os.
Proof.
  unfold folders_all_parsed, len.
  induction os as [|o os IH]; cbn [fold_right length]; [lia|].
  destruct o; lia.
Qed.

Section CounterBounds.
Variable parse_doc_call : list path -> path -> Z -> list kwarg -> M unit.
Variable output_path : path.
Variable batch_size : Z.
Variable parsing_config : list kwarg.

Lemma folder_outcomes_length (n_folders : nat) (folders : list path) :
  forall (folder_idx : nat) (acc : RunStatistics * world),
  length (folder_outcomes parse_doc_call output_path batch_size parsing_config
            n_folders folder_idx folders acc) = length folders.
Proof.
  induction folders as [|f folders IH]; intros folder_idx acc; cbn; [reflexivity|].
  now rewrite IH.
Qed.

Lemma folder_iteration_skipped_mono (n_folders folder_idx : nat) (subfolder : path)
    (st : RunStatistics) (w : world) :
  total_skipped st <=
  total_skipped
    (fst (folder_iteration parse_doc_call output_path batch_size parsing_config
            n_folders folder_idx subfolder (st, w))).
Proof.
  unfold folder_iteration.
  destruct (scan_folder_cases output_path n_folders folder_idx subfolder w)
    as (lines & _ & Hscan). cbn zeta in Hscan. rewrite Hscan. clear Hscan.
  set (out := output_path ++ [path_name subfolder]).
  set (fs1 := mkdir_exist_ok out (w_fs w)).
  destruct (glob_pdf fs1 subfolder) as [|p0 pdfs]; [cbn; lia|].
  set (k := len (List.filter (is_complete fs1 out) (p0 :: pdfs))).
  assert (Hk : 0 <= k) by (unfold k, len; lia).
  destruct (List.filter (fun p => negb (is_complete fs1 out p)) (p0 :: pdfs))
    as [|f0 filtered]; [cbn; lia|].
  unfold dispatch_folder.
  destruct (parse_doc_call (f0 :: filtered) out batch_size parsing_config _)
    as [[[]|e] w2]; [|cbn; lia].
  destruct (Z.of_nat folder_idx <? Z.of_nat n_folders - 1); cbn; lia.
Qed.

Lemma process_folders_skipped_mono (n_folders : nat) (folders : list path) :
  forall (folder_idx : nat) (st : RunStatistics) (w : world),
  total_skipped st <=
  total_skipped
    (fst (process_folders parse_doc_call output_path batch_size parsing_config
            n_folders folder_idx folders (st, w))).
Proof.
  induction folders as [|f folders IH]; intros folder_idx st w; cbn [process_folders];
    [cbn; lia|].
  pose proof (folder_iteration_skipped_mono n_folders folder_idx f st w) as Hstep.
  destruct (folder_iteration _ _ _ _ _ _ _ _) as [st1 w1]. cbn [fst] in Hstep.
  specialize (IH (S folder_idx) st1 w1). lia.
Qed.

(** X1: at the summary every counter is non-negative, the documents skipped
    and processed together are at most the documents found, and the folders
    skipped are at most the folders visited, so that the number of processed
    folders of the summary is not negative. *)
Theorem counters_bounded (input_path : path) (w : world)
    (st : RunStatistics) (w' : world) :
  process_folder_structure parse_doc_call output_path batch_size parsing_config
    input_path w = (Some st, w') ->
  0 <= total_skipped st /\ 0 <= total_processed st /\
  total_skipped st + total_processed st <= total_pdfs st /\
  exists sorted_subfolders w0,
    discover output_path input_path w = (Some sorted_subfolders, w0) /\
    0 <= skipped_folders st <= len sorted_subfolders.
Proof.
  intros Hrun.
  destruct (process_folder_structure_Some _ _ _ _ _ _ _ _ Hrun)
    as (sorted & w0 & w1 & Hd & Hloop).
  pose proof (process_folders_counts parse_doc_call output_path batch_size
                parsing_config (length sorted) sorted 0 (mk_stats 0 0 0 0) w0) as H.
  pose proof (process_folders_skipped_mono (length sorted) sorted 0 (mk_stats 0 0 0 0) w0)
    as Hsk.
  cbn zeta in H. rewrite Hloop in H, Hsk. cbn [fst] in H, Hsk.
  cbn [total_pdfs total_skipped total_processed skipped_folders] in H, Hsk.
  set (os := folder_outcomes parse_doc_call output_path batch_size parsing_config
               (length sorted) 0 sorted (mk_stats 0 0 0 0, w0)) in *.
  pose proof (items_in_failed_groups_nonneg os) as H1.
  pose proof (items_dispatched_nonneg os) as H2.
  pose proof (folders_all_parsed_bounds os) as H3.
  assert (Hlen : len os = len sorted).
  { unfold len, os. now rewrite folder_outcomes_length. }
  repeat split; try lia.
  exists sorted, w0. split; [exact Hd|]. lia.
Qed.

End CounterBounds.

Lemma counters_bounded_witness :
  exists st,
    fst (process_folder_structure (call_parse_doc sample_env) ["out"%string] 2 []
           ["in"%string] sample_world) = Some st /\
    total_skipped st + total_processed st <= total_pdfs st /\ 0 <= skipped_folders st.
Proof.
  destruct (process_folder_structure (call_parse_doc sample_env) ["out"%string] 2 []
              ["in"%string] sample_world) as [ost w'] eqn:Erun.
  assert (Hst : fst (process_folder_structure (call_parse_doc sample_env) ["out"%string] 2 []
                       ["in"%string] sample_world) <> None) by (vm_compute; discriminate).
  rewrite Erun in Hst. cbn [fst] in Hst. destruct ost as [st|]; [|now destruct Hst].
  exists st. split; [reflexivity|].
  destruct (counters_bounded _ _ _ _ _ _ _ _ Erun) as (_ & _ & Hsum & sorted & w0 & _ & Hf).
  split; [exact Hsum|apply Hf].
Defined.

(** * Keyword arguments that [parse_doc] does not accept *)

Lemma set_option_unexpected (o : parse_options) (kw : kwarg) :
  (exists o', set_option o kw = Ok o' /\ ~ is_unexpected kw) \/
  (set_option o kw = Raise TypeError /\ is_unexpected kw).
Proof. destruct o, kw; cbn; eauto. Qed.

Lemma bind_kwargs_raises (parsing_config : list kwarg) : forall o : parse_options,
  (exists e, bind_kwargs o parsing_config = Raise e) <->
  Exists is_unexpected parsing_config.
Proof.
  induction parsing_config as [|kw rest IH]; intros o; cbn [bind_kwargs].
  - split; [intros [e He]; discriminate|intros H; inversion H].
  - destruct (set_option_unexpected o kw) as [(o' & -> & Hkw)|[-> Hkw]].
    + rewrite IH. split; [intros H; now right|].
      intros H. inversion H; subst; [contradiction|assumption].
    + split; [intros _; now left|eauto].
Qed.

Lemma bind_kwargs_type_error (parsing_config : list kwarg) : forall (o : parse_options) e,
  bind_kwargs o parsing_config = Raise e -> e = TypeError.
Proof.
  induction parsing_config as [|kw rest IH]; intros o e; cbn [bind_kwargs];
    [discriminate|].
  destruct (set_option_unexpected o kw) as [(o' & -> & _)|[-> _]];
    [apply IH|congruence].
Qed.

Section UnexpectedKeyword.
Variable env : collaborators.
Variable output_path : path.
Variable batch_size : Z.
Variable parsing_config : list kwarg.
Hypothesis unexpected : Exists is_unexpected parsing_config.

Lemma call_parse_doc_type_error (path_list : list path) (out : path) (w : world) :
  call_parse_doc env path_list out batch_size parsing_config w = (Raise TypeError, w).
Proof.
  unfold call_parse_doc.
  destruct (proj2 (bind_kwargs_raises parsing_config default_options) unexpected) as [e He].
  rewrite He. now rewrite (bind_kwargs_type_error _ _ _ He).
Qed.

Lemma folder_outcomes_type_error (n_folders : nat) (folders : list path) :
  forall (folder_idx : nat) (acc : RunStatistics * world),
  Forall failed_with_type_error_or_idle
    (folder_outcomes (call_parse_doc env) output_path batch_size parsing_config
       n_folders folder_idx folders acc).
Proof.
  induction folders as [|f folders IH]; intros folder_idx acc; cbn [folder_outcomes];
    constructor; [|apply IH].
  unfold folder_outcome_of.
  destruct (scan_folder _ _ _ _ _) as [?|?|filtered out [st1 w1]]; cbn; try tauto.
  now rewrite call_parse_doc_type_error.
Qed.

Lemma idle_nothing_dispatched (os : list folder_outcome) :
  Forall failed_with_type_error_or_idle os -> items_dispatched os = 0.
Proof.
  induction 1 as [|oc os Hoc _ IH]; [reflexivity|].
  unfold items_dispatched in *. cbn [fold_right]. rewrite IH.
  destruct oc; cbn in Hoc; tauto.
Qed.

End UnexpectedKeyword.



(** * Relations kept by the pipeline *)

Section Preservation.
Variable R : world -> world -> Prop.
Hypothesis R_refl : forall w, R w w.
Hypothesis R_trans : forall w1 w2 w3, R w1 w2 -> R w2 w3 -> R w1 w3.

Lemma preserves_ret {A : Type} (a : A) : preserves R (ret a).
Proof. intros w. apply R_refl. Qed.

Lemma preserves_raise {A : Type} (e : exn) : preserves R (@raise A e).
Proof. intros w. apply R_refl. Qed.

Lemma preserves_bind {A B : Type} (c : M A) (k : A -> M B) :
  preserves R c -> (forall a, preserves R (k a)) -> preserves R (bind c k).
Proof.
  intros Hc Hk w. unfold bind. specialize (Hc w).
  destruct (c w) as [[a|e] w1]; cbn [snd] in *; [|exact Hc].
  eapply R_trans; [exact Hc|apply Hk].
Qed.

Lemma preserves_try_catch {A : Type} (c : M A) (h : exn -> M A) :
  preserves R c -> (forall e, preserves R (h e)) -> preserves R (try_catch c h).
Proof.
  intros Hc Hh w. unfold try_catch. specialize (Hc w).
  destruct (c w) as [[a|e] w1]; cbn [snd] in *; [exact Hc|].
  eapply R_trans; [exact Hc|apply Hh].
Qed.

Lemma preserves_when (b : bool) (c : M unit) : preserves R c -> preserves R (when b c).
Proof. intros Hc. destruct b; [exact Hc|apply preserves_ret]. Qed.

Lemma preserves_for_each {A : Type} (l : list A) (body : A -> M unit) :
  (forall x, In x l -> preserves R (body x)) -> preserves R (for_each l body).
Proof.
  induction l as [|x l IH]; intros Hb; cbn [for_each]; [apply preserves_ret|].
  apply preserves_bind; [apply Hb; now left|intros _].
  apply IH. intros y Hy. apply Hb. now right.
Qed.

Section PipelineShape.
Variable env : collaborators.
Variable o : parse_options.
Variable out : path.
Hypothesis R_batch_log : forall lv m w, batch_message m -> R w (log lv m w).
Hypothesis R_pause : forall w, R w (emit (Sleep 2) w).

Lemma preserves_read_batch (batch : list path) :
  forall acc, preserves R (read_batch env batch acc).
Proof.
  induction batch as [|p batch IH]; intros acc; cbn [read_batch];
    [apply preserves_ret|].
  apply preserves_bind; [|intros acc'; apply IH].
  apply preserves_try_catch.
  - apply preserves_bind.
    + intros w. unfold read_fn. destruct (_ && _); apply R_refl.
    + intros b. apply preserves_bind; [|intros ?; apply preserves_ret].
      intros w. apply R_batch_log. exact I.
  - intros e. apply preserves_bind; [|intros ?; apply preserves_ret].
    intros w. apply R_batch_log. exact I.
Qed.

(** A round of the batch loop keeps what its logging, its pause and
    [do_parse] keep. *)
Lemma preserves_parse_batch (path_list : list path) (B idx : Z) :
  (forall names bytes, preserves R (do_parse env out names bytes o)) ->
  preserves R (parse_batch env path_list out B o idx).
Proof.
  intros Hdo. unfold parse_batch.
  apply preserves_bind; [intros w; apply R_batch_log; exact I|intros _].
  apply preserves_bind; [apply preserves_read_batch|intros lists].
  destruct (fst lists); [intros w; apply R_batch_log; exact I|].
  apply preserves_bind; [apply Hdo|intros _].
  apply preserves_bind; [intros w; apply R_batch_log; exact I|intros _].
  apply preserves_when.
  apply preserves_bind; [intros w; apply R_batch_log; exact I|intros _].
  intros w. apply R_pause.
Qed.

(** [parse_doc] keeps what the rounds of its batch loop keep. *)
Lemma preserves_parse_doc_rounds (path_list : list path) (B : Z) :
  (forall idx, In idx (py_range (total_batches path_list B)) ->
     preserves R (parse_batch env path_list out B o idx)) ->
  preserves R (parse_doc env path_list out B o).
Proof.
  intros Hround. unfold parse_doc, parse_doc_body.
  apply preserves_try_catch; [|intros e w; apply R_batch_log; exact I].
  apply preserves_bind;
    [destruct (B =? 0); [apply preserves_raise|apply preserves_ret]|intros _].
  apply preserves_bind; [|intros _ w; apply R_batch_log; exact I].
  apply preserves_for_each. exact Hround.
Qed.

Lemma preserves_parse_doc (path_list : list path) (B : Z) :
  (forall names bytes, preserves R (do_parse env out names bytes o)) ->
  preserves R (parse_doc env path_list out B o).
Proof.
  intros Hdo. apply preserves_parse_doc_rounds. intros idx _.
  now apply preserves_parse_batch.
Qed.

Hypothesis R_item_log : forall lv m w, item_message m -> R w (log lv m w).

Lemma preserves_do_parse_loop (names : list string) (bytes : list path) :
  (forall name b, preserves R (parse_item env out o name b)) ->
  forall idx, preserves R (do_parse_loop env out o names idx bytes).
Proof.
  intros Hitem.
  induction bytes as [|b bytes IH]; intros idx; cbn [do_parse_loop];
    [apply preserves_ret|].
  destruct (names !! idx); [|apply preserves_raise].
  apply preserves_bind; [intros w; apply R_item_log; exact I|intros _].
  apply preserves_bind; [|intros _; apply IH].
  apply preserves_try_catch; [apply Hitem|intros e w; apply R_item_log; exact I].
Qed.

(** [do_parse] keeps what its logging and the conversion of one document
    keep. *)
Lemma preserves_do_parse (names : list string) (bytes : list path) :
  (forall name b, preserves R (parse_item env out o name b)) ->
  preserves R (do_parse env out names bytes o).
Proof.
  intros Hitem. unfold do_parse.
  destruct (String.eqb _ _); [|intros w; apply R_item_log; exact I].
  now apply preserves_do_parse_loop.
Qed.

Hypothesis R_makedirs : forall name suffix w,
  R w (with_fs (makedirs (out ++ [name; "vlm"%string] ++ suffix)) w).
Hypothesis R_write : forall name file w,
  R w (with_fs (write_file (out ++ [name; "vlm"%string; file])) w).

(** The conversion of one document keeps what the creation of its
    directories and the writing of its files keep. *)
Lemma preserves_parse_item (name : string) (b : path) :
  preserves R (parse_item env out o name b).
Proof.
  assert (Hcol : forall s, preserves R (collaborator env s b)).
  { intros s. unfold collaborator.
    case_bool_decide; [apply preserves_raise|apply preserves_ret]. }
  assert (Hwrite : forall file,
            preserves R (write_artifact (out ++ [name; "vlm"%string]) file)).
  { intros file w. unfold write_artifact, effect. cbn [snd].
    rewrite <- app_assoc. apply R_write. }
  assert (Hprep : forall k : path * path -> M unit,
            preserves R (k ((out ++ [name; "vlm"%string]) ++ ["images"%string],
                            out ++ [name; "vlm"%string])) ->
            preserves R (bind (prepare_env out name) k)).
  { intros k Hk w. cbv beta iota zeta delta [bind prepare_env effect ret].
    eapply R_trans; [|apply Hk].
    apply R_trans
      with (with_fs (makedirs ((out ++ [name; "vlm"%string]) ++ ["images"%string])) w).
    - rewrite <- app_assoc. apply R_makedirs.
    - exact (R_makedirs name [] _). }
  unfold parse_item.
  repeat first
    [ apply Hcol | apply Hwrite
    | apply Hprep; cbv beta zeta; cbn [snd]
    | intros w; apply R_item_log; exact I
    | apply preserves_when
    | apply preserves_bind; [|intros ?] ].
Qed.

Lemma preserves_pipeline (path_list : list path) (B : Z) :
  preserves R (parse_doc env path_list out B o).
Proof.
  apply preserves_parse_doc. intros names bytes.
  apply preserves_do_parse. apply preserves_parse_item.
Qed.
End PipelineShape.
End Preservation.

(** * What the pipeline leaves alone *)

Lemma mkdir_exist_ok_other (p q : path) (fs : gmap path kind) :
  q <> p -> mkdir_exist_ok p fs !! q = fs !! q.
Proof.
  intros Hne. unfold mkdir_exist_ok. destruct (fs !! p); [reflexivity|].
  now rewrite lookup_insert_ne.
Qed.

Lemma makedirs_other (p q : path) (fs : gmap path kind) :
  (forall n, q <> firstn n p) -> makedirs p fs !! q = fs !! q.
Proof.
  intros Hne. unfold makedirs. generalize (seq 1 (length p)). intros ns. revert fs.
  induction ns as [|n ns IH]; intros fs; [reflexivity|].
  cbn [fold_left]. rewrite IH. now apply mkdir_exist_ok_other.
Qed.

Lemma outside_not_prefix (out q : path) (x : list string) :
  outside out q -> (forall rest, out <> q ++ rest) ->
  forall n, q <> firstn n (out ++ x).
Proof.
  intros Hout Hanc n Heq. rewrite firstn_app in Heq.
  destruct (Nat.le_gt_cases (length out) n) as [Hle|Hgt].
  - rewrite firstn_all2 in Heq by exact Hle. now apply (Hout _ Heq).
  - replace (n - length out)%nat with 0%nat in Heq by lia.
    cbn [firstn] in Heq. rewrite app_nil_r in Heq.
    apply (Hanc (skipn n out)). rewrite Heq. symmetry. apply firstn_skipn.
Qed.

Lemma frame_refl (out : path) (w : world) : frame out w w.
Proof. split; auto. Qed.

Lemma frame_trans (out : path) (w1 w2 w3 : world) :
  frame out w1 w2 -> frame out w2 w3 -> frame out w1 w3.
Proof.
  intros [Ha1 Hb1] [Ha2 Hb2]. split.
  - intros q k Hq Hk. apply Ha2; [exact Hq|]. now apply Ha1.
  - intros q Hq Hanc. rewrite Hb2 by assumption. now apply Hb1.
Qed.

Lemma frame_emit (out : path) (ev : event) (w : world) : frame out w (emit ev w).
Proof. split; cbn; auto. Qed.

Lemma frame_makedirs (out : path) (x : list string) (w : world) :
  frame out w (with_fs (makedirs (out ++ x)) w).
Proof.
  split; cbn [with_fs w_fs].
  - intros q k _ Hk. now apply makedirs_keeps.
  - intros q Hq Hanc. apply makedirs_other. now apply outside_not_prefix.
Qed.

Lemma frame_write (out : path) (x : list string) (w : world) :
  frame out w (with_fs (write_file (out ++ x)) w).
Proof.
  assert (H : forall q, outside out q ->
                w_fs (with_fs (write_file (out ++ x)) w) !! q = w_fs w !! q).
  { intros q Hq. cbn. unfold write_file. apply lookup_insert_ne.
    intros Heq. now apply (Hq x). }
  split.
  - intros q k Hq Hk. now rewrite H.
  - intros q Hq _. now apply H.
Qed.

Lemma parse_doc_keeps_frame (env : collaborators) (path_list : list path) (out : path)
    (B : Z) (o : parse_options) (w : world) :
  frame out w (snd (parse_doc env path_list out B o w)).
Proof.
  apply (preserves_pipeline (frame out) (frame_refl out) (frame_trans out) env o out).
  - intros lv m w0 _. apply frame_emit.
  - intros w0. apply frame_emit.
  - intros lv m w0 _. apply frame_emit.
  - intros name suffix w0. apply frame_makedirs.
  - intros name file w0. apply frame_write.
Qed.

(** X4: in a tree without links, when no component of the output
    directory and no logical name of a document is [..], [parse_doc]
    changes nothing outside its output directory, whatever fails: a node
    at a path without [..] outside the tree of [output_dir] that existed
    is the same afterwards, and none is created there but missing
    ancestors of [output_dir].  (A document named [...pdf] has the logical
    name [..]: its directories go to the parent of [output_dir].) *)
Theorem parse_doc_frame (env : collaborators) (path_list : list path) (out : path)
    (B : Z) (o : parse_options) (w : world) (q : path) :
  resolved out ->
  (forall p, In p path_list -> doc_name p <> ".."%string) ->
  resolved q ->
  outside out q ->
  let w' := snd (parse_doc env path_list out B o w) in
  (forall k, w_fs w !! q = Some k -> w_fs w' !! q = Some k) /\
  ((forall rest, out <> q ++ rest) -> w_fs w' !! q = w_fs w !! q).
Proof.
  intros _ _ _ Hq. cbn zeta.
  destruct (parse_doc_keeps_frame env path_list out B o w) as [Hkept Hsame].
  split; [intros k; now apply Hkept|now apply Hsame].
Qed.

Lemma parse_doc_frame_witness :
  let docs := [["in"; "2022-06-01_B"; "a.pdf"]; ["in"; "2022-06-01_B"; "b.pdf"]]%string in
  let w' := snd (parse_doc sample_env docs ["out"; "2022-06-01_B"]%string 2
                   default_options sample_world) in
  w_fs w' !! ["in"; "2022-06-01_B"; "a.pdf"]%string = Some KFile /\
  w_fs w' !! ["out"; "2020-01-01_A"; "p2"]%string = None.
Proof.
  cbv zeta.
  assert (Hout : resolved ["out"; "2022-06-01_B"]%string).
  { unfold resolved. cbn [In]. intros [H|[H|[]]]; discriminate. }
  assert (Hdocs : forall p,
            In p [["in"; "2022-06-01_B"; "a.pdf"]; ["in"; "2022-06-01_B"; "b.pdf"]]%string ->
            doc_name p <> ".."%string).
  { intros p [<-|[<-|[]]]; vm_compute; discriminate. }
  assert (Hin : resolved ["in"; "2022-06-01_B"; "a.pdf"]%string /\
                resolved ["out"; "2020-01-01_A"; "p2"]%string).
  { unfold resolved. cbn [In]. split; intros [H|[H|[H|[]]]]; discriminate. }
  destruct Hin as [Hq1 Hq2].
  destruct (parse_doc_frame sample_env _ ["out"; "2022-06-01_B"]%string 2 default_options
              sample_world ["in"; "2022-06-01_B"; "a.pdf"]%string Hout Hdocs Hq1)
    as [H1 _]; [intros rest; discriminate|].
  destruct (parse_doc_frame sample_env
              [["in"; "2022-06-01_B"; "a.pdf"]; ["in"; "2022-06-01_B"; "b.pdf"]]%string
              ["out"; "2022-06-01_B"]%string 2 default_options
              sample_world ["out"; "2020-01-01_A"; "p2"]%string Hout Hdocs Hq2)
    as [_ H2]; [intros rest; discriminate|].
  split.
  - apply H1. vm_compute. reflexivity.
  - etransitivity; [apply H2; intros rest; discriminate|]. vm_compute. reflexivity.
Defined.

Lemma frame_subtree (out : path) (name : string) (w w' : world) :
  frame (out ++ [name]) w w' -> frame out w w'.
Proof.
  intros [Ha Hb].
  assert (Hout : forall q, outside out q -> outside (out ++ [name]) q).
  { intros q Hq rest Heq. apply (Hq ([name] ++ rest)). now rewrite app_assoc. }
  split.
  - intros q k Hq. apply Ha. now apply Hout.
  - intros q Hq Hanc. apply Hb; [now apply Hout|].
    intros rest Heq. destruct rest as [|r rest] using rev_ind.
    + rewrite app_nil_r in Heq. apply (Hq [name]). now rewrite Heq.
    + rewrite app_assoc in Heq. apply app_inj_tail in Heq as [Heq _].
      now apply (Hanc rest).
Qed.

(** * Relations kept by the driver *)

Section RunShape.
Variable R : world -> world -> Prop.
Variable parse_doc_call : list path -> path -> Z -> list kwarg -> M unit.
Variable output_path : path.
Variable batch_size : Z.
Variable parsing_config : list kwarg.
Hypothesis R_refl : forall w, R w w.
Hypothesis R_trans : forall w1 w2 w3, R w1 w2 -> R w2 w3 -> R w1 w3.
Hypothesis R_emit : forall ev w, R w (emit ev w).
Hypothesis R_root : forall w, R w (with_fs (makedirs output_path) w).
Hypothesis R_subfolder : forall name w,
  R w (with_fs (mkdir_exist_ok (output_path ++ [name])) w).
Hypothesis R_call : forall docs name w,
  R w (snd (parse_doc_call docs (output_path ++ [name]) batch_size parsing_config w)).

Lemma keeps_lines (lines : list event) (w : world) :
  R w (mk_world (w_fs w) (w_trace w ++ lines)).
Proof.
  induction lines as [|ev lines IH] using rev_ind.
  - rewrite app_nil_r, <- world_eta. apply R_refl.
  - eapply R_trans; [exact IH|]. rewrite app_assoc.
    exact (R_emit ev (mk_world (w_fs w) (w_trace w ++ lines))).
Qed.

(** One round of the folder loop keeps what the creation of the output
    folder, the logging and the call of [parse_doc] keep. *)
Lemma folder_iteration_keeps (n_folders folder_idx : nat) (subfolder : path)
    (st : RunStatistics) (w : world) :
  R w (snd (folder_iteration parse_doc_call output_path batch_size parsing_config
              n_folders folder_idx subfolder (st, w))).
Proof.
  unfold folder_iteration.
  destruct (scan_folder_cases output_path n_folders folder_idx subfolder w)
    as (lines & _ & Hscan). cbn zeta in Hscan. rewrite Hscan. clear Hscan.
  set (out := output_path ++ [path_name subfolder]).
  set (fs1 := mkdir_exist_ok out (w_fs w)).
  assert (H1 : R w (mk_world fs1 (w_trace w ++ lines))).
  { eapply R_trans; [apply (R_subfolder (path_name subfolder))|].
    exact (keeps_lines lines (with_fs (mkdir_exist_ok out) w)). }
  destruct (glob_pdf fs1 subfolder) as [|p0 pdfs]; [exact H1|].
  destruct (List.filter (fun p => negb (is_complete fs1 out p)) (p0 :: pdfs))
    as [|f0 filtered]; [exact H1|].
  unfold dispatch_folder.
  pose proof (R_call (f0 :: filtered) (path_name subfolder)
                (mk_world fs1 (w_trace w ++ lines))) as H2.
  fold out in H2.
  destruct (parse_doc_call (f0 :: filtered) out batch_size parsing_config _)
    as [[[]|e] w2]; cbn [snd] in *.
  - destruct (Z.of_nat folder_idx <? Z.of_nat n_folders - 1); cbn [snd];
      eapply R_trans; try exact H1;
      eapply R_trans; try exact H2;
      unfold log; repeat (eapply R_trans; [|apply R_emit]); apply R_refl.
  - eapply R_trans; [exact H1|]. eapply R_trans; [exact H2|apply R_emit].
Qed.

Lemma process_folders_keeps (n_folders : nat) (folders : list path) :
  forall (folder_idx : nat) (st : RunStatistics) (w : world),
  R w (snd (process_folders parse_doc_call output_path batch_size parsing_config
              n_folders folder_idx folders (st, w))).
Proof.
  induction folders as [|f folders IH]; intros folder_idx st w; cbn [process_folders];
    [apply R_refl|].
  pose proof (folder_iteration_keeps n_folders folder_idx f st w) as Hstep.
  destruct (folder_iteration _ _ _ _ _ _ _ _) as [st1 w1]. cbn [snd] in Hstep.
  eapply R_trans; [exact Hstep|apply IH].
Qed.

Lemma process_folder_structure_keeps (input_path : path) (w : world) :
  R w (snd (process_folder_structure parse_doc_call output_path batch_size
              parsing_config input_path w)).
Proof.
  unfold process_folder_structure, discover.
  destruct (negb (exists_ (w_fs w) input_path)); [apply R_emit|].
  destruct (List.filter _ _) as [|s0 subs] eqn:Esubs.
  - eapply R_trans; [apply R_root|apply R_emit].
  - set (sorted := sort_folders_by_date_desc (s0 :: subs)).
    set (w0 := log INFO (MsgFoundSubfolders (length (s0 :: subs)))
                 (with_fs (makedirs output_path) w)).
    pose proof (process_folders_keeps (length sorted) sorted 0 (mk_stats 0 0 0 0) w0) as H.
    destruct (process_folders _ _ _ _ _ _ _ _) as [st w1]. cbn [snd] in *.
    eapply R_trans; [apply R_root|].
    eapply R_trans; [apply R_emit|]. fold w0.
    eapply R_trans; [exact H|].
    unfold log. eapply R_trans; apply R_emit.
Qed.
End RunShape.

Lemma call_parse_doc_frame (env : collaborators) (output_path : path) (batch_size : Z)
    (parsing_config : list kwarg) (path_list : list path) (name : string) (w : world) :
  frame output_path w
    (snd (call_parse_doc env path_list (output_path ++ [name]) batch_size
            parsing_config w)).
Proof.
  unfold call_parse_doc.
  destruct (bind_kwargs default_options parsing_config) as [o|e];
    [|apply frame_refl].
  apply frame_subtree with (name := name). apply parse_doc_keeps_frame.
Qed.

(** X5: a run changes nothing outside the output root: every node that
    existed outside the tree of the output root is the same at the end, the
    input documents among them when the input root is not below the output
    root, and nothing is created outside that tree but missing ancestors of
    the output root. *)
Theorem process_folder_structure_frame (env : collaborators) (output_path : path)
    (batch_size : Z) (parsing_config : list kwarg) (input_path : path) (w : world) :
  frame output_path w
    (snd (process_folder_structure (call_parse_doc env) output_path batch_size
            parsing_config input_path w)).
Proof.
  apply (process_folder_structure_keeps (frame output_path)).
  - apply frame_refl.
  - apply frame_trans.
  - intros ev w0. apply frame_emit.
  - intros w0. rewrite <- (app_nil_r output_path) at 2. apply frame_makedirs.
  - intros name w0. split; cbn [with_fs w_fs].
    + intros q k _ Hk. now apply mkdir_exist_ok_keeps.
    + intros q Hq _. apply mkdir_exist_ok_other. intros ->. now apply (Hq [name]).
  - intros docs name w0. apply call_parse_doc_frame.
Qed.


(** * What [parse_doc] achieves for a document, whatever happens to the others *)

Section Progress.
Variable env : collaborators.
Variable o : parse_options.
Variable out : path.
(** What every step of the pipeline keeps. *)
Variable E : world -> world -> Prop.
(** What is asked of the world when the turn of a document comes. *)
Variable Pre : world -> path -> Prop.
(** What the conversion of a document achieves. *)
Variable Q : world -> path -> Prop.
Hypothesis E_refl : forall w, E w w.
Hypothesis E_trans : forall w1 w2 w3, E w1 w2 -> E w2 w3 -> E w1 w3.
Hypothesis E_emit : forall ev w, E w (emit ev w).
Hypothesis E_makedirs : forall name suffix w,
  E w (with_fs (makedirs (out ++ [name; "vlm"%string] ++ suffix)) w).
Hypothesis E_write : forall name file w,
  E w (with_fs (write_file (out ++ [name; "vlm"%string; file])) w).
Hypothesis Pre_kept : forall w w' p, Pre w p -> E w w' -> Pre w' p.
Hypothesis Pre_can_read : forall w p, Pre w p -> can_read env w p.
Hypothesis Q_kept : forall w w' p, Q w p -> E w w' -> Q w' p.
Hypothesis item_establishes : forall w p rank total,
  Pre w p ->
  Q (snd (try_catch (parse_item env out o (doc_name p) p)
            (fun e => effect (log ERROR (MsgItemError (doc_name p) e)))
            (log INFO (MsgParseItem rank total (doc_name p)) w))) p.

Lemma E_log (lv : level) (m : message) (w : world) : E w (log lv m w).
Proof. apply E_emit. Qed.

Lemma E_parse_item (name : string) (b : path) :
  preserves E (parse_item env out o name b).
Proof. apply preserves_parse_item; auto using E_log. Qed.

Lemma E_do_parse_loop (names : list string) (bytes : list path) (idx : nat) :
  preserves E (do_parse_loop env out o names idx bytes).
Proof. apply preserves_do_parse_loop; auto using E_log, E_parse_item. Qed.

Lemma E_parse_batch (path_list : list path) (B idx : Z) :
  preserves E (parse_batch env path_list out B o idx).
Proof.
  apply preserves_parse_batch; auto using E_log.
  intros names bytes. apply preserves_do_parse; auto using E_log, E_parse_item.
Qed.

Lemma do_parse_loop_progress (bytes : list path) : forall (pre : list string) (w : world),
  fst (do_parse_loop env out o (pre ++ map doc_name bytes) (length pre) bytes w) = Ok tt /\
  forall p, In p bytes -> Pre w p ->
    Q (snd (do_parse_loop env out o (pre ++ map doc_name bytes) (length pre) bytes w)) p.
Proof.
  induction bytes as [|b bytes IH]; intros pre w.
  - cbn. split; [reflexivity|]. intros p [].
  - pose (names := pre ++ doc_name b :: map doc_name bytes).
    pose (w1 := log INFO (MsgParseItem (S (length pre)) (length names) (doc_name b)) w).
    pose (item := try_catch (parse_item env out o (doc_name b) b)
                    (fun e => effect (log ERROR (MsgItemError (doc_name b) e)))).
    assert (Hnames : names = (pre ++ [doc_name b]) ++ map doc_name bytes)
      by (unfold names; now rewrite <- app_assoc).
    assert (Hidx : S (length pre) = length (pre ++ [doc_name b]))
      by (rewrite length_app; cbn; lia).
    assert (Hitem_E : E w (snd (item w1))).
    { apply E_trans with w1; [apply E_log|].
      apply (preserves_try_catch E E_trans); [apply E_parse_item|].
      intros e w'. apply E_log. }
    assert (Hstep :
      do_parse_loop env out o (pre ++ map doc_name (b :: bytes)) (length pre) (b :: bytes) w
      = do_parse_loop env out o ((pre ++ [doc_name b]) ++ map doc_name bytes)
          (length (pre ++ [doc_name b])) bytes (snd (item w1))).
    { cbn [map do_parse_loop]. rewrite list_lookup_middle by reflexivity.
      rewrite <- Hnames, <- Hidx. fold names.
      unfold bind at 1. unfold effect at 1. fold w1.
      unfold bind at 1. fold item.
      assert (Hitem_ok : fst (item w1) = Ok tt).
      { unfold item, try_catch.
        destruct (parse_item _ _ _ _ _ w1) as [[[]|e] w2]; reflexivity. }
      destruct (item w1) as [[[]|e] w2]; [reflexivity|discriminate]. }
    rewrite Hstep.
    destruct (IH (pre ++ [doc_name b]) (snd (item w1))) as [Hok Hserved].
    split; [exact Hok|].
    intros p [<-|Hp] Hpre.
    + eapply Q_kept; [|apply E_do_parse_loop].
      unfold item, w1. now apply item_establishes.
    + apply Hserved; [exact Hp|]. eapply Pre_kept; eassumption.
Qed.

(** The reading loop hands on the documents it could read, and every
    document that can be read is among them. *)
Lemma read_batch_progress (batch : list path) :
  forall (acc : list string * list path) (w : world),
  exists (good : list path) (w' : world),
    read_batch env batch acc w
      = (Ok (fst acc ++ map doc_name good, snd acc ++ good), w') /\
    E w w' /\
    forall p, In p batch -> Pre w p -> In p good.
Proof.
  induction batch as [|p batch IH]; intros acc w.
  - exists [], w. cbn. rewrite !app_nil_r. destruct acc.
    split; [reflexivity|]. split; [apply E_refl|]. intros p [].
  - cbn [read_batch]. fold (doc_name p).
    unfold bind at 1. unfold try_catch, bind at 1. unfold read_fn.
    destruct (is_file (w_fs w) p && negb (read_fault env p)) eqn:Et.
    + unfold bind at 1. unfold effect at 1. unfold ret at 1. cbn [fst snd].
      set (w1 := log INFO (MsgReadOk (doc_name p)) w).
      destruct (IH (fst acc ++ [doc_name p], snd acc ++ [p]) w1)
        as (good & w' & Hrb & HE & Hgood).
      exists (p :: good), w'. rewrite Hrb. cbn [fst snd map].
      rewrite <- !app_assoc. split; [reflexivity|].
      split; [apply E_trans with w1; [apply E_log|exact HE]|].
      intros q [<-|Hq] Hpre; [now left|right].
      apply Hgood; [exact Hq|]. eapply Pre_kept; [exact Hpre|apply E_log].
    + unfold bind at 1. unfold effect at 1. unfold ret at 1. cbn [fst snd].
      set (w1 := log ERROR (MsgReadFailed (doc_name p)) w).
      destruct (IH acc w1) as (good & w' & Hrb & HE & Hgood).
      exists good, w'. split; [exact Hrb|].
      split; [apply E_trans with w1; [apply E_log|exact HE]|].
      intros q [<-|Hq] Hpre.
      * destruct (Pre_can_read w p Hpre) as [Hfile Hfault].
        apply is_file_spec in Hfile. rewrite Hfile, Hfault in Et. discriminate.
      * apply Hgood; [exact Hq|]. eapply Pre_kept; [exact Hpre|apply E_log].
Qed.

Section Batches.
Variable path_list : list path.
Variable batch_size : Z.
Hypothesis backend_supported : backend o = "vlm-transformers"%string.

Lemma parse_batch_progress (idx : Z) (w : world) :
  fst (parse_batch env path_list out batch_size o idx w) = Ok tt /\
  forall p, In p (current_batch path_list batch_size idx) -> Pre w p ->
    Q (snd (parse_batch env path_list out batch_size o idx w)) p.
Proof.
  set (total := total_batches path_list batch_size).
  set (w1 := log INFO (MsgBatchStart (idx + 1) total) w).
  destruct (read_batch_progress (current_batch path_list batch_size idx) ([], []) w1)
    as (good & w2 & Hrb & HE2 & Hgood).
  cbn [fst snd app] in Hrb.
  assert (HE1 : E w w2) by (apply E_trans with w1; [apply E_log|exact HE2]).
  destruct good as [|b good'].
  - assert (Heq : parse_batch env path_list out batch_size o idx w
                  = (Ok tt, log WARNING (MsgBatchEmpty (idx + 1)) w2)).
    { unfold parse_batch, bind, effect. fold total. fold w1. rewrite Hrb.
      reflexivity. }
    rewrite Heq. split; [reflexivity|]. intros p Hp Hpre.
    destruct (Hgood p Hp). eapply Pre_kept; [exact Hpre|apply E_log].
  - destruct (do_parse_loop_progress (b :: good') [] w2) as [Hok Hserved].
    cbn [app length map] in Hok, Hserved.
    destruct (do_parse_loop env out o (doc_name b :: map doc_name good') 0 (b :: good') w2)
      as [[[]|e] w3] eqn:Eloop; cbn [fst snd] in *; [|discriminate].
    assert (Heq : parse_batch env path_list out batch_size o idx w
                  = (Ok tt,
                     if idx <? total - 1
                     then emit (Sleep 2)
                            (log INFO MsgWaitNextBatch (log INFO (MsgBatchDone (idx + 1)) w3))
                     else log INFO (MsgBatchDone (idx + 1)) w3)).
    { unfold parse_batch, bind, effect. fold total. fold w1. rewrite Hrb.
      cbn [fst snd map]. rewrite (do_parse_supported env o out backend_supported), Eloop.
      destruct (idx <? total - 1); reflexivity. }
    rewrite Heq. split; [reflexivity|]. cbn [snd].
    intros p Hp Hpre.
    assert (H3 : Q w3 p).
    { apply Hserved.
      - apply Hgood; [exact Hp|]. eapply Pre_kept; [exact Hpre|apply E_log].
      - eapply Pre_kept; eassumption. }
    eapply Q_kept; [exact H3|].
    destruct (idx <? total - 1); unfold log;
      repeat (eapply E_trans; [|apply E_emit]); apply E_refl.
Qed.

Lemma for_each_batch_progress (idxs : list Z) : forall w : world,
  fst (for_each idxs (parse_batch env path_list out batch_size o) w) = Ok tt /\
  forall idx p, In idx idxs -> In p (current_batch path_list batch_size idx) -> Pre w p ->
    Q (snd (for_each idxs (parse_batch env path_list out batch_size o) w)) p.
Proof.
  induction idxs as [|i idxs IH]; intros w.
  - cbn. split; [reflexivity|]. intros idx p [].
  - cbn [for_each].
    destruct (parse_batch_progress i w) as [Hok Hserved].
    pose proof (E_parse_batch path_list batch_size i w) as HE.
    unfold bind.
    destruct (parse_batch env path_list out batch_size o i w) as [[[]|e] w1];
      cbn [fst snd] in *; [|discriminate].
    destruct (IH w1) as [Hok' Hserved'].
    split; [exact Hok'|].
    intros idx p [<-|Hidx] Hp Hpre.
    + eapply Q_kept; [now apply Hserved|].
      apply (preserves_for_each E E_refl E_trans). intros j _.
      apply E_parse_batch.
    + apply Hserved' with (idx := idx); [exact Hidx|exact Hp|].
      eapply Pre_kept; eassumption.
Qed.

Lemma parse_doc_progress (w : world) (p : path) :
  0 < batch_size -> In p path_list -> Pre w p ->
  Q (snd (parse_doc env path_list out batch_size o w)) p.
Proof.
  intros HB Hp Hpre.
  assert (Hidx : exists idx, In idx (py_range (total_batches path_list batch_size)) /\
                             In p (current_batch path_list batch_size idx)).
  { rewrite <- (batches_concat path_list batch_size HB) in Hp.
    apply in_concat in Hp as (batch & Hb & Hp). unfold batches in Hb.
    apply in_map_iff in Hb as (idx & <- & Hidx). eauto. }
  destruct Hidx as (idx & Hidx & Hpb).
  destruct (for_each_batch_progress (py_range (total_batches path_list batch_size)) w)
    as [Hok Hserved].
  specialize (Hserved idx p Hidx Hpb Hpre).
  unfold parse_doc, try_catch, parse_doc_body.
  destruct (Z.eqb_spec batch_size 0) as [->|_]; [lia|].
  unfold bind at 1. unfold ret at 1. unfold bind at 1.
  destruct (for_each _ _ w) as [[[]|e] w1]; cbn [fst snd] in *; [|discriminate].
  unfold effect. cbn [snd].
  eapply Q_kept; [exact Hserved|apply E_log].
Qed.
End Batches.
End Progress.


(** * A document that can be read is converted, whatever the others do *)

Lemma extends_makedirs (p : path) (w : world) : extends w (with_fs (makedirs p) w).
Proof. apply extends_with_fs. intros fs q. apply makedirs_keeps. Qed.

Lemma extends_write (p : path) (w : world) : extends w (with_fs (write_file p) w).
Proof. apply extends_with_fs. intros fs q. apply write_file_keeps. Qed.

Lemma can_read_extends (env : collaborators) (w w' : world) (p : path) :
  can_read env w p -> extends w w' -> can_read env w' p.
Proof. intros [Hf Hr] [Hk _]. split; [now apply Hk|exact Hr]. Qed.

Lemma parse_doc_serves_readable (env : collaborators) (o : parse_options) (out : path)
    (path_list : list path) (batch_size : Z) (w : world) (p : path) :
  0 < batch_size ->
  backend o = "vlm-transformers"%string ->
  In p path_list ->
  can_read env w p ->
  item_served env o out w (snd (parse_doc env path_list out batch_size o w)) p.
Proof.
  intros HB Hbackend Hp Hread.
  apply (parse_doc_progress env o out extends
           (fun w' q => extends w w' /\ can_read env w' q)
           (fun w' q => item_served env o out w w' q)).
  - apply extends_refl.
  - apply extends_trans.
  - apply extends_emit.
  - intros name suffix w0. apply extends_makedirs.
  - intros name file w0. apply extends_write.
  - intros w1 w2 q [Hext Hq] H12. split.
    + eapply extends_trans; eassumption.
    + eapply can_read_extends; eassumption.
  - intros w1 q [_ Hq]. exact Hq.
  - intros w1 w2 q Hq H12. eapply item_served_extends; eassumption.
  - intros w1 q rank total [Hext _].
    set (w2 := log INFO (MsgParseItem rank total (doc_name q)) w1).
    assert (Hfw : extends w2
              (snd (try_catch (parse_item env out o (doc_name q) q)
                      (fun e => effect (log ERROR (MsgItemError (doc_name q) e))) w2))).
    { apply (forward_try_catch _ _ (forward_parse_item env out o (doc_name q) q)).
      intros e. apply forward_log. }
    split.
    + exists rank, total. eapply logged_since_start; [exact Hext|].
      eapply logged_since_extends; [apply logged_since_emit|exact Hfw].
    + intros Hf.
      destruct (parse_item_artifacts env out o (doc_name q) q w2 Hf) as (Hok & Hlog & Hart).
      unfold try_catch.
      destruct (parse_item env out o (doc_name q) q w2) as [[[]|e] w3];
        cbn [fst snd] in *; [|discriminate].
      split; [|exact Hart].
      eapply logged_since_start; [|exact Hlog].
      eapply extends_trans; [exact Hext|apply extends_emit].
  - exact Hbackend.
  - exact HB.
  - exact Hp.
  - split; [apply extends_refl|exact Hread].
Qed.



(** * A converted document is complete at the next scan *)

Lemma mkdir_exist_ok_file (p q : path) (fs : gmap path kind) :
  mkdir_exist_ok p fs !! q = Some KFile -> fs !! q = Some KFile.
Proof.
  unfold mkdir_exist_ok. destruct (fs !! p) eqn:Ep; [auto|].
  destruct (decide (p = q)) as [->|Hne].
  - rewrite lookup_insert_eq. discriminate.
  - now rewrite lookup_insert_ne.
Qed.

Lemma mkdir_exist_ok_made (p : path) (fs : gmap path kind) :
  fs !! p <> Some KFile -> mkdir_exist_ok p fs !! p = Some KDir.
Proof.
  intros Hp. unfold mkdir_exist_ok. destruct (fs !! p) as [[]|] eqn:Ep.
  - congruence.
  - exact Ep.
  - apply lookup_insert_eq.
Qed.

Lemma fold_mkdir_keeps (p q : path) (k : kind) (ns : list nat) :
  forall fs : gmap path kind,
  fs !! q = Some k ->
  fold_left (fun acc n => mkdir_exist_ok (firstn n p) acc) ns fs !! q = Some k.
Proof.
  induction ns as [|n ns IH]; intros fs Hq; [exact Hq|].
  cbn [fold_left]. apply IH. now apply mkdir_exist_ok_keeps.
Qed.

Lemma fold_mkdir_file (p q : path) (ns : list nat) :
  forall fs : gmap path kind,
  fold_left (fun acc n => mkdir_exist_ok (firstn n p) acc) ns fs !! q = Some KFile ->
  fs !! q = Some KFile.
Proof.
  induction ns as [|n ns IH]; intros fs Hq; [exact Hq|].
  cbn [fold_left] in Hq. apply IH in Hq. now apply mkdir_exist_ok_file in Hq.
Qed.

Lemma fold_mkdir_made (p : path) (n : nat) (ns : list nat) :
  forall fs : gmap path kind,
  In n ns -> fs !! firstn n p <> Some KFile ->
  fold_left (fun acc n => mkdir_exist_ok (firstn n p) acc) ns fs !! firstn n p = Some KDir.
Proof.
  induction ns as [|m ns IH]; intros fs Hin Hq; [destruct Hin|].
  cbn [fold_left]. destruct Hin as [->|Hin].
  - apply fold_mkdir_keeps. now apply mkdir_exist_ok_made.
  - apply IH; [exact Hin|]. intros Hf. apply Hq. now apply mkdir_exist_ok_file in Hf.
Qed.

(** [makedirs] makes no regular file. *)
Lemma makedirs_file (p q : path) (fs : gmap path kind) :
  makedirs p fs !! q = Some KFile -> fs !! q = Some KFile.
Proof. apply fold_mkdir_file. Qed.

(** After [makedirs], every prefix of the path that was not a regular file
    is a directory. *)
Lemma makedirs_made (p : path) (n : nat) (fs : gmap path kind) :
  (1 <= n <= length p)%nat -> fs !! firstn n p <> Some KFile ->
  makedirs p fs !! firstn n p = Some KDir.
Proof.
  intros Hn. apply fold_mkdir_made. apply in_seq. lia.
Qed.

Lemma list_ascii_of_string_app (a b : string) :
  list_ascii_of_string (a ++ b) = list_ascii_of_string a ++ list_ascii_of_string b.
Proof.
  induction a as [|c a IH]; [reflexivity|].
  change (c :: list_ascii_of_string (a ++ b)
          = c :: (list_ascii_of_string a ++ list_ascii_of_string b)).
  now rewrite IH.
Qed.

Lemma string_append_assoc (a b c : string) :
  (a ++ (b ++ c) = (a ++ b) ++ c)%string.
Proof.
  induction a as [|x a IH]; [reflexivity|].
  change (String x (a ++ (b ++ c)) = String x ((a ++ b) ++ c))%string.
  now rewrite IH.
Qed.

Lemma rfind_last (c : ascii) (e : list ascii) (a : list ascii) :
  rfind c e = None -> rfind c (a ++ c :: e) = Some (length a).
Proof.
  intros He. induction a as [|x a IH]; cbn [app rfind length].
  - rewrite He, Ascii.eqb_refl. reflexivity.
  - now rewrite IH.
Qed.

(** The suffix of a name that ends with a dot and an extension without
    dots, after a stem that is not empty. *)
Lemma path_suffix_ext (a e : string) :
  a <> ""%string -> e <> ""%string ->
  rfind "."%char (list_ascii_of_string e) = None ->
  path_suffix (a ++ String "."%char e) = String "."%char e.
Proof.
  intros Ha He Hr. unfold path_suffix, split_at_suffix.
  rewrite list_ascii_of_string_app. cbn [list_ascii_of_string].
  rewrite (rfind_last _ _ _ Hr).
  assert (Hla : (0 < length (list_ascii_of_string a))%nat)
    by (destruct a; [congruence|cbn; lia]).
  assert (Hle : (0 < length (list_ascii_of_string e))%nat)
    by (destruct e; [congruence|cbn; lia]).
  rewrite length_app. cbn [length].
  replace ((0 <? _)%nat && _) with true.
  - cbn [snd]. rewrite skipn_app, skipn_all, Nat.sub_diag. cbn [app skipn].
    change ("."%char :: list_ascii_of_string e)
      with (list_ascii_of_string (String "."%char e)).
    apply string_of_list_ascii_of_string.
  - symmetry. apply andb_true_iff. split; apply Nat.ltb_lt; lia.
Qed.

Lemma path_stem_nonempty (name : string) :
  name <> ""%string -> path_stem name <> ""%string.
Proof.
  intros Hn. unfold path_stem, split_at_suffix.
  assert (Hcs : forall cs, cs <> [] -> string_of_list_ascii cs <> ""%string)
    by (intros [|c cs] H; [congruence|discriminate]).
  assert (Hne : list_ascii_of_string name <> [])
    by (destruct name; [congruence|discriminate]).
  destruct (rfind _ _) as [i|]; [|now apply Hcs].
  destruct ((0 <? i)%nat && _) eqn:Ei; [|now apply Hcs].
  apply andb_true_iff in Ei as [Hi Hj]. apply Nat.ltb_lt in Hi, Hj.
  apply Hcs. cbn [fst]. intros H0. apply (f_equal (@length ascii)) in H0.
  rewrite firstn_length_le in H0 by lia. cbn in H0. lia.
Qed.

(** The artifacts whose suffix the scan of the driver looks for. *)
Lemma result_artifact (o : parse_options) (out : path) (name : string) :
  name <> ""%string ->
  f_dump_md o || f_dump_content_list o || f_dump_middle_json o || f_dump_model_output o
    = true ->
  exists entry : string,
    In ((out ++ [name; "vlm"%string]) ++ [entry]) (artifacts o out name) /\
    In (path_suffix entry) result_suffixes.
Proof.
  intros Hn Hflag.
  assert (Hcat : forall x : string, (name ++ x)%string <> ""%string).
  { intros x. destruct name; [congruence|discriminate]. }
  assert (Hsplit : forall stem ext : string,
            (name ++ (stem ++ String "."%char ext) = (name ++ stem) ++ String "."%char ext)%string)
    by (intros stem ext; apply string_append_assoc).
  unfold artifacts. cbn zeta.
  destruct (f_dump_md o) eqn:E1.
  { exists (name ++ ".md")%string. split.
    - apply in_or_app. right. apply in_or_app. right.
      apply in_or_app. left. now left.
    - rewrite (path_suffix_ext name "md") by first [apply Hcat | exact Hn | discriminate | reflexivity]. cbn. tauto. }
  destruct (f_dump_content_list o) eqn:E2.
  { exists (name ++ "_content_list.json")%string. split.
    - apply in_or_app. right. apply in_or_app. right.
      apply in_or_app. right. apply in_or_app. left. now left.
    - change "_content_list.json"%string with ("_content_list" ++ String "."%char "json")%string.
      rewrite Hsplit, path_suffix_ext by first [apply Hcat | exact Hn | discriminate | reflexivity]. cbn. tauto. }
  destruct (f_dump_middle_json o) eqn:E3.
  { exists (name ++ "_middle.json")%string. split.
    - apply in_or_app. right. apply in_or_app. right.
      apply in_or_app. right. apply in_or_app. right. apply in_or_app. left. now left.
    - change "_middle.json"%string with ("_middle" ++ String "."%char "json")%string.
      rewrite Hsplit, path_suffix_ext by first [apply Hcat | exact Hn | discriminate | reflexivity]. cbn. tauto. }
  destruct (f_dump_model_output o) eqn:E4; [|discriminate].
  exists (name ++ "_model_output.txt")%string. split.
  - repeat (apply in_or_app; right). now left.
  - change "_model_output.txt"%string with ("_model_output" ++ String "."%char "txt")%string.
    rewrite Hsplit, path_suffix_ext by first [apply Hcat | exact Hn | discriminate | reflexivity]. cbn. tauto.
Qed.

Lemma keeps_shallow_refl (depth : nat) (w : world) : keeps_shallow depth w w.
Proof. split; [apply extends_refl|auto]. Qed.

Lemma keeps_shallow_trans (depth : nat) (w1 w2 w3 : world) :
  keeps_shallow depth w1 w2 -> keeps_shallow depth w2 w3 -> keeps_shallow depth w1 w3.
Proof.
  intros [He1 H1] [He2 H2]. split; [eapply extends_trans; eassumption|].
  intros q Hq. destruct (H1 q Hq) as [Hd1 Hf1], (H2 q Hq) as [Hd2 Hf2]. split; auto.
Qed.

Lemma keeps_shallow_emit (depth : nat) (ev : event) (w : world) :
  keeps_shallow depth w (emit ev w).
Proof. split; [apply extends_emit|]. intros q _. cbn. auto. Qed.

Lemma keeps_shallow_makedirs (depth : nat) (p : path) (w : world) :
  keeps_shallow depth w (with_fs (makedirs p) w).
Proof.
  split; [apply extends_makedirs|]. intros q _. cbn [with_fs w_fs]. split.
  - apply makedirs_keeps.
  - apply makedirs_file.
Qed.

Lemma keeps_shallow_write (depth : nat) (p : path) (w : world) :
  (depth <= length p)%nat -> keeps_shallow depth w (with_fs (write_file p) w).
Proof.
  intros Hp. split; [apply extends_write|]. intros q Hq. cbn [with_fs w_fs].
  unfold write_file. rewrite lookup_insert_ne; [auto|].
  intros ->. lia.
Qed.

Lemma keeps_shallow_write_if (depth : nat) (flag : bool) (p : path) (w : world) :
  (depth <= length p)%nat -> keeps_shallow depth w (write_if flag p w).
Proof.
  intros Hp. destruct flag; [now apply keeps_shallow_write|apply keeps_shallow_refl].
Qed.

Lemma complete_kept (out p : path) (w w' : world) :
  complete (w_fs w) out p -> keeps_shallow (length out + 3) w w' ->
  complete (w_fs w') out p.
Proof.
  intros (Hd1 & Hd2 & entry & Hf & Hs) [[Hfiles _] Hk]. split; [|split].
  - apply Hk; [rewrite length_app; cbn; lia|exact Hd1].
  - apply Hk; [rewrite !length_app; cbn; lia|exact Hd2].
  - exists entry. split; [now apply Hfiles|exact Hs].
Qed.

(** The conversion of a document on which no collaborator fails leaves it
    complete, when no regular file stands where its directories go. *)
Lemma parse_item_complete (env : collaborators) (o : parse_options) (out p : path)
    (w : world) :
  item_fault env p = None ->
  doc_name p <> ""%string ->
  f_dump_md o || f_dump_content_list o || f_dump_middle_json o || f_dump_model_output o
    = true ->
  w_fs w !! (out ++ [doc_name p]) <> Some KFile ->
  w_fs w !! ((out ++ [doc_name p]) ++ ["vlm"%string]) <> Some KFile ->
  fst (parse_item env out o (doc_name p) p w) = Ok tt /\
  complete (w_fs (snd (parse_item env out o (doc_name p) p w))) out p.
Proof.
  intros Hfault Hname Hflag Hd1 Hd2.
  destruct (parse_item_artifacts env out o (doc_name p) p w Hfault) as (Hok & _ & Hart).
  split; [exact Hok|].
  destruct (result_artifact o out (doc_name p) Hname Hflag) as (entry & Hin & Hsuf).
  specialize (Hart _ Hin).
  rewrite (parse_item_ok env out o (doc_name p) p w Hfault) in Hart |- *.
  cbn zeta in Hart |- *. cbn [snd] in Hart |- *.
  set (d := out ++ [doc_name p; "vlm"%string]) in *.
  set (wA := with_fs (makedirs (d ++ ["images"%string])) w) in *.
  assert (Hd : d = (out ++ [doc_name p]) ++ ["vlm"%string])
    by (unfold d; now rewrite <- app_assoc).
  assert (Hlen : length d = (length out + 2)%nat)
    by (unfold d; rewrite length_app; cbn; lia).
  assert (HA1 : w_fs wA !! (out ++ [doc_name p]) = Some KDir).
  { unfold wA. cbn [with_fs w_fs].
    assert (Hpre : firstn (length out + 1) (d ++ ["images"%string]) = out ++ [doc_name p]).
    { unfold d. rewrite <- app_assoc. now rewrite firstn_app_2. }
    pose proof (makedirs_made (d ++ ["images"%string]) (length out + 1) (w_fs w)) as Hm.
    rewrite Hpre in Hm. apply Hm; [|exact Hd1].
    rewrite length_app. cbn. lia. }
  assert (HA2 : w_fs wA !! d = Some KDir).
  { unfold wA. cbn [with_fs w_fs].
    assert (Hpre : firstn (length d) (d ++ ["images"%string]) = d).
    { rewrite <- (Nat.add_0_r (length d)), firstn_app_2. cbn. apply app_nil_r. }
    pose proof (makedirs_made (d ++ ["images"%string]) (length d) (w_fs w)) as Hm.
    rewrite Hpre in Hm. apply Hm; [|rewrite Hd; exact Hd2].
    rewrite length_app. cbn. lia. }
  match goal with
  | |- complete (w_fs ?wF) _ _ =>
      assert (HE : keeps_shallow (length out + 3) wA wF)
  end.
  { unfold log.
    eapply keeps_shallow_trans; [|apply keeps_shallow_emit].
    repeat (eapply keeps_shallow_trans;
            [|apply keeps_shallow_write_if; rewrite length_app; cbn; lia]).
    apply keeps_shallow_makedirs. }
  destruct HE as [_ Hk].
  unfold complete. cbn zeta. fold (doc_name p). rewrite <- Hd.
  split; [|split].
  - apply Hk; [rewrite length_app; cbn; lia|exact HA1].
  - apply Hk; [lia|exact HA2].
  - exists entry. split; [exact Hart|exact Hsuf].
Qed.

Lemma keeps_shallow_parse_doc (env : collaborators) (o : parse_options) (out : path)
    (path_list : list path) (batch_size : Z) (w : world) :
  keeps_shallow (length out + 3) w (snd (parse_doc env path_list out batch_size o w)).
Proof.
  apply (preserves_pipeline (keeps_shallow (length out + 3))
           (keeps_shallow_refl _) (keeps_shallow_trans _) env o out).
  - intros lv m w0 _. apply keeps_shallow_emit.
  - intros w0. apply keeps_shallow_emit.
  - intros lv m w0 _. apply keeps_shallow_emit.
  - intros name suffix w0. apply keeps_shallow_makedirs.
  - intros name file w0. apply keeps_shallow_write. rewrite length_app. cbn. lia.
Qed.

Lemma parse_doc_completes (env : collaborators) (o : parse_options) (out : path)
    (path_list : list path) (batch_size : Z) (w : world) (p : path) :
  0 < batch_size ->
  backend o = "vlm-transformers"%string ->
  In p path_list ->
  can_read env w p ->
  item_fault env p = None ->
  path_name p <> ""%string ->
  f_dump_md o || f_dump_content_list o || f_dump_middle_json o || f_dump_model_output o
    = true ->
  w_fs w !! (out ++ [doc_name p]) <> Some KFile ->
  w_fs w !! (out ++ [doc_name p; "vlm"%string]) <> Some KFile ->
  complete (w_fs (snd (parse_doc env path_list out batch_size o w))) out p.
Proof.
  intros HB Hbackend Hp Hread Hfault Hname Hflag Hd1 Hd2.
  assert (Hdoc : doc_name p <> ""%string) by now apply path_stem_nonempty.
  apply (parse_doc_progress env o out (keeps_shallow (length out + 3))
           (fun w' q => q = p /\ can_read env w' p /\
                        w_fs w' !! (out ++ [doc_name p]) <> Some KFile /\
                        w_fs w' !! ((out ++ [doc_name p]) ++ ["vlm"%string]) <> Some KFile)
           (fun w' q => complete (w_fs w') out q)).
  - apply keeps_shallow_refl.
  - apply keeps_shallow_trans.
  - apply keeps_shallow_emit.
  - intros name suffix w0. apply keeps_shallow_makedirs.
  - intros name file w0. apply keeps_shallow_write. rewrite length_app. cbn. lia.
  - intros w1 w2 q (-> & Hr & H1 & H2) [Hext Hk]. split; [reflexivity|].
    split; [eapply can_read_extends; eassumption|]. split.
    + intros Hf. apply H1. apply (Hk (out ++ [doc_name p])); [|exact Hf].
      rewrite length_app. cbn. lia.
    + intros Hf. apply H2. apply (Hk ((out ++ [doc_name p]) ++ ["vlm"%string])); [|exact Hf].
      rewrite !length_app. cbn. lia.
  - intros w1 q (-> & Hr & _). exact Hr.
  - intros w1 w2 q Hq H12. eapply complete_kept; eassumption.
  - intros w1 q rank total (-> & _ & H1 & H2).
    destruct (parse_item_complete env o out p
                (log INFO (MsgParseItem rank total (doc_name p)) w1))
      as [Hok Hcomplete]; auto.
    unfold try_catch.
    destruct (parse_item env out o (doc_name p) p _) as [[[]|e] w3];
      cbn [fst snd] in *; [exact Hcomplete|discriminate].
  - exact Hbackend.
  - exact HB.
  - exact Hp.
  - split; [reflexivity|]. split; [exact Hread|]. split; [exact Hd1|].
    rewrite <- app_assoc. exact Hd2.
Qed.




(** * Calls of [parse_doc] that convert nothing *)

Lemma quiet_refl (allowed : event -> Prop) (w : world) : quiet allowed w w.
Proof. split; [reflexivity|]. exists []. now rewrite app_nil_r. Qed.

Lemma quiet_trans (allowed : event -> Prop) (w1 w2 w3 : world) :
  quiet allowed w1 w2 -> quiet allowed w2 w3 -> quiet allowed w1 w3.
Proof.
  intros [Hf1 (a1 & Ht1 & Ha1)] [Hf2 (a2 & Ht2 & Ha2)]. split; [congruence|].
  exists (a1 ++ a2). rewrite Ht2, Ht1, app_assoc. split; [reflexivity|].
  now apply Forall_app.
Qed.

Lemma quiet_emit (allowed : event -> Prop) (ev : event) (w : world) :
  allowed ev -> quiet allowed w (emit ev w).
Proof. intros H. split; [reflexivity|]. exists [ev]. split; [reflexivity|]. now constructor. Qed.

Lemma In_py_range (n idx : Z) : In idx (py_range n) -> 0 <= idx < n.
Proof.
  unfold py_range. intros H. apply in_map_iff in H as (k & <- & Hk).
  apply in_seq in Hk. lia.
Qed.

(** With a negative batch size the batch loop has a round only for a list
    of at most one document. *)
Lemma total_batches_negative (path_list : list path) (batch_size : Z) :
  batch_size < 0 -> 1 <= total_batches path_list batch_size -> len path_list <= 1.
Proof.
  unfold total_batches. intros HB Ht.
  pose proof (Z.div_mod (len path_list + batch_size - 1) batch_size ltac:(lia)) as Hdm.
  pose proof (Z.mod_neg_bound (len path_list + batch_size - 1) batch_size HB) as Hm.
  nia.
Qed.

(** With a negative batch size every batch is empty. *)
Lemma current_batch_negative (path_list : list path) (batch_size idx : Z) :
  batch_size < 0 -> In idx (py_range (total_batches path_list batch_size)) ->
  current_batch path_list batch_size idx = [].
Proof.
  intros HB Hidx. apply In_py_range in Hidx.
  pose proof (total_batches_negative path_list batch_size HB ltac:(lia)) as HN.
  unfold current_batch, py_slice. cbn zeta.
  assert (Hlen : 0 <= len path_list) by (unfold len; lia).
  assert (Hstop : Z.min (idx * batch_size + batch_size) (len path_list)
                  = idx * batch_size + batch_size) by (apply Z.min_l; nia).
  rewrite Hstop.
  assert (He : slice_bound (len path_list) (idx * batch_size + batch_size) = 0).
  { unfold slice_bound. destruct (Z.ltb_spec (idx * batch_size + batch_size) 0); nia. }
  assert (Hs : 0 <= slice_bound (len path_list) (idx * batch_size)).
  { unfold slice_bound. destruct (Z.ltb_spec (idx * batch_size) 0); lia. }
  rewrite He. replace (Z.to_nat (0 - _)) with 0%nat by lia. reflexivity.
Qed.

Lemma parse_doc_quiet_nonpositive (env : collaborators)
    (path_list : list path) (out : path) (batch_size : Z) (o : parse_options)
    (w : world) :
  batch_size <= 0 ->
  quiet batch_event w (snd (parse_doc env path_list out batch_size o w)).
Proof.
  intros HB.
  assert (Hlog : forall lv m w0, batch_message m -> quiet batch_event w0 (log lv m w0)).
  { intros lv m w0 Hm. apply quiet_emit. exact Hm. }
  apply (preserves_parse_doc_rounds (quiet batch_event)
           (quiet_refl batch_event) (quiet_trans batch_event) env o out Hlog).
  intros idx Hidx w0.
  assert (HB' : batch_size < 0).
  { destruct (Z.eq_dec batch_size 0) as [->|]; [|lia].
    apply In_py_range in Hidx. unfold total_batches in Hidx.
    rewrite Z.div_0_r in Hidx. lia. }
  unfold parse_batch. rewrite (current_batch_negative _ _ _ HB' Hidx).
  cbn [read_batch]. unfold bind, effect, ret. cbn [fst snd].
  eapply quiet_trans; apply Hlog; exact I.
Qed.

(** X8: a batch size of zero or below makes [parse_doc] convert nothing:
    it returns normally, the file system is as before, and it has only
    written log lines of its own; no conversion was started. *)
Theorem nonpositive_batch_size_converts_nothing (env : collaborators)
    (path_list : list path) (out : path) (batch_size : Z) (o : parse_options)
    (w : world) :
  batch_size <= 0 ->
  fst (parse_doc env path_list out batch_size o w) = Ok tt /\
  quiet batch_event w (snd (parse_doc env path_list out batch_size o w)).
Proof.
  intros HB. split; [apply parse_doc_returns|now apply parse_doc_quiet_nonpositive].
Qed.

Lemma nonpositive_batch_size_converts_nothing_witness :
  w_fs (snd (parse_doc sample_env [["in"; "2022-06-01_B"; "a.pdf"]%string]
               ["out"; "2022-06-01_B"]%string (-2) default_options sample_world))
  = w_fs sample_world.
Proof.
  destruct (nonpositive_batch_size_converts_nothing sample_env
              [["in"; "2022-06-01_B"; "a.pdf"]%string] ["out"; "2022-06-01_B"]%string
              (-2) default_options sample_world) as [_ [Hfs _]]; [lia|].
  exact Hfs.
Defined.

Lemma parse_doc_quiet_unsupported (env : collaborators)
    (path_list : list path) (out : path) (batch_size : Z) (o : parse_options)
    (w : world) :
  backend o <> "vlm-transformers"%string ->
  quiet refusal_event w (snd (parse_doc env path_list out batch_size o w)).
Proof.
  intros Hbackend.
  assert (Hlog : forall lv m w0, batch_message m -> quiet refusal_event w0 (log lv m w0)).
  { intros lv m w0 Hm. apply quiet_emit. destruct m; cbn in *; tauto. }
  apply (preserves_parse_doc (quiet refusal_event)
           (quiet_refl refusal_event) (quiet_trans refusal_event) env o out Hlog).
  - intros w0. apply quiet_emit. exact I.
  - intros names bytes w0. unfold do_parse.
    apply String.eqb_neq in Hbackend. rewrite Hbackend.
    apply quiet_emit. exact I.
Qed.

(** X9: with a backend other than "vlm-transformers", [parse_doc] converts
    nothing: it returns normally, the file system is as before, and the
    trace has only its own log lines, the pauses between batches and the
    refusals of [do_parse]. *)
Theorem unsupported_backend_converts_nothing (env : collaborators)
    (path_list : list path) (out : path) (batch_size : Z) (o : parse_options)
    (w : world) :
  backend o <> "vlm-transformers"%string ->
  fst (parse_doc env path_list out batch_size o w) = Ok tt /\
  quiet refusal_event w (snd (parse_doc env path_list out batch_size o w)).
Proof.
  intros Hb. split; [apply parse_doc_returns|now apply parse_doc_quiet_unsupported].
Qed.

Lemma unsupported_backend_converts_nothing_witness :
  exists o,
    bind_kwargs default_options [KwBackend "pipeline"] = Ok o /\
    w_fs (snd (parse_doc sample_env [["in"; "2022-06-01_B"; "a.pdf"]%string]
                 ["out"; "2022-06-01_B"]%string 5 o sample_world))
    = w_fs sample_world.
Proof.
  eexists. split; [reflexivity|].
  match goal with
  | |- w_fs (snd (parse_doc _ _ _ _ ?o _)) = _ =>
      destruct (unsupported_backend_converts_nothing sample_env
                  [["in"; "2022-06-01_B"; "a.pdf"]%string] ["out"; "2022-06-01_B"]%string
                  5 o sample_world) as [_ [Hfs _]]
  end.
  - cbn. discriminate.
  - exact Hfs.
Defined.

(** * Documents counted as processed that were not converted *)


(** * What the driver finds *)

Lemma NoDup_omap_inj {A B : Type} (f : A -> option B) (l : list A) :
  List.NoDup l ->
  (forall x y z, In x l -> In y l -> f x = Some z -> f y = Some z -> x = y) ->
  List.NoDup (omap f l).
Proof.
  induction 1 as [|a l Ha Hl IH]; intros Hinj; [constructor|].
  assert (IH' : List.NoDup (omap f l)).
  { apply IH. intros x y z Hx Hy. apply Hinj; now right. }
  change (omap f (a :: l))
    with (match f a with Some y => y :: omap f l | None => omap f l end).
  destruct (f a) as [b|] eqn:Efa; [|exact IH'].
  constructor; [|exact IH'].
  intros Hin. apply list_elem_of_In, list_elem_of_omap in Hin as (x & Hx & Hfx).
  apply list_elem_of_In in Hx.
  assert (a = x) by (apply (Hinj a x b); [now left|now right|exact Efa|exact Hfx]).
  subst x. now apply Ha.
Qed.

(** A directory lists each of its entries once. *)
Lemma NoDup_iterdir (fs : gmap path kind) (dir : path) : List.NoDup (iterdir fs dir).
Proof.
  unfold iterdir. apply NoDup_omap_inj; [apply NoDup_ListNoDup, NoDup_map_to_list|].
  intros [p1 k1] [p2 k2] name H1 H2 Hn1 Hn2. cbn in Hn1, Hn2.
  apply entry_name_Some in Hn1, Hn2. subst p1 p2.
  apply list_elem_of_In, elem_of_map_to_list in H1, H2.
  f_equal. congruence.
Qed.

Lemma NoDup_children (dir : path) (names : list string) :
  List.NoDup names -> List.NoDup (map (fun n => dir ++ [n]) names).
Proof.
  induction 1 as [|n names Hn Hl IH]; cbn [map]; constructor; [|exact IH].
  intros Hin. apply in_map_iff in Hin as (m & Hm & Hin).
  apply app_inv_head in Hm. injection Hm as ->. now apply Hn.
Qed.

Lemma string_of_list_ascii_app (a b : list ascii) :
  string_of_list_ascii (a ++ b)
  = (string_of_list_ascii a ++ string_of_list_ascii b)%string.
Proof.
  induction a as [|c a IH]; [reflexivity|].
  change (String c (string_of_list_ascii (a ++ b))
          = String c (string_of_list_ascii a ++ string_of_list_ascii b)%string).
  now rewrite IH.
Qed.

(** The pattern [*.pdf] matches the names that end with ".pdf". *)
Lemma glob_pdf_match_spec (name : string) :
  glob_pdf_match name = true <-> exists stem : string, name = (stem ++ ".pdf")%string.
Proof.
  unfold glob_pdf_match. cbn zeta. rewrite bool_decide_eq_true. split.
  - intros H. set (cs := list_ascii_of_string name) in *.
    exists (string_of_list_ascii (firstn (length cs - 4) cs)).
    rewrite <- (string_of_list_ascii_of_string name). fold cs.
    rewrite <- (firstn_skipn (length cs - 4) cs) at 1.
    rewrite string_of_list_ascii_app, H. reflexivity.
  - intros [stem ->]. rewrite list_ascii_of_string_app, length_app.
    change (length (list_ascii_of_string ".pdf")) with 4%nat.
    replace (length (list_ascii_of_string stem) + 4 - 4)%nat
      with (length (list_ascii_of_string stem) + 0)%nat by lia.
    now rewrite skipn_app, skipn_all2, Nat.add_comm, Nat.add_sub by lia.
Qed.

Lemma glob_pdf_In (fs : gmap path kind) (subfolder p : path) :
  In p (glob_pdf fs subfolder) <->
  exists name, p = subfolder ++ [name] /\ glob_pdf_match name = true /\ is_Some (fs !! p).
Proof.
  unfold glob_pdf. rewrite in_map_iff. split.
  - intros (name & <- & Hin). apply filter_In in Hin as [Hin Hm].
    apply iterdir_spec in Hin. eauto.
  - intros (name & -> & Hm & Hs). exists name. split; [reflexivity|].
    apply filter_In. split; [now apply iterdir_spec|exact Hm].
Qed.

(** X11: the documents of a folder are the entries directly in it whose
    name ends with ".pdf", each one once; the kind of the entry is not
    looked at, so a directory of such a name is among them. *)
Theorem glob_pdf_spec (fs : gmap path kind) (subfolder : path) :
  (forall p, In p (glob_pdf fs subfolder) <->
     exists stem : string,
       p = subfolder ++ [(stem ++ ".pdf")%string] /\ is_Some (fs !! p)) /\
  List.NoDup (glob_pdf fs subfolder).
Proof.
  split.
  - intros p. rewrite glob_pdf_In. split.
    + intros (name & -> & Hm & Hs). apply glob_pdf_match_spec in Hm as [stem ->]. eauto.
    + intros (stem & -> & Hs). exists (stem ++ ".pdf")%string.
      split; [reflexivity|]. split; [|exact Hs]. apply glob_pdf_match_spec. eauto.
  - unfold glob_pdf. apply NoDup_children. apply List.NoDup_filter, NoDup_iterdir.
Qed.

Lemma discover_Some (output_path input_path : path) (w : world)
    (sorted : list path) (w' : world) :
  discover output_path input_path w = (Some sorted, w') ->
  let fs0 := makedirs output_path (w_fs w) in
  w_fs w' = fs0 /\
  sorted = sort_folders_by_date_desc
             (List.filter (is_dir fs0)
                (map (fun n => input_path ++ [n]) (iterdir fs0 input_path))).
Proof.
  unfold discover. cbn zeta.
  destruct (negb (exists_ (w_fs w) input_path)); [discriminate|].
  cbn [with_fs w_fs].
  destruct (List.filter _ _) as [|s0 subs]; [discriminate|].
  intros [= <- <-]. split; reflexivity.
Qed.

Lemma discover_In (output_path input_path : path) (w : world)
    (sorted : list path) (w' : world) (f : path) :
  discover output_path input_path w = (Some sorted, w') ->
  In f sorted <->
  exists name, f = input_path ++ [name] /\
               makedirs output_path (w_fs w) !! f = Some KDir.
Proof.
  intros Hd. apply discover_Some in Hd as [_ ->].
  rewrite sort_folders_is_sort_desc.
  rewrite <- (Permutation_in' (eq_refl f) (sort_desc_perm folder_date _)).
  rewrite filter_In, in_map_iff, is_dir_spec. split.
  - intros [(name & <- & _) Hdir]. eauto.
  - intros (name & -> & Hdir). split; [|exact Hdir].
    exists name. split; [reflexivity|]. apply iterdir_spec. eauto.
Qed.

(** X12: the folders that a run goes through are the directories directly
    in the input root, as the file system is once the output root has been
    created: each one once, in descending order of their dates.  Regular
    files in the input root are left out. *)
Theorem discover_folders (output_path input_path : path) (w : world)
    (sorted : list path) (w' : world) :
  discover output_path input_path w = (Some sorted, w') ->
  let fs0 := makedirs output_path (w_fs w) in
  w_fs w' = fs0 /\
  (forall f, In f sorted <->
     exists name, f = input_path ++ [name] /\ fs0 !! f = Some KDir) /\
  List.NoDup sorted /\
  sorted_desc folder_date sorted.
Proof.
  intros Hd. cbn zeta. split; [apply (discover_Some _ _ _ _ _ Hd)|].
  split; [intros f; apply (discover_In _ _ _ _ _ f Hd)|].
  apply discover_Some in Hd as [_ ->]. rewrite sort_folders_is_sort_desc. split.
  - eapply Permutation_NoDup; [apply sort_desc_perm|].
    apply List.NoDup_filter, NoDup_children, NoDup_iterdir.
  - apply sort_desc_sorted.
Qed.

Lemma discover_folders_witness :
  exists sorted w',
    discover ["out"%string] ["in"%string] sample_world = (Some sorted, w') /\
    List.NoDup sorted.
Proof.
  destruct (discover ["out"%string] ["in"%string] sample_world) as [osorted w'] eqn:Hd.
  assert (Hs : fst (discover ["out"%string] ["in"%string] sample_world) <> None)
    by (vm_compute; discriminate).
  rewrite Hd in Hs. cbn [fst] in Hs. destruct osorted as [sorted|]; [|now destruct Hs].
  exists sorted, w'. split; [reflexivity|].
  apply (discover_folders _ _ _ _ _ Hd).
Defined.

Lemma discover_finds (output_path input_path : path) (name : string) (w : world) :
  is_Some (w_fs w !! input_path) ->
  makedirs output_path (w_fs w) !! (input_path ++ [name]) = Some KDir ->
  exists sorted n,
    discover output_path input_path w
      = (Some sorted, log INFO (MsgFoundSubfolders n) (with_fs (makedirs output_path) w)) /\
    In (input_path ++ [name]) sorted.
Proof.
  intros Hin Hdir.
  assert (Hmem : In (input_path ++ [name])
                   (List.filter (is_dir (makedirs output_path (w_fs w)))
                      (map (fun n => input_path ++ [n])
                         (iterdir (makedirs output_path (w_fs w)) input_path)))).
  { apply filter_In. split; [|now apply is_dir_spec].
    apply in_map_iff. exists name. split; [reflexivity|]. apply iterdir_spec. eauto. }
  unfold discover.
  assert (He : exists_ (w_fs w) input_path = true) by now apply bool_decide_eq_true.
  rewrite He. cbn [negb with_fs w_fs] in *.
  destruct (List.filter _ _) as [|s0 subs] eqn:Ef; [destruct Hmem|].
  eexists _, _. split; [reflexivity|].
  rewrite sort_folders_is_sort_desc.
  apply (Permutation_in _ (sort_desc_perm folder_date _)). exact Hmem.
Qed.

(** * A run only adds *)

Lemma extends_mkdir (p : path) (w : world) : extends w (with_fs (mkdir_exist_ok p) w).
Proof. apply extends_with_fs. intros fs q. apply mkdir_exist_ok_keeps. Qed.

Lemma call_parse_doc_extends (env : collaborators) (out : path)
    (path_list : list path) (batch_size : Z) (parsing_config : list kwarg) (w : world) :
  extends w (snd (call_parse_doc env path_list out batch_size parsing_config w)).
Proof.
  unfold call_parse_doc.
  destruct (bind_kwargs default_options parsing_config) as [o|e];
    [apply forward_parse_doc|apply extends_refl].
Qed.

(** X14: a run only adds: every regular file that was there is a regular
    file at the end, and the trace has only grown at its end. *)
Theorem process_folder_structure_extends (env : collaborators) (output_path : path)
    (batch_size : Z) (parsing_config : list kwarg) (input_path : path) (w : world) :
  extends w
    (snd (process_folder_structure (call_parse_doc env) output_path batch_size
            parsing_config input_path w)).
Proof.
  apply (process_folder_structure_keeps extends).
  - apply extends_refl.
  - apply extends_trans.
  - apply extends_emit.
  - intros w0. apply extends_makedirs.
  - intros name w0. apply extends_mkdir.
  - intros docs name w0. apply call_parse_doc_extends.
Qed.

(** * After a run, the documents that could be converted are complete *)

Lemma keeps_shallow_mkdir (depth : nat) (p : path) (w : world) :
  keeps_shallow depth w (with_fs (mkdir_exist_ok p) w).
Proof.
  split; [apply extends_mkdir|]. intros q _. cbn [with_fs w_fs]. split.
  - apply mkdir_exist_ok_keeps.
  - apply mkdir_exist_ok_file.
Qed.

Lemma convertible_kept (env : collaborators) (output_path : path) (w w' : world)
    (subfolder p : path) :
  convertible env output_path w subfolder p ->
  keeps_shallow (length output_path + 4) w w' ->
  convertible env output_path w' subfolder p.
Proof.
  intros (Hname & Hread & Hfault & H1 & H2) [Hext Hk].
  split; [exact Hname|]. split; [eapply can_read_extends; eassumption|].
  split; [exact Hfault|]. split.
  - intros Hf. apply H1. apply (Hk _); [|exact Hf]. rewrite length_app. cbn. lia.
  - intros Hf. apply H2. apply (Hk _); [|exact Hf]. rewrite length_app. cbn. lia.
Qed.

Lemma path_name_child (dir : path) (name : string) : path_name (dir ++ [name]) = name.
Proof. unfold path_name. apply last_last. Qed.

Section RunResume.
Variable env : collaborators.
Variable output_path : path.
Variable batch_size : Z.
Variable parsing_config : list kwarg.
Variable o : parse_options.
Hypothesis config_bound : bind_kwargs default_options parsing_config = Ok o.
Hypothesis batch_size_positive : 0 < batch_size.
Hypothesis backend_supported : backend o = "vlm-transformers"%string.
Hypothesis result_asked :
  f_dump_md o || f_dump_content_list o || f_dump_middle_json o || f_dump_model_output o
    = true.

Lemma call_keeps_shallow (docs : list path) (name : string) (w : world) :
  keeps_shallow (length output_path + 4) w
    (snd (call_parse_doc env docs (output_path ++ [name]) batch_size parsing_config w)).
Proof.
  rewrite (call_parse_doc_bound env parsing_config o docs _ batch_size config_bound).
  replace (length output_path + 4)%nat with (length (output_path ++ [name]) + 3)%nat
    by (rewrite length_app; cbn; lia).
  apply keeps_shallow_parse_doc.
Qed.

Lemma complete_kept_run (name : string) (p : path) (w w' : world) :
  complete (w_fs w) (output_path ++ [name]) p ->
  keeps_shallow (length output_path + 4) w w' ->
  complete (w_fs w') (output_path ++ [name]) p.
Proof.
  intros Hc Hk. apply (complete_kept _ _ w w' Hc).
  replace (length (output_path ++ [name]) + 3)%nat with (length output_path + 4)%nat
    by (rewrite length_app; cbn; lia).
  exact Hk.
Qed.

Lemma iteration_keeps_shallow (n_folders folder_idx : nat) (subfolder : path)
    (st : RunStatistics) (w : world) :
  keeps_shallow (length output_path + 4) w
    (snd (folder_iteration (call_parse_doc env) output_path batch_size parsing_config
            n_folders folder_idx subfolder (st, w))).
Proof.
  apply (folder_iteration_keeps (keeps_shallow (length output_path + 4))).
  - apply keeps_shallow_refl.
  - apply keeps_shallow_trans.
  - apply keeps_shallow_emit.
  - intros name w0. apply keeps_shallow_mkdir.
  - intros docs name w0. apply call_keeps_shallow.
Qed.

Lemma loop_keeps_shallow (n_folders : nat) (folders : list path) (folder_idx : nat)
    (st : RunStatistics) (w : world) :
  keeps_shallow (length output_path + 4) w
    (snd (process_folders (call_parse_doc env) output_path batch_size parsing_config
            n_folders folder_idx folders (st, w))).
Proof.
  apply (process_folders_keeps (keeps_shallow (length output_path + 4))).
  - apply keeps_shallow_refl.
  - apply keeps_shallow_trans.
  - apply keeps_shallow_emit.
  - intros name w0. apply keeps_shallow_mkdir.
  - intros docs name w0. apply call_keeps_shallow.
Qed.

(** The round of a folder leaves its convertible documents complete. *)
Lemma iteration_completes (n_folders folder_idx : nat) (subfolder p : path)
    (st : RunStatistics) (w : world) :
  convertible env output_path w subfolder p ->
  complete
    (w_fs (snd (folder_iteration (call_parse_doc env) output_path batch_size
                  parsing_config n_folders folder_idx subfolder (st, w))))
    (output_path ++ [path_name subfolder]) p.
Proof.
  intros Hconv. unfold folder_iteration.
  destruct (scan_folder_cases output_path n_folders folder_idx subfolder w)
    as (lines & _ & Hscan). cbn zeta in Hscan. rewrite Hscan. clear Hscan.
  set (out := output_path ++ [path_name subfolder]).
  set (fs1 := mkdir_exist_ok out (w_fs w)).
  set (w1 := mk_world fs1 (w_trace w ++ lines)).
  assert (H1 : keeps_shallow (length output_path + 4) w w1).
  { eapply keeps_shallow_trans; [apply (keeps_shallow_mkdir _ out)|].
    exact (keeps_lines (keeps_shallow (length output_path + 4))
             (keeps_shallow_refl _) (keeps_shallow_trans _) (keeps_shallow_emit _)
             lines (with_fs (mkdir_exist_ok out) w)). }
  apply (convertible_kept _ _ _ _ _ _ Hconv) in H1 as Hconv1.
  destruct Hconv1 as ([stem Hp] & Hread & Hfault & Hd1 & Hd2).
  assert (Hglob : In p (glob_pdf fs1 subfolder)).
  { apply glob_pdf_In. exists (stem ++ ".pdf")%string. split; [exact Hp|].
    split; [apply glob_pdf_match_spec; eauto|].
    destruct Hread as [Hfile _]. cbn [w1 w_fs] in Hfile. eauto. }
  assert (Hname : path_name p <> ""%string).
  { rewrite Hp, path_name_child. destruct stem; discriminate. }
  destruct (glob_pdf fs1 subfolder) as [|p0 pdfs] eqn:Eglob; [destruct Hglob|].
  destruct (List.filter (fun q => negb (is_complete fs1 out q)) (p0 :: pdfs))
    as [|f0 filtered] eqn:Efilt.
  - cbn [snd]. change (w_fs w1) with fs1. apply is_complete_spec.
    destruct (is_complete fs1 out p) eqn:Ec; [reflexivity|].
    assert (Hin : In p (List.filter (fun q => negb (is_complete fs1 out q)) (p0 :: pdfs)))
      by (apply filter_In; split; [exact Hglob|now rewrite Ec]).
    rewrite Efilt in Hin. destruct Hin.
  - unfold dispatch_folder.
    assert (Hc : complete
                   (w_fs (snd (call_parse_doc env (f0 :: filtered) out batch_size
                                 parsing_config w1))) out p).
    { destruct (is_complete fs1 out p) eqn:Ec.
      - apply is_complete_spec in Ec.
        apply (complete_kept_run (path_name subfolder) p w1); [exact Ec|].
        apply call_keeps_shallow.
      - rewrite (call_parse_doc_bound env parsing_config o _ _ batch_size config_bound).
        apply parse_doc_completes; auto.
        + rewrite <- Efilt. apply filter_In. split; [exact Hglob|now rewrite Ec].
        + unfold out. rewrite <- app_assoc. exact Hd1.
        + unfold out. rewrite <- app_assoc. exact Hd2. }
    destruct (call_parse_doc env (f0 :: filtered) out batch_size parsing_config w1)
      as [[[]|e] w2]; cbn [snd] in *.
    + destruct (Z.of_nat folder_idx <? Z.of_nat n_folders - 1); exact Hc.
    + exact Hc.
Qed.

Lemma loop_completes (n_folders : nat) (subfolder p : path) (folders : list path) :
  forall (folder_idx : nat) (st : RunStatistics) (w : world),
  In subfolder folders ->
  convertible env output_path w subfolder p ->
  complete
    (w_fs (snd (process_folders (call_parse_doc env) output_path batch_size
                  parsing_config n_folders folder_idx folders (st, w))))
    (output_path ++ [path_name subfolder]) p.
Proof.
  induction folders as [|g folders IH]; intros folder_idx st w Hin Hconv; [destruct Hin|].
  cbn [process_folders].
  pose proof (iteration_keeps_shallow n_folders folder_idx g st w) as Hk.
  pose proof (iteration_completes n_folders folder_idx g p st w) as Hc.
  destruct (folder_iteration _ _ _ _ _ _ _ _) as [st1 w1]. cbn [snd] in Hk, Hc.
  destruct Hin as [->|Hrest].
  - apply (complete_kept_run (path_name subfolder) p w1); [now apply Hc|].
    apply loop_keeps_shallow.
  - apply IH; [exact Hrest|]. eapply convertible_kept; eassumption.
Qed.
End RunResume.


(** * A conversion that fails *)

(** The conversion of a document stops at the step that raises. *)
Lemma parse_item_fault (env : collaborators) (out : path) (o : parse_options)
    (name : string) (b : path) (s : stage) (w : world) :
  item_fault env b = Some s -> stage_enabled o s = true ->
  parse_item env out o name b w = (Raise CollaboratorError, after_fault o out name s w).
Proof.
  intros Hf He. unfold parse_item, collaborator, after_fault. rewrite Hf.
  destruct s; cbn [stage_enabled stage_rank] in He |- *;
    destruct ((0 <? start_page_id o) || bool_decide (is_Some (end_page_id o)));
    destruct (f_draw_layout_bbox o), (f_dump_orig_pdf o), (f_dump_md o),
      (f_dump_content_list o), (f_dump_middle_json o), (f_dump_model_output o);
    try discriminate He; reflexivity.
Qed.

Lemma artifact_suffix (name stem ext : string) :
  (name ++ stem)%string <> ""%string -> ext <> ""%string ->
  rfind "."%char (list_ascii_of_string ext) = None ->
  path_suffix (name ++ (stem ++ String "."%char ext)) = String "."%char ext.
Proof.
  intros Hn He Hr. rewrite string_append_assoc. now apply path_suffix_ext.
Qed.

Lemma append_nonempty_r (name stem : string) :
  stem <> ""%string -> (name ++ stem)%string <> ""%string.
Proof. intros Hs. destruct name; [exact Hs|discriminate]. Qed.

Lemma append_nonempty_l (name stem : string) :
  name <> ""%string -> (name ++ stem)%string <> ""%string.
Proof. intros Hn. destruct name; [congruence|discriminate]. Qed.

(** The directories of a document after [prepare_env], when no regular
    file stood in their place. *)
Lemma prepared_dirs (out : path) (name : string) (w : world) :
  w_fs w !! (out ++ [name]) <> Some KFile ->
  w_fs w !! (out ++ [name; "vlm"%string]) <> Some KFile ->
  let d := out ++ [name; "vlm"%string] in
  let wA := with_fs (makedirs (d ++ ["images"%string])) w in
  w_fs wA !! (out ++ [name]) = Some KDir /\ w_fs wA !! d = Some KDir.
Proof.
  intros Hd1 Hd2. cbn zeta. cbn [with_fs w_fs].
  set (d := out ++ [name; "vlm"%string]) in *.
  assert (Hlen : length d = (length out + 2)%nat)
    by (unfold d; rewrite length_app; cbn; lia).
  split.
  - assert (Hpre : firstn (length out + 1) (d ++ ["images"%string]) = out ++ [name]).
    { unfold d. rewrite <- app_assoc. now rewrite firstn_app_2. }
    pose proof (makedirs_made (d ++ ["images"%string]) (length out + 1) (w_fs w)) as Hm.
    rewrite Hpre in Hm. apply Hm; [|exact Hd1].
    rewrite length_app. cbn. lia.
  - assert (Hpre : firstn (length d) (d ++ ["images"%string]) = d).
    { rewrite <- (Nat.add_0_r (length d)), firstn_app_2. cbn. apply app_nil_r. }
    pose proof (makedirs_made (d ++ ["images"%string]) (length d) (w_fs w)) as Hm.
    rewrite Hpre in Hm. apply Hm; [|exact Hd2].
    rewrite length_app. cbn. lia.
Qed.

Lemma after_fault_keeps_shallow (o : parse_options) (out : path) (name : string)
    (s : stage) (w : world) :
  keeps_shallow (length out + 3) w (after_fault o out name s w).
Proof.
  unfold after_fault. cbn zeta.
  destruct (stage_rank s <? 2)%nat; [apply keeps_shallow_refl|].
  repeat (eapply keeps_shallow_trans;
          [|apply keeps_shallow_write_if; rewrite !length_app; cbn; lia]).
  eapply keeps_shallow_trans; apply keeps_shallow_makedirs.
Qed.

(** A conversion that fails after a result file was written leaves the
    document complete. *)
Lemma after_late_fault_complete (o : parse_options) (out p : path) (s r : stage)
    (w : world) :
  is_result_stage r = true -> stage_enabled o r = true ->
  (stage_rank r < stage_rank s)%nat ->
  doc_name p <> ""%string ->
  w_fs w !! (out ++ [doc_name p]) <> Some KFile ->
  w_fs w !! (out ++ [doc_name p; "vlm"%string]) <> Some KFile ->
  complete (w_fs (after_fault o out (doc_name p) s w)) out p.
Proof.
  intros Hres Hen Hrank Hname Hd1 Hd2.
  destruct (prepared_dirs out (doc_name p) w Hd1 Hd2) as [HA1 HA2].
  unfold after_fault. cbn zeta.
  assert (Hs : (stage_rank s <? 2)%nat = false).
  { apply Nat.ltb_ge. destruct r; try discriminate Hres; cbn in Hrank; lia. }
  rewrite Hs.
  set (d := out ++ [doc_name p; "vlm"%string]) in *.
  set (wA := with_fs (makedirs (d ++ ["images"%string])) w) in *.
  assert (Hd : d = (out ++ [doc_name p]) ++ ["vlm"%string])
    by (unfold d; now rewrite <- app_assoc).
  match goal with
  | |- complete (w_fs ?wF) _ _ =>
      assert (HE : keeps_shallow (length out + 3) wA wF)
  end.
  { repeat (eapply keeps_shallow_trans;
            [|apply keeps_shallow_write_if; unfold d; rewrite !length_app; cbn; lia]).
    apply keeps_shallow_makedirs. }
  destruct HE as [_ Hk].
  unfold complete. cbn zeta. fold (doc_name p). rewrite <- Hd.
  split; [|split].
  - apply Hk; [rewrite length_app; cbn; lia|exact HA1].
  - apply Hk; [unfold d; rewrite length_app; cbn; lia|exact HA2].
  - apply Nat.ltb_lt in Hrank.
    cbn beta. destruct r; try discriminate Hres.
    + exists (doc_name p ++ ".md")%string. split.
      * rewrite Hen, Hrank. repeat first [apply write_if_written | apply write_if_keeps].
      * rewrite (path_suffix_ext (doc_name p) "md")
          by first [exact Hname | discriminate | reflexivity].
        cbn. tauto.
    + exists (doc_name p ++ "_content_list.json")%string. split.
      * rewrite Hen, Hrank. repeat first [apply write_if_written | apply write_if_keeps].
      * change "_content_list.json"%string
          with ("_content_list" ++ String "."%char "json")%string.
        rewrite artifact_suffix
          by first [apply append_nonempty_l, Hname | discriminate | reflexivity].
        cbn. tauto.
    + exists (doc_name p ++ "_middle.json")%string. split.
      * rewrite Hen, Hrank. repeat first [apply write_if_written | apply write_if_keeps].
      * change "_middle.json"%string with ("_middle" ++ String "."%char "json")%string.
        rewrite artifact_suffix
          by first [apply append_nonempty_l, Hname | discriminate | reflexivity].
        cbn. tauto.
    + apply Nat.ltb_lt in Hrank. destruct s; cbn in Hrank; lia.
Qed.



Lemma write_if_file_inv (flag : bool) (q x : path) (w : world) :
  w_fs (write_if flag q w) !! x = Some KFile -> x = q \/ w_fs w !! x = Some KFile.
Proof.
  destruct flag; cbn; [|auto]. unfold write_file.
  destruct (decide (q = x)) as [->|Hne]; [auto|].
  rewrite lookup_insert_ne by exact Hne. auto.
Qed.

(** X17: a conversion that fails before any result file is written adds
    none: when the step that raises comes no later than every enabled step
    with a result file, and the directory of the document held no result
    file, the document is not complete afterwards, so the next run parses
    it again. *)
Theorem early_fault_leaves_incomplete (env : collaborators) (o : parse_options)
    (out p : path) (s : stage) (w : world) :
  item_fault env p = Some s ->
  stage_enabled o s = true ->
  (forall r, is_result_stage r = true -> stage_enabled o r = true ->
     (stage_rank s <= stage_rank r)%nat) ->
  (forall entry : string,
     w_fs w !! (out ++ [doc_name p; "vlm"%string; entry]) = Some KFile ->
     ~ In (path_suffix entry) result_suffixes) ->
  fst (parse_item env out o (doc_name p) p w) = Raise CollaboratorError /\
  ~ complete (w_fs (snd (parse_item env out o (doc_name p) p w))) out p.
Proof.
  intros Hfault Hs Hearly Hnone.
  rewrite (parse_item_fault env out o (doc_name p) p s w Hfault Hs). cbn [fst snd].
  split; [reflexivity|].
  intros (_ & _ & entry & Hfile & Hsuf). fold (doc_name p) in Hfile.
  apply (Hnone entry); [|exact Hsuf].
  repeat (rewrite <- app_assoc in Hfile; cbn [app] in Hfile).
  assert (Hdone : forall r, is_result_stage r = true ->
            stage_enabled o r && (stage_rank r <? stage_rank s)%nat = false).
  { intros r Hr. destruct (stage_enabled o r) eqn:Er; [|reflexivity].
    cbn. apply Nat.ltb_ge. now apply Hearly. }
  unfold after_fault in Hfile. cbn zeta in Hfile.
  destruct (stage_rank s <? 2)%nat; [exact Hfile|].
  rewrite !Hdone in Hfile by reflexivity.
  cbn [write_if] in Hfile.
  assert (Hpdf : forall stem : string,
            path_suffix (doc_name p ++ (stem ++ String "."%char "pdf")) = ".pdf"%string ->
            In (path_suffix (doc_name p ++ (stem ++ String "."%char "pdf"))) result_suffixes ->
            False).
  { intros stem -> Hin. cbn in Hin. intuition discriminate. }
  assert (Hentry : forall stem : string, stem <> ""%string ->
            entry = (doc_name p ++ (stem ++ String "."%char "pdf"))%string -> False).
  { intros stem Hstem ->. apply (Hpdf stem); [|exact Hsuf].
    apply artifact_suffix; [now apply append_nonempty_r|discriminate|reflexivity]. }
  apply write_if_file_inv in Hfile as [Heq|Hfile].
  { rewrite <- app_assoc in Heq. apply app_inv_head in Heq. injection Heq as Heq.
    destruct (Hentry "_origin"%string ltac:(discriminate) Heq). }
  apply write_if_file_inv in Hfile as [Heq|Hfile].
  { rewrite <- app_assoc in Heq. apply app_inv_head in Heq. injection Heq as Heq.
    destruct (Hentry "_layout"%string ltac:(discriminate) Heq). }
  cbn [with_fs w_fs] in Hfile.
  apply makedirs_file, makedirs_file in Hfile.
  repeat (rewrite <- app_assoc in Hfile; cbn [app] in Hfile). exact Hfile.
Qed.

Lemma early_fault_leaves_incomplete_witness :
  ~ complete
      (w_fs (snd (parse_item sample_env ["out"; "2022-06-01_B"]%string default_options
                    (doc_name ["in"; "2022-06-01_B"; "b.pdf"]%string)
                    ["in"; "2022-06-01_B"; "b.pdf"]%string sample_world)))
      ["out"; "2022-06-01_B"]%string ["in"; "2022-06-01_B"; "b.pdf"]%string.
Proof.
  apply (early_fault_leaves_incomplete sample_env default_options
           ["out"; "2022-06-01_B"]%string ["in"; "2022-06-01_B"; "b.pdf"]%string
           Analyze sample_world).
  - vm_compute. reflexivity.
  - reflexivity.
  - intros r Hr _. destruct r; try discriminate Hr; cbn; lia.
  - intros entry Hfile. exfalso.
    assert (Hin : In entry (iterdir sample_fs ["out"; "2022-06-01_B"; "b"; "vlm"]%string)).
    { apply iterdir_spec. exists KFile.
      change (doc_name ["in"; "2022-06-01_B"; "b.pdf"]%string) with "b"%string in Hfile.
      exact Hfile. }
    assert (Hnil : iterdir sample_fs ["out"; "2022-06-01_B"; "b"; "vlm"]%string = [])
      by (vm_compute; reflexivity).
    rewrite Hnil in Hin. destruct Hin.
Defined.


(** * The run with the failures of its directory operations *)

(** A path is a list of names: the lookups are written with one type of
    keys. *)
Ltac same_keys := change (@lookup path) with (@lookup (list string)) in *.

Lemma keeps_shallow_le (d d' : nat) (w w' : world) :
  (d' <= d)%nat -> keeps_shallow d w w' -> keeps_shallow d' w w'.
Proof. intros Hle [He Hk]. split; [exact He|]. intros q Hq. apply Hk. lia. Qed.

Lemma mkdir_raises_child (fs : gmap path kind) (d : path) (name : string) :
  mkdir_raises fs (d ++ [name]) =
  match fs !! (d ++ [name]) with
  | Some KDir => false
  | Some KFile => true
  | None => match d with [] => false | _ :: _ => negb (is_dir fs d) end
  end.
Proof.
  unfold mkdir_raises, parent_is_dir. rewrite removelast_last.
  same_keys.
  destruct (fs !! (d ++ [name])) as [[]|]; try reflexivity. now destruct d.
Qed.

(** Where the creation of a directory does not raise, it does not raise
    later either, as long as directories stay and no regular file appears
    near the root. *)
Lemma mkdir_raises_kept (depth : nat) (d : path) (name : string) (w w' : world) :
  keeps_shallow depth w w' -> (length d + 1 < depth)%nat ->
  mkdir_raises (w_fs w) (d ++ [name]) = false ->
  mkdir_raises (w_fs w') (d ++ [name]) = false.
Proof.
  intros [_ Hk] Hd. rewrite !mkdir_raises_child.
  assert (Hlen : (length (d ++ [name]) < depth)%nat) by (rewrite length_app; cbn; lia).
  destruct (Hk (d ++ [name]) Hlen) as [Hdir Hfile]. same_keys.
  destruct (w_fs w !! (d ++ [name])) as [[]|] eqn:E; [discriminate| |].
  - intros _. now rewrite Hdir.
  - intros Hpar. destruct (w_fs w' !! (d ++ [name])) as [[]|] eqn:E';
      [now specialize (Hfile eq_refl)|reflexivity|].
    destruct d as [|x d]; [reflexivity|].
    apply negb_false_iff, is_dir_spec in Hpar.
    apply negb_false_iff, is_dir_spec.
    apply (Hk (x :: d)); [cbn in *; lia|exact Hpar].
Qed.

(** No regular file stands at a prefix of a path whose [makedirs] does
    not raise. *)
Lemma makedirs_raises_false (fs : gmap path kind) (p : path) (n : nat) :
  makedirs_raises fs p = false -> (1 <= n <= length p)%nat ->
  fs !! firstn n p <> Some KFile.
Proof.
  intros Hr Hn Hf. unfold makedirs_raises in Hr.
  assert (existsb (fun n => is_file fs (firstn n p)) (seq 1 (length p)) = true) as Ht.
  { apply existsb_exists. exists n. split; [apply in_seq; lia|now apply is_file_spec]. }
  congruence.
Qed.

Lemma makedirs_root (fs : gmap path kind) (p : path) :
  makedirs_raises fs p = false -> p <> [] -> makedirs p fs !! p = Some KDir.
Proof.
  intros Hr Hp.
  pose proof (makedirs_made p (length p) fs) as Hm. rewrite firstn_all in Hm.
  assert (Hlen : (1 <= length p)%nat) by (destruct p; [congruence|cbn; lia]).
  apply Hm; [lia|].
  pose proof (makedirs_raises_false fs p (length p) Hr) as Hf.
  rewrite firstn_all in Hf. apply Hf. lia.
Qed.

(** Once the output root was created, the creation of a folder in it
    raises only where a regular file has the name of the folder. *)
Lemma mkdir_after_makedirs (fs : gmap path kind) (out : path) (name : string) :
  makedirs_raises fs out = false ->
  fs !! (out ++ [name]) <> Some KFile ->
  mkdir_raises (makedirs out fs) (out ++ [name]) = false.
Proof.
  intros Hr Hfile. rewrite mkdir_raises_child. same_keys.
  destruct (makedirs out fs !! (out ++ [name])) as [[]|] eqn:E; [|reflexivity|].
  - now apply makedirs_file in E.
  - destruct out as [|x d]; [reflexivity|].
    apply negb_false_iff, is_dir_spec. now apply makedirs_root.
Qed.

Section ExecFacts.
Variable parse_doc_call : list path -> path -> Z -> list kwarg -> M unit.
Variable output_path : path.
Variable batch_size : Z.
Variable parsing_config : list kwarg.

Local Abbreviation iteration := (folder_iteration parse_doc_call output_path batch_size parsing_config).
Local Abbreviation loop := (process_folders parse_doc_call output_path batch_size parsing_config).
Local Abbreviation run := (process_folder_structure parse_doc_call output_path batch_size parsing_config).
Local Abbreviation exec_iteration := (exec_folder_iteration parse_doc_call output_path batch_size parsing_config).
Local Abbreviation exec_loop := (exec_process_folders parse_doc_call output_path batch_size parsing_config).
Local Abbreviation exec_run := (exec_process_folder_structure parse_doc_call output_path batch_size parsing_config).

(** The round of a folder whose output folder can be created. *)
Lemma exec_folder_iteration_ok (n_folders folder_idx : nat) (subfolder : path)
    (st : RunStatistics) (w : world) :
  mkdir_raises (w_fs w) (output_path ++ [path_name subfolder]) = false ->
  exec_iteration n_folders folder_idx subfolder st w
  = (Ok (fst (iteration n_folders folder_idx subfolder (st, w))),
     snd (iteration n_folders folder_idx subfolder (st, w))).
Proof.
  intros Hr. unfold exec_folder_iteration. rewrite Hr.
  now destruct (iteration n_folders folder_idx subfolder (st, w)).
Qed.

(** The round of a folder whose output folder cannot be created, and the
    loop from there. *)
Lemma exec_folder_iteration_raises (n_folders folder_idx : nat) (subfolder : path)
    (rest : list path) (st : RunStatistics) (w : world) :
  mkdir_raises (w_fs w) (output_path ++ [path_name subfolder]) = true ->
  let after := log INFO (MsgFolderStart (S folder_idx) n_folders (path_name subfolder)) w in
  exec_iteration n_folders folder_idx subfolder st w = (Raise OSError, after) /\
  exec_loop n_folders folder_idx (subfolder :: rest) st w = (Raise OSError, after).
Proof.
  intros Hr. cbn zeta.
  assert (H : exec_iteration n_folders folder_idx subfolder st w
              = (Raise OSError,
                 log INFO (MsgFolderStart (S folder_idx) n_folders (path_name subfolder)) w)).
  { unfold exec_folder_iteration. now rewrite Hr. }
  split; [exact H|]. cbn [exec_process_folders]. unfold bind. now rewrite H.
Qed.

(** A round, a loop and a run that return are the round, the loop and the
    run of [folder_iteration], [process_folders] and
    [process_folder_structure]. *)
Lemma exec_folder_iteration_sound (n_folders folder_idx : nat) (subfolder : path)
    (st st' : RunStatistics) (w w' : world) :
  exec_iteration n_folders folder_idx subfolder st w = (Ok st', w') ->
  iteration n_folders folder_idx subfolder (st, w) = (st', w').
Proof.
  unfold exec_folder_iteration.
  destruct (mkdir_raises _ _); [discriminate|].
  destruct (iteration n_folders folder_idx subfolder (st, w)). congruence.
Qed.

Lemma exec_process_folders_sound (n_folders : nat) (folders : list path) :
  forall (folder_idx : nat) (st st' : RunStatistics) (w w' : world),
  exec_loop n_folders folder_idx folders st w = (Ok st', w') ->
  loop n_folders folder_idx folders (st, w) = (st', w').
Proof.
  induction folders as [|f folders IH]; intros folder_idx st st' w w';
    cbn [exec_process_folders process_folders].
  - unfold ret. congruence.
  - unfold bind.
    destruct (exec_iteration n_folders folder_idx f st w) as [[st1|e] w1] eqn:E;
      [|discriminate].
    apply exec_folder_iteration_sound in E. rewrite E. apply IH.
Qed.

Lemma exec_discover_sound (input_path : path) (w : world)
    (found : option (list path)) (w' : world) :
  exec_discover output_path input_path w = (Ok found, w') ->
  discover output_path input_path w = (found, w').
Proof.
  unfold exec_discover, discover.
  destruct (negb (exists_ (w_fs w) input_path)); [congruence|].
  destruct (makedirs_raises (w_fs w) output_path); [discriminate|].
  cbn zeta. destruct (negb (is_dir _ input_path)); [discriminate|].
  destruct (List.filter _ _); congruence.
Qed.

Lemma exec_process_folder_structure_sound (input_path : path) (w : world)
    (r : option RunStatistics) (w' : world) :
  exec_run input_path w = (Ok r, w') -> run input_path w = (r, w').
Proof.
  unfold exec_process_folder_structure, process_folder_structure. unfold bind at 1.
  destruct (exec_discover output_path input_path w) as [[found|e] w0] eqn:Ed;
    [|discriminate].
  apply exec_discover_sound in Ed. rewrite Ed.
  destruct found as [sorted|]; [|unfold ret; congruence].
  unfold bind at 1.
  destruct (exec_loop (length sorted) 0 sorted (mk_stats 0 0 0 0) w0)
    as [[st|e] w1] eqn:El; [|discriminate].
  apply exec_process_folders_sound in El. rewrite El.
  unfold bind, effect, ret. congruence.
Qed.

(** The start of a run whose input root is a directory and whose output
    root can be created. *)
Lemma exec_discover_ok (input_path : path) (w : world) :
  w_fs w !! input_path = Some KDir ->
  makedirs_raises (w_fs w) output_path = false ->
  exec_discover output_path input_path w
  = (Ok (fst (discover output_path input_path w)),
     snd (discover output_path input_path w)).
Proof.
  intros Hin Hr. unfold exec_discover, discover. rewrite Hr.
  assert (He : exists_ (w_fs w) input_path = true).
  { apply bool_decide_eq_true. eauto. }
  rewrite He. cbn [negb]. cbn zeta.
  assert (Hd : is_dir (w_fs (with_fs (makedirs output_path) w)) input_path = true).
  { apply is_dir_spec. cbn [with_fs w_fs]. now apply makedirs_keeps. }
  rewrite Hd. cbn [negb].
  now destruct (List.filter _ _).
Qed.

(** The start of a run that cannot create its output root, or whose input
    root is a regular file. *)
Lemma exec_discover_raises (input_path : path) (w : world) :
  is_Some (w_fs w !! input_path) ->
  makedirs_raises (w_fs w) output_path = true \/ w_fs w !! input_path = Some KFile ->
  exists w', exec_discover output_path input_path w = (Raise OSError, w') /\
             w_trace w' = w_trace w.
Proof.
  intros Hin Hbad. unfold exec_discover.
  assert (He : exists_ (w_fs w) input_path = true) by now apply bool_decide_eq_true.
  rewrite He. cbn [negb].
  destruct (makedirs_raises (w_fs w) output_path) eqn:Hr; [eauto|].
  destruct Hbad as [|Hfile]; [discriminate|]. cbn zeta.
  assert (Hd : is_dir (w_fs (with_fs (makedirs output_path) w)) input_path = false).
  { apply not_true_is_false. rewrite is_dir_spec. cbn [with_fs w_fs].
    rewrite (makedirs_keeps _ _ _ _ Hfile). discriminate. }
  rewrite Hd. cbn [negb]. eauto.
Qed.

(** The call of [parse_doc] keeps the directories near the output root and
    puts no regular file there. *)
Hypothesis call_keeps : forall docs name w,
  keeps_shallow (length output_path + 2) w
    (snd (parse_doc_call docs (output_path ++ [name]) batch_size parsing_config w)).

Lemma iteration_keeps_dirs (n_folders folder_idx : nat) (subfolder : path)
    (st : RunStatistics) (w : world) :
  keeps_shallow (length output_path + 2) w
    (snd (iteration n_folders folder_idx subfolder (st, w))).
Proof.
  apply (folder_iteration_keeps (keeps_shallow (length output_path + 2))).
  - apply keeps_shallow_refl.
  - apply keeps_shallow_trans.
  - apply keeps_shallow_emit.
  - intros name w0. apply keeps_shallow_mkdir.
  - exact call_keeps.
Qed.

(** Where the output folder of every folder can be created at the start of
    the loop, no round raises. *)
Lemma exec_process_folders_ok (n_folders : nat) (folders : list path) :
  forall (folder_idx : nat) (st : RunStatistics) (w : world),
  (forall f, In f folders ->
     mkdir_raises (w_fs w) (output_path ++ [path_name f]) = false) ->
  exec_loop n_folders folder_idx folders st w
  = (Ok (fst (loop n_folders folder_idx folders (st, w))),
     snd (loop n_folders folder_idx folders (st, w))).
Proof.
  induction folders as [|f folders IH]; intros folder_idx st w Hfree;
    cbn [exec_process_folders process_folders]; [reflexivity|].
  unfold bind. rewrite exec_folder_iteration_ok by (apply Hfree; now left).
  pose proof (iteration_keeps_dirs n_folders folder_idx f st w) as Hk.
  destruct (iteration n_folders folder_idx f (st, w)) as [st1 w1]. cbn [fst snd] in *.
  apply IH. intros g Hg.
  apply (mkdir_raises_kept _ _ _ w w1 Hk); [lia|]. apply Hfree. now right.
Qed.

Lemma run_dirs_free_spec (input_path : path) (w : world) :
  run_dirs_free output_path input_path w = true ->
  w_fs w !! input_path = Some KDir /\
  makedirs_raises (w_fs w) output_path = false /\
  forall folders w0,
    discover output_path input_path w = (Some folders, w0) ->
    forall f, In f folders ->
      mkdir_raises (w_fs w0) (output_path ++ [path_name f]) = false.
Proof.
  unfold run_dirs_free. intros H.
  apply andb_true_iff in H as [H Hfolders]. apply andb_true_iff in H as [Hin Hr].
  apply is_dir_spec in Hin. apply negb_true_iff in Hr.
  split; [exact Hin|]. split; [exact Hr|].
  intros folders w0 Hd f Hf. rewrite Hd in Hfolders. cbn [fst] in Hfolders.
  rewrite forallb_forall in Hfolders. specialize (Hfolders f Hf).
  apply negb_true_iff in Hfolders.
  apply discover_Some in Hd as [-> _].
  apply mkdir_after_makedirs; [exact Hr|].
  intros Hf'. apply is_file_spec in Hf'. congruence.
Qed.

(** A run in whose way no regular file stands does not raise. *)
Lemma exec_process_folder_structure_ok (input_path : path) (w : world) :
  run_dirs_free output_path input_path w = true ->
  exec_run input_path w = (Ok (fst (run input_path w)), snd (run input_path w)).
Proof.
  intros Hfree. apply run_dirs_free_spec in Hfree as (Hin & Hr & Hfolders).
  unfold exec_process_folder_structure, process_folder_structure. unfold bind at 1.
  rewrite (exec_discover_ok input_path w Hin Hr).
  destruct (discover output_path input_path w) as [[sorted|] w0] eqn:Hd; cbn [fst snd];
    [|reflexivity].
  unfold bind at 1.
  rewrite exec_process_folders_ok by (intros f Hf; now apply (Hfolders sorted w0)).
  destruct (loop (length sorted) 0 sorted (mk_stats 0 0 0 0, w0)) as [st w1].
  reflexivity.
Qed.
End ExecFacts.

Lemma call_parse_doc_keeps_shallow (env : collaborators) (output_path : path)
    (batch_size : Z) (parsing_config : list kwarg) (docs : list path) (name : string)
    (w : world) :
  keeps_shallow (length output_path + 4) w
    (snd (call_parse_doc env docs (output_path ++ [name]) batch_size parsing_config w)).
Proof.
  unfold call_parse_doc.
  destruct (bind_kwargs default_options parsing_config) as [o|e];
    [|apply keeps_shallow_refl].
  replace (length output_path + 4)%nat with (length (output_path ++ [name]) + 3)%nat
    by (rewrite length_app; cbn; lia).
  apply keeps_shallow_parse_doc.
Qed.

Lemma call_parse_doc_keeps_dirs (env : collaborators) (output_path : path)
    (batch_size : Z) (parsing_config : list kwarg) (docs : list path) (name : string)
    (w : world) :
  keeps_shallow (length output_path + 2) w
    (snd (call_parse_doc env docs (output_path ++ [name]) batch_size parsing_config w)).
Proof.
  apply (keeps_shallow_le (length output_path + 4)); [lia|].
  apply call_parse_doc_keeps_shallow.
Qed.

(** * The counters of a run that does not raise *)

Lemma outcomes_partition (os : list folder_outcome) :
  len os = folders_empty os + folders_all_parsed os + folders_parsed os + folders_failed os.
Proof.
  unfold len, folders_empty, folders_all_parsed, folders_parsed, folders_failed.
  induction os as [|oc os IH]; [reflexivity|].
  cbn [length fold_right]. destruct oc; lia.
Qed.

Section ExecCounts.
Variable parse_doc_call : list path -> path -> Z -> list kwarg -> M unit.
Variable output_path : path.
Variable batch_size : Z.
Variable parsing_config : list kwarg.

Local Abbreviation iteration := (folder_iteration parse_doc_call output_path batch_size parsing_config).
Local Abbreviation exec_iteration := (exec_folder_iteration parse_doc_call output_path batch_size parsing_config).
Local Abbreviation exec_loop := (exec_process_folders parse_doc_call output_path batch_size parsing_config).

(** The rounds read the world and not the counters, also where a round
    raises. *)
Lemma exec_process_folders_shift (n_folders : nat) (folders : list path) :
  forall (folder_idx : nat) (st : RunStatistics) (w : world),
  exec_loop n_folders folder_idx folders st w =
  match exec_loop n_folders folder_idx folders (mk_stats 0 0 0 0) w with
  | (Ok d, w') => (Ok (add_stats st d), w')
  | (Raise e, w') => (Raise e, w')
  end.
Proof.
  induction folders as [|f folders IH]; intros folder_idx st w;
    cbn [exec_process_folders].
  - unfold ret. now rewrite add_stats_zero.
  - unfold bind, exec_folder_iteration.
    destruct (mkdir_raises (w_fs w) (output_path ++ [path_name f])); [reflexivity|].
    rewrite (folder_iteration_shift parse_doc_call output_path batch_size parsing_config
               n_folders folder_idx f st w).
    destruct (iteration n_folders folder_idx f (mk_stats 0 0 0 0, w)) as [d w1].
    cbn [fst snd]. rewrite (IH (S folder_idx) (add_stats st d) w1).
    rewrite (IH (S folder_idx) d w1).
    destruct (exec_loop n_folders (S folder_idx) folders (mk_stats 0 0 0 0) w1)
      as [[d'|e] w2]; [|reflexivity].
    now rewrite add_stats_assoc.
Qed.

(** What the scan of a folder with documents left to parse did to the
    counters. *)
Lemma scan_pending_counts (n_folders folder_idx : nat) (subfolder : path)
    (st : RunStatistics) (w : world) (filtered : list path) (out : path)
    (st1 : RunStatistics) (w1 : world) :
  scan_folder output_path n_folders folder_idx subfolder (st, w)
    = Pending filtered out (st1, w1) ->
  out = output_path ++ [path_name subfolder] /\
  w_fs w1 = mkdir_exist_ok out (w_fs w) /\
  total_processed st1 = total_processed st /\
  skipped_folders st1 = skipped_folders st /\
  total_pdfs st1 - total_skipped st1 = total_pdfs st - total_skipped st + len filtered.
Proof.
  intros Hscan.
  destruct (scan_folder_cases output_path n_folders folder_idx subfolder w)
    as (lines & _ & Hcases). cbn zeta in Hcases.
  set (out0 := output_path ++ [path_name subfolder]) in *.
  set (fs1 := mkdir_exist_ok out0 (w_fs w)) in *.
  pose proof (len_filter_split (is_complete fs1 out0) (glob_pdf fs1 subfolder)) as Hsplit.
  rewrite Hcases in Hscan.
  remember (glob_pdf fs1 subfolder) as pdfs eqn:Epdfs.
  remember (List.filter (fun p => negb (is_complete fs1 out0 p)) pdfs) as flt eqn:Eflt.
  destruct pdfs; [discriminate|]. destruct flt; [discriminate|].
  injection Hscan as <- <- <- <-.
  cbn [total_pdfs total_skipped total_processed skipped_folders w_fs].
  cbn [List.filter] in Hsplit |- *.
  repeat split; lia.
Qed.
End ExecCounts.

(** * A call of [parse_doc] that raises *)

(** C8 as the code has it.  When the call of [parse_doc] for a folder
    raises, the round of the loop logs the error, counts the documents of
    the folder as found and neither as skipped nor as processed, does not
    count the folder as skipped, does not pause, and the loop goes on with
    the following folders from the world the call left; what these add to
    the counters does not depend on the counters.  A run in whose way no
    regular file stands, so that the creation of the output root and of the
    output folders returns, ends with the summary; there is no counter of
    the folders that failed: in the summary they are among the processed
    folders (all folders but those with nothing left to parse), together
    with the folders whose call returned and the folders without
    documents, and their documents make the difference between the
    documents found and those skipped or processed. *)
Theorem group_failure_contained
    (parse_doc_call : list path -> path -> Z -> list kwarg -> M unit)
    (output_path : path) (batch_size : Z) (parsing_config : list kwarg) :
  (forall (n_folders folder_idx : nat) (subfolder : path) (rest : list path)
          (st : RunStatistics) (w : world)
          (filtered : list path) (output_subfolder : path)
          (st1 : RunStatistics) (w1 : world) (e : exn) (w2 : world),
     mkdir_raises (w_fs w) (output_path ++ [path_name subfolder]) = false ->
     scan_folder output_path n_folders folder_idx subfolder (st, w)
       = Pending filtered output_subfolder (st1, w1) ->
     parse_doc_call filtered output_subfolder batch_size parsing_config w1
       = (Raise e, w2) ->
     let after := log ERROR (MsgFolderError (path_name subfolder) e) w2 in
     exec_folder_iteration parse_doc_call output_path batch_size parsing_config
       n_folders folder_idx subfolder st w = (Ok st1, after) /\
     total_processed st1 = total_processed st /\
     skipped_folders st1 = skipped_folders st /\
     total_pdfs st1 - total_skipped st1
       = total_pdfs st - total_skipped st + len filtered /\
     exec_process_folders parse_doc_call output_path batch_size parsing_config
       n_folders folder_idx (subfolder :: rest) st w
     = exec_process_folders parse_doc_call output_path batch_size parsing_config
         n_folders (S folder_idx) rest st1 after /\
     exec_process_folders parse_doc_call output_path batch_size parsing_config
       n_folders (S folder_idx) rest st1 after
     = match exec_process_folders parse_doc_call output_path batch_size parsing_config
               n_folders (S folder_idx) rest (mk_stats 0 0 0 0) after with
       | (Ok d, w') => (Ok (add_stats st1 d), w')
       | (Raise e', w') => (Raise e', w')
       end) /\
  ((forall docs name w,
      keeps_shallow (length output_path + 2) w
        (snd (parse_doc_call docs (output_path ++ [name]) batch_size parsing_config w))) ->
   forall (input_path : path) (w : world) (sorted_subfolders : list path) (w0 : world),
     run_dirs_free output_path input_path w = true ->
     discover output_path input_path w = (Some sorted_subfolders, w0) ->
     exists st w1,
       exec_process_folder_structure parse_doc_call output_path batch_size parsing_config
         input_path w =
       (Ok (Some st),
        mk_world (w_fs w1)
          (w_trace w1 ++
           [Log INFO (MsgSummary (total_pdfs st) (total_skipped st) (total_processed st)
                        (skipped_folders st) (len sorted_subfolders - skipped_folders st));
            Log INFO MsgAllFoldersDone])) /\
       let os := run_outcomes parse_doc_call output_path batch_size parsing_config
                   input_path w in
       skipped_folders st = folders_all_parsed os /\
       len sorted_subfolders - skipped_folders st
         = folders_failed os + folders_parsed os + folders_empty os /\
       total_pdfs st - total_skipped st - total_processed st
         = items_in_failed_groups os).
Proof.
  split.
  - intros n_folders folder_idx subfolder rest st w filtered out st1 w1 e w2
      Hfree Hscan Hcall. cbn zeta.
    assert (Hit : exec_folder_iteration parse_doc_call output_path batch_size
                    parsing_config n_folders folder_idx subfolder st w
                  = (Ok st1, log ERROR (MsgFolderError (path_name subfolder) e) w2)).
    { rewrite exec_folder_iteration_ok by exact Hfree.
      unfold folder_iteration. rewrite Hscan. unfold dispatch_folder. now rewrite Hcall. }
    split; [exact Hit|].
    destruct (scan_pending_counts output_path n_folders folder_idx subfolder st w
                filtered out st1 w1 Hscan) as (_ & _ & Hp & Hs & Hf).
    split; [exact Hp|]. split; [exact Hs|]. split; [exact Hf|]. split.
    + cbn [exec_process_folders]. unfold bind. now rewrite Hit.
    + apply exec_process_folders_shift.
  - intros Hcall input_path w sorted w0 Hfree Hd.
    destruct (process_folder_structure_summary parse_doc_call output_path batch_size
                parsing_config input_path w sorted w0 Hd) as (st & w1 & Hloop & Hrun).
    exists st, w1. split.
    + rewrite (exec_process_folder_structure_ok parse_doc_call output_path batch_size
                 parsing_config Hcall input_path w Hfree).
      now rewrite Hrun.
    + cbn zeta. unfold run_outcomes. rewrite Hd.
      pose proof (process_folders_counts parse_doc_call output_path batch_size
                    parsing_config (length sorted) sorted 0 (mk_stats 0 0 0 0) w0) as H.
      cbn zeta in H. rewrite Hloop in H. cbn [fst total_pdfs total_skipped total_processed
                                                skipped_folders] in H.
      pose proof (outcomes_partition
                    (folder_outcomes parse_doc_call output_path batch_size parsing_config
                       (length sorted) 0 sorted (mk_stats 0 0 0 0, w0))) as Hpart.
      unfold len at 1 in Hpart. rewrite folder_outcomes_length in Hpart.
      unfold len. lia.
Qed.

Lemma group_failure_contained_witness :
  (exists st1 w2,
     exec_folder_iteration (call_parse_doc sample_env) ["out"%string] 2
       [KwUnexpected "dpi"] 3 0 ["in"; "2022-06-01_B"]%string (mk_stats 0 0 0 0)
       sample_world
     = (Ok st1, log ERROR (MsgFolderError "2022-06-01_B" TypeError) w2) /\
     total_processed st1 = 0 /\ skipped_folders st1 = 0 /\ total_pdfs st1 = 3) /\
  (exists st w1,
     exec_process_folder_structure (call_parse_doc sample_env) ["out"%string] 2
       [KwUnexpected "dpi"] ["in"%string] sample_world = (Ok (Some st), w1) /\
     skipped_folders st = 0 /\
     folders_failed
       (run_outcomes (call_parse_doc sample_env) ["out"%string] 2 [KwUnexpected "dpi"]
          ["in"%string] sample_world) = 2).
Proof.
  destruct (group_failure_contained (call_parse_doc sample_env) ["out"%string] 2
              [KwUnexpected "dpi"]) as [Hround Hrun].
  split.
  - destruct (scan_folder_cases ["out"%string] 3 0 ["in"; "2022-06-01_B"]%string
                sample_world) as (lines & _ & Hcases).
    cbn zeta in Hcases. specialize (Hcases (mk_stats 0 0 0 0)).
    set (out := ["out"%string] ++ [path_name ["in"; "2022-06-01_B"]%string]) in *.
    set (fs1 := mkdir_exist_ok out (w_fs sample_world)) in *.
    assert (Hglob : glob_pdf fs1 ["in"; "2022-06-01_B"]%string
                    = [["in"; "2022-06-01_B"; "c.pdf"]; ["in"; "2022-06-01_B"; "b.pdf"];
                       ["in"; "2022-06-01_B"; "a.pdf"]]%string) by (vm_compute; reflexivity).
    rewrite Hglob in Hcases.
    assert (Hfilt : List.filter (fun p => negb (is_complete fs1 out p))
                      [["in"; "2022-06-01_B"; "c.pdf"]; ["in"; "2022-06-01_B"; "b.pdf"];
                       ["in"; "2022-06-01_B"; "a.pdf"]]%string
                    = [["in"; "2022-06-01_B"; "c.pdf"]; ["in"; "2022-06-01_B"; "b.pdf"];
                       ["in"; "2022-06-01_B"; "a.pdf"]]%string) by (vm_compute; reflexivity).
    rewrite Hfilt in Hcases.
    edestruct (Hround 3%nat 0%nat ["in"; "2022-06-01_B"]%string [] (mk_stats 0 0 0 0)
                 sample_world) as (Hit & Hp & Hs & Hf & _);
      [vm_compute; reflexivity|exact Hcases|reflexivity|].
    eexists _, _. split; [exact Hit|]. split; [exact Hp|]. split; [exact Hs|].
    reflexivity.
  - assert (Hfound : fst (discover ["out"%string] ["in"%string] sample_world)
                     = Some [["in"; "2022-06-01_B"]; ["in"; "2020-01-01_A"];
                             ["in"; "no_date_C"]]%string) by (vm_compute; reflexivity).
    destruct (discover ["out"%string] ["in"%string] sample_world) as [found w0] eqn:Hd.
    cbn [fst] in Hfound. subst found.
    destruct (Hrun (fun docs name w =>
                      call_parse_doc_keeps_dirs sample_env ["out"%string] 2
                        [KwUnexpected "dpi"] docs name w)
                ["in"%string] sample_world
                [["in"; "2022-06-01_B"]; ["in"; "2020-01-01_A"]; ["in"; "no_date_C"]]%string
                w0) as (st & w1 & Hexec & Hsk & _ & _);
      [vm_compute; reflexivity|exact Hd|].
    eexists st, _. split; [exact Hexec|].
    assert (Hall : folders_all_parsed
              (run_outcomes (call_parse_doc sample_env) ["out"%string] 2
                 [KwUnexpected "dpi"] ["in"%string] sample_world) = 0)
      by (vm_compute; reflexivity).
    split; [now rewrite Hsk, Hall|]. vm_compute. reflexivity.
Defined.

(** C8, at the sample tree in which a regular file stands where the
    output folder of the last folder goes: the calls of [parse_doc] for the
    first two folders raise and the loop goes on, then the creation of the
    output folder raises outside every [try] and the run ends without the
    summary. *)
Theorem blocked_output_folder_ends_run :
  let r := exec_process_folder_structure (call_parse_doc sample_env) ["out"%string] 2
             [KwUnexpected "dpi"] ["in"%string] blocked_world in
  fst r = Raise OSError /\
  In (Log ERROR (MsgFolderError "2022-06-01_B" TypeError)) (w_trace (snd r)) /\
  In (Log ERROR (MsgFolderError "2020-01-01_A" TypeError)) (w_trace (snd r)) /\
  List.last (w_trace (snd r)) (Sleep 0) = Log INFO (MsgFolderStart 3 3 "no_date_C") /\
  ~ summary_logged (snd r).
Proof.
  cbv zeta.
  set (t := w_trace (snd (exec_process_folder_structure (call_parse_doc sample_env)
                            ["out"%string] 2 [KwUnexpected "dpi"] ["in"%string]
                            blocked_world))).
  split; [vm_compute; reflexivity|].
  unfold summary_logged. fold t. vm_compute in t. subst t.
  split; [cbn [In]; tauto|]. split; [cbn [In]; tauto|]. split; [reflexivity|].
  intros (a & b & c & d & e & H). cbn [In] in H.
  repeat (destruct H as [H|H]; [discriminate H|]). exact H.
Qed.

(** * The failure of a document *)

(** C2 as the code has it.  The round of a folder with documents left to
    parse, whose output folder can be created, with a positive batch size,
    accepted keyword arguments and the supported backend: the conversion of
    every document of the folder that can be read is started, whatever
    fails for the others, and every such document on which no collaborator
    fails and in the way of whose directories no regular file stands has
    its artifacts at the end of the round; all the documents handed to
    [parse_doc], those that failed included, are added to
    [total_processed] and none to [total_skipped]; the loop goes on with
    the next folder.  A run in whose way no regular file stands returns,
    with the summary when it has a folder to visit. *)
Theorem item_failure_isolated (env : collaborators) (output_path : path) (B : Z)
    (parsing_config : list kwarg) (o : parse_options)
    (n_folders folder_idx : nat) (subfolder : path) (rest : list path)
    (st : RunStatistics) (w : world)
    (filtered : list path) (out : path) (st1 : RunStatistics) (w1 : world) :
  0 < B ->
  bind_kwargs default_options parsing_config = Ok o ->
  backend o = "vlm-transformers"%string ->
  mkdir_raises (w_fs w) (output_path ++ [path_name subfolder]) = false ->
  scan_folder output_path n_folders folder_idx subfolder (st, w)
    = Pending filtered out (st1, w1) ->
  (exists st2 w2,
     exec_folder_iteration (call_parse_doc env) output_path B parsing_config
       n_folders folder_idx subfolder st w = (Ok st2, w2) /\
     (forall p, In p filtered -> can_read env w1 p ->
        exists rank total,
          logged_since w1 (Log INFO (MsgParseItem rank total (doc_name p))) w2) /\
     (forall p, In p filtered -> can_read env w1 p ->
        makedirs_raises (w_fs w1) (out ++ [doc_name p; "vlm"; "images"]%string) = false ->
        item_served env o out w1 w2 p) /\
     total_processed st2 = total_processed st + len filtered /\
     total_skipped st2 = total_skipped st1 /\
     total_pdfs st2 - total_pdfs st = total_skipped st2 - total_skipped st + len filtered /\
     exec_process_folders (call_parse_doc env) output_path B parsing_config
       n_folders folder_idx (subfolder :: rest) st w
     = exec_process_folders (call_parse_doc env) output_path B parsing_config
         n_folders (S folder_idx) rest st2 w2) /\
  (forall input_path w0,
     run_dirs_free output_path input_path w0 = true ->
     exists r w_end,
       exec_process_folder_structure (call_parse_doc env) output_path B parsing_config
         input_path w0 = (Ok r, w_end) /\
       forall sorted_subfolders,
         fst (discover output_path input_path w0) = Some sorted_subfolders ->
         is_Some r /\ summary_logged w_end).
Proof.
  intros HB Hbind Hbackend Hfree Hscan.
  assert (Hret : forall path_list out' w',
            fst (call_parse_doc env path_list out' B parsing_config w') = Ok tt).
  { intros. rewrite (call_parse_doc_bound env parsing_config o) by exact Hbind.
    apply parse_doc_returns. }
  split.
  - destruct (folder_iteration_pending (call_parse_doc env) output_path B parsing_config
                Hret n_folders folder_idx subfolder st w filtered out st1 w1 Hscan)
      as (w3 & Hit & Hext & Hcount). cbn zeta in Hext.
    assert (Hexec : exec_folder_iteration (call_parse_doc env) output_path B parsing_config
                      n_folders folder_idx subfolder st w
                    = (Ok (mk_stats (total_pdfs st1) (total_skipped st1)
                             (total_processed st + len filtered) (skipped_folders st1)),
                       w3)).
    { rewrite exec_folder_iteration_ok by exact Hfree. now rewrite Hit. }
    assert (Hserved : forall p, In p filtered -> can_read env w1 p ->
                      item_served env o out w1 w3 p).
    { intros p Hp Hread. eapply item_served_extends; [|exact Hext].
      rewrite (call_parse_doc_bound env parsing_config o) by exact Hbind.
      now apply parse_doc_serves_readable. }
    eexists _, w3. split; [exact Hexec|].
    cbn [total_pdfs total_skipped total_processed].
    split; [|split; [|split; [reflexivity|split; [reflexivity|split; [exact Hcount|]]]]].
    + intros p Hp Hread. now destruct (Hserved p Hp Hread) as [Hstart _].
    + intros p Hp Hread _. now apply Hserved.
    + cbn [exec_process_folders]. unfold bind. now rewrite Hexec.
  - intros input_path w0 Hrun.
    rewrite (exec_process_folder_structure_ok (call_parse_doc env) output_path B
               parsing_config (call_parse_doc_keeps_dirs env output_path B parsing_config)
               input_path w0 Hrun).
    eexists _, _. split; [reflexivity|].
    intros sorted Hd.
    destruct (discover output_path input_path w0) as [found w0'] eqn:Ed.
    cbn [fst] in Hd. subst found.
    destruct (process_folder_structure_summary (call_parse_doc env) output_path B
                parsing_config input_path w0 sorted w0' Ed) as (st_end & w_end & _ & ->).
    cbn [fst snd]. split; [eauto|].
    unfold summary_logged. cbn [w_trace]. do 5 eexists.
    apply in_or_app. right. left. reflexivity.
Qed.

Lemma item_failure_isolated_witness :
  exists st2 w2,
    exec_folder_iteration (call_parse_doc sample_env) ["out"%string] 5 [] 3 0
      ["in"; "2022-06-01_B"]%string (mk_stats 0 0 0 0) sample_world = (Ok st2, w2) /\
    total_processed st2 = 3 /\
    item_fault sample_env ["in"; "2022-06-01_B"; "b.pdf"]%string = Some Analyze /\
    w_fs w2 !! ["out"; "2022-06-01_B"; "a"; "vlm"; "a.md"]%string = Some KFile /\
    w_fs w2 !! ["out"; "2022-06-01_B"; "c"; "vlm"; "c.md"]%string = Some KFile.
Proof.
  destruct (scan_folder_cases ["out"%string] 3 0 ["in"; "2022-06-01_B"]%string sample_world)
    as (lines & _ & Hcases). cbn zeta in Hcases. specialize (Hcases (mk_stats 0 0 0 0)).
  set (out := ["out"%string] ++ [path_name ["in"; "2022-06-01_B"]%string]) in *.
  set (fs1 := mkdir_exist_ok out (w_fs sample_world)) in *.
  assert (Hglob : glob_pdf fs1 ["in"; "2022-06-01_B"]%string
                  = [["in"; "2022-06-01_B"; "c.pdf"]; ["in"; "2022-06-01_B"; "b.pdf"];
                     ["in"; "2022-06-01_B"; "a.pdf"]]%string) by (vm_compute; reflexivity).
  rewrite Hglob in Hcases.
  assert (Hfilt : List.filter (fun p => negb (is_complete fs1 out p))
                    [["in"; "2022-06-01_B"; "c.pdf"]; ["in"; "2022-06-01_B"; "b.pdf"];
                     ["in"; "2022-06-01_B"; "a.pdf"]]%string
                  = [["in"; "2022-06-01_B"; "c.pdf"]; ["in"; "2022-06-01_B"; "b.pdf"];
                     ["in"; "2022-06-01_B"; "a.pdf"]]%string) by (vm_compute; reflexivity).
  rewrite Hfilt in Hcases.
  edestruct (item_failure_isolated sample_env ["out"%string] 5 [] default_options 3 0
               ["in"; "2022-06-01_B"]%string [] (mk_stats 0 0 0 0) sample_world)
    as [(st2 & w2 & Hit & _ & Hserved & Hproc & _) _].
  - lia.
  - reflexivity.
  - reflexivity.
  - vm_compute. reflexivity.
  - exact Hcases.
  - exists st2, w2. split; [exact Hit|].
    split; [rewrite Hproc; reflexivity|].
    split; [reflexivity|].
    split.
    + destruct (Hserved ["in"; "2022-06-01_B"; "a.pdf"]%string) as [_ Ha].
      { cbn [In]. tauto. }
      { split; vm_compute; reflexivity. }
      { cbn [w_fs]. vm_compute. reflexivity. }
      destruct (Ha eq_refl) as [_ Hart]. apply Hart. vm_compute. tauto.
    + destruct (Hserved ["in"; "2022-06-01_B"; "c.pdf"]%string) as [_ Hc].
      { cbn [In]. tauto. }
      { split; vm_compute; reflexivity. }
      { cbn [w_fs]. vm_compute. reflexivity. }
      destruct (Hc eq_refl) as [_ Hart]. apply Hart. vm_compute. tauto.
Defined.

(** * Folders without documents, and calls that convert nothing *)

(** X2: a folder in which no entry matches [*.pdf], and whose output folder
    can be created, changes no counter: its round only creates the output
    folder and writes log lines, without call of [parse_doc] and without
    pause.  It is not counted as a skipped folder, so the summary has it
    among the processed folders. *)
Theorem folder_without_pdf
    (parse_doc_call : list path -> path -> Z -> list kwarg -> M unit)
    (output_path : path) (batch_size : Z) (parsing_config : list kwarg)
    (n_folders folder_idx : nat) (subfolder : path) (rest : list path) (w : world) :
  let output_subfolder := output_path ++ [path_name subfolder] in
  let fs1 := mkdir_exist_ok output_subfolder (w_fs w) in
  mkdir_raises (w_fs w) output_subfolder = false ->
  glob_pdf fs1 subfolder = [] ->
  exists lines,
    Forall is_log_line lines /\
    forall st : RunStatistics,
      let after := mk_world fs1 (w_trace w ++ lines) in
      exec_folder_iteration parse_doc_call output_path batch_size parsing_config
        n_folders folder_idx subfolder st w = (Ok st, after) /\
      folder_outcome_of parse_doc_call output_path batch_size parsing_config
        n_folders folder_idx subfolder (st, w) = FolderEmpty /\
      exec_process_folders parse_doc_call output_path batch_size parsing_config
        n_folders folder_idx (subfolder :: rest) st w
      = exec_process_folders parse_doc_call output_path batch_size parsing_config
          n_folders (S folder_idx) rest st after.
Proof.
  cbn zeta. intros Hfree Hglob.
  destruct (scan_folder_cases output_path n_folders folder_idx subfolder w)
    as (lines & Hlines & Hscan). cbn zeta in Hscan. rewrite Hglob in Hscan.
  exists lines. split; [exact Hlines|]. intros st.
  assert (Hit : exec_folder_iteration parse_doc_call output_path batch_size parsing_config
                  n_folders folder_idx subfolder st w
                = (Ok st,
                   mk_world (mkdir_exist_ok (output_path ++ [path_name subfolder]) (w_fs w))
                     (w_trace w ++ lines))).
  { rewrite exec_folder_iteration_ok by exact Hfree.
    unfold folder_iteration. now rewrite Hscan. }
  split; [exact Hit|]. split.
  - unfold folder_outcome_of. now rewrite Hscan.
  - cbn [exec_process_folders]. unfold bind. now rewrite Hit.
Qed.

Lemma folder_without_pdf_witness :
  exists w',
    exec_folder_iteration (call_parse_doc sample_env) ["out"%string] 5 [] 3 2
      ["in"; "no_date_C"]%string (mk_stats 5 1 4 0) sample_world
    = (Ok (mk_stats 5 1 4 0), w').
Proof.
  pose proof (folder_without_pdf (call_parse_doc sample_env) ["out"%string] 5 [] 3 2
                ["in"; "no_date_C"]%string [] sample_world) as H.
  cbv zeta in H. destruct H as (lines & _ & H).
  - vm_compute. reflexivity.
  - vm_compute. reflexivity.
  - destruct (H (mk_stats 5 1 4 0)) as (Hit & _). eexists. exact Hit.
Defined.

Lemma idle_call_counts (env : collaborators) (output_path : path)
    (batch_size : Z) (parsing_config : list kwarg) (o : parse_options)
    (n_folders folder_idx : nat) (subfolder : path) (st : RunStatistics) (w : world) :
  bind_kwargs default_options parsing_config = Ok o ->
  batch_size <= 0 \/ backend o <> "vlm-transformers"%string ->
  let out := output_path ++ [path_name subfolder] in
  let fs1 := mkdir_exist_ok out (w_fs w) in
  let pending :=
    List.filter (fun p => negb (is_complete fs1 out p)) (glob_pdf fs1 subfolder) in
  pending <> [] ->
  let r := folder_iteration (call_parse_doc env) output_path batch_size parsing_config
             n_folders folder_idx subfolder (st, w) in
  total_processed (fst r) = total_processed st + len pending /\
  w_fs (snd r) = fs1.
Proof.
  intros Hbound Hidle. cbn zeta. intros Hpending.
  destruct (scan_folder_cases output_path n_folders folder_idx subfolder w)
    as (lines & _ & Hscan). cbn zeta in Hscan.
  set (out := output_path ++ [path_name subfolder]) in *.
  set (fs1 := mkdir_exist_ok out (w_fs w)) in *.
  set (w1 := mk_world fs1 (w_trace w ++ lines)) in *.
  assert (Hcall : forall docs,
            fst (call_parse_doc env docs out batch_size parsing_config w1) = Ok tt /\
            w_fs (snd (call_parse_doc env docs out batch_size parsing_config w1)) = fs1).
  { intros docs. rewrite (call_parse_doc_bound env parsing_config o docs out batch_size Hbound).
    split; [apply parse_doc_returns|].
    destruct Hidle as [HB|Hbackend].
    - now destruct (parse_doc_quiet_nonpositive env docs out batch_size o w1 HB) as [-> _].
    - now destruct (parse_doc_quiet_unsupported env docs out batch_size o w1 Hbackend)
        as [-> _]. }
  unfold folder_iteration. rewrite Hscan.
  destruct (glob_pdf fs1 subfolder) as [|p0 pdfs]; [now destruct Hpending|].
  destruct (List.filter _ (p0 :: pdfs)) as [|f0 filtered]; [now destruct Hpending|].
  unfold dispatch_folder.
  destruct (Hcall (f0 :: filtered)) as [Hok Hsame].
  destruct (call_parse_doc env (f0 :: filtered) out batch_size parsing_config w1)
    as [[[]|e] w2]; cbn [fst snd] in *; [|discriminate].
  destruct (Z.of_nat folder_idx <? Z.of_nat n_folders - 1); cbn; auto.
Qed.

(** X10: the driver counts what it hands to [parse_doc], not what was
    converted.  When the batch size is zero or below, or the configured
    backend is not "vlm-transformers", the round of a folder with documents
    to parse, whose output folder can be created, adds all of them to the
    processed counter, although the file system is left as the scan of the
    folder left it: every one of these documents is still incomplete. *)
Theorem unconverted_documents_counted (env : collaborators) (output_path : path)
    (batch_size : Z) (parsing_config : list kwarg) (o : parse_options)
    (n_folders folder_idx : nat) (subfolder : path) (st : RunStatistics) (w : world) :
  bind_kwargs default_options parsing_config = Ok o ->
  batch_size <= 0 \/ backend o <> "vlm-transformers"%string ->
  let out := output_path ++ [path_name subfolder] in
  let fs1 := mkdir_exist_ok out (w_fs w) in
  let pending :=
    List.filter (fun p => negb (is_complete fs1 out p)) (glob_pdf fs1 subfolder) in
  mkdir_raises (w_fs w) out = false ->
  pending <> [] ->
  exists st2 w2,
    exec_folder_iteration (call_parse_doc env) output_path batch_size parsing_config
      n_folders folder_idx subfolder st w = (Ok st2, w2) /\
    total_processed st2 = total_processed st + len pending /\
    w_fs w2 = fs1 /\
    forall p, In p pending -> is_complete (w_fs w2) out p = false.
Proof.
  intros Hbound Hidle. cbn zeta. intros Hfree Hpending.
  destruct (idle_call_counts env output_path batch_size parsing_config o n_folders
              folder_idx subfolder st w Hbound Hidle Hpending) as [Hcount Hsame].
  rewrite exec_folder_iteration_ok by exact Hfree.
  eexists _, _. split; [reflexivity|]. split; [exact Hcount|]. split; [exact Hsame|].
  intros p Hp. rewrite Hsame. apply filter_In in Hp as [_ Hp].
  now apply negb_true_iff in Hp.
Qed.

Lemma unconverted_documents_counted_witness :
  exists st2 w2,
    exec_folder_iteration (call_parse_doc sample_env) ["out"%string] 0 [] 3 0
      ["in"; "2022-06-01_B"]%string (mk_stats 0 0 0 0) sample_world = (Ok st2, w2) /\
    total_processed st2 = 3 /\
    is_complete (w_fs w2) ["out"; "2022-06-01_B"]%string
      ["in"; "2022-06-01_B"; "a.pdf"]%string = false.
Proof.
  pose proof (unconverted_documents_counted sample_env ["out"%string] 0 [] default_options
                3 0 ["in"; "2022-06-01_B"]%string (mk_stats 0 0 0 0) sample_world
                eq_refl (or_introl (Z.le_refl 0))) as H.
  cbv zeta in H.
  set (out := ["out"%string] ++ [path_name ["in"; "2022-06-01_B"]%string]) in *.
  set (fs1 := mkdir_exist_ok out (w_fs sample_world)) in *.
  assert (Hpending : List.filter (fun p => negb (is_complete fs1 out p))
                       (glob_pdf fs1 ["in"; "2022-06-01_B"]%string)
                     = [["in"; "2022-06-01_B"; "c.pdf"]; ["in"; "2022-06-01_B"; "b.pdf"];
                        ["in"; "2022-06-01_B"; "a.pdf"]]%string) by (vm_compute; reflexivity).
  rewrite Hpending in H.
  destruct H as (st2 & w2 & Hit & Hcount & _ & Hinc);
    [vm_compute; reflexivity|discriminate|].
  exists st2, w2. split; [exact Hit|]. split; [exact Hcount|].
  apply Hinc. cbn [In]. tauto.
Defined.

(** * The start of a run *)

(** X13: an output root that lies directly in the input root, where the
    input root is a directory and no regular file is in the way of the
    output root, is itself one of the folders of the run: it is created
    before the input root is listed. *)
Theorem output_root_in_input_is_a_folder (input_path : path) (name : string) (w : world) :
  w_fs w !! input_path = Some KDir ->
  makedirs_raises (w_fs w) (input_path ++ [name]) = false ->
  exists sorted w',
    exec_discover (input_path ++ [name]) input_path w = (Ok (Some sorted), w') /\
    In (input_path ++ [name]) sorted.
Proof.
  intros Hin Hfree.
  assert (Hdir : makedirs (input_path ++ [name]) (w_fs w) !! (input_path ++ [name])
                 = Some KDir).
  { apply makedirs_root; [exact Hfree|]. now destruct input_path. }
  destruct (discover_finds (input_path ++ [name]) input_path name w
              (ex_intro _ KDir Hin) Hdir) as (sorted & n & Hd & Hmem).
  rewrite (exec_discover_ok (input_path ++ [name]) input_path w Hin Hfree), Hd.
  eauto.
Qed.

Lemma output_root_in_input_is_a_folder_witness :
  exists sorted w',
    exec_discover ["in"; "results"]%string ["in"%string] sample_world
      = (Ok (Some sorted), w') /\
    In ["in"; "results"]%string sorted.
Proof.
  apply (output_root_in_input_is_a_folder ["in"%string] "results" sample_world).
  - vm_compute. reflexivity.
  - vm_compute. reflexivity.
Defined.

(** * Resuming a run *)




(** * The batches in the log of [parse_doc] *)

Lemma grows_by_refl (allowed : event -> Prop) (w : world) : grows_by allowed w w.
Proof. exists []. split; [now rewrite app_nil_r|constructor]. Qed.

Lemma grows_by_trans (allowed : event -> Prop) (w1 w2 w3 : world) :
  grows_by allowed w1 w2 -> grows_by allowed w2 w3 -> grows_by allowed w1 w3.
Proof.
  intros (a & Ha & Pa) (b & Hb & Pb). exists (a ++ b). split.
  - now rewrite Hb, Ha, app_assoc.
  - apply Forall_app. now split.
Qed.

Lemma grows_by_emit (allowed : event -> Prop) (ev : event) (w : world) :
  allowed ev -> grows_by allowed w (emit ev w).
Proof. intros H. exists [ev]. split; [reflexivity|]. now constructor. Qed.

Lemma grows_by_fs (allowed : event -> Prop) (f : gmap path kind -> gmap path kind)
    (w : world) :
  grows_by allowed w (with_fs f w).
Proof. exists []. split; [cbn; now rewrite app_nil_r|constructor]. Qed.

Section BatchLog.
Variable env : collaborators.
Variable o : parse_options.
Variable out : path.

(** [do_parse] writes no line that announces a batch or reports a
    reading. *)
Lemma do_parse_inner (names : list string) (bytes : list path) (w : world) :
  grows_by inner_event w (snd (do_parse env out names bytes o w)).
Proof.
  assert (Hlog : forall lv m w0, item_message m -> grows_by inner_event w0 (log lv m w0)).
  { intros lv m w0 Hm. apply grows_by_emit. destruct m; cbn in Hm; now try destruct Hm. }
  apply (preserves_do_parse (grows_by inner_event) (grows_by_refl _) (grows_by_trans _)
           env o out Hlog).
  intros name b.
  apply (preserves_parse_item (grows_by inner_event) (grows_by_refl _) (grows_by_trans _)
           env o out Hlog).
  - intros name' suffix w0. apply grows_by_fs.
  - intros name' file w0. apply grows_by_fs.
Qed.

(** [do_parse] returns for the documents that were read. *)
Lemma do_parse_returns (good : list path) (w : world) :
  fst (do_parse env out (map doc_name good) good o w) = Ok tt.
Proof.
  unfold do_parse. destruct (String.eqb _ _); [|reflexivity].
  assert (H : forall bytes pre w0,
            fst (do_parse_loop env out o (pre ++ map doc_name bytes) (length pre) bytes w0)
            = Ok tt).
  { intros bytes pre w0.
    apply (do_parse_loop_progress env o out (fun _ _ => True) (fun _ _ => False)
             (fun _ _ => True)); auto. }
  exact (H good [] w).
Qed.

(** The reading loop leaves one line for each document of the batch, in
    order, and nothing else. *)
Lemma read_batch_reads (batch : list path) :
  forall (acc : list string * list path) (w : world),
  exists (good : list path) (reads : list event),
    read_batch env batch acc w
      = (Ok (fst acc ++ map doc_name good, snd acc ++ good),
         mk_world (w_fs w) (w_trace w ++ reads)) /\
    Forall2 read_event_of batch reads.
Proof.
  induction batch as [|p batch IH]; intros acc w.
  - exists [], []. cbn. rewrite !app_nil_r. destruct acc, w. split; [reflexivity|constructor].
  - cbn [read_batch]. fold (doc_name p).
    unfold bind at 1. unfold try_catch, bind at 1. unfold read_fn.
    destruct (is_file (w_fs w) p && negb (read_fault env p)).
    + unfold bind at 1. unfold effect at 1. unfold ret at 1. cbn [fst snd].
      destruct (IH (fst acc ++ [doc_name p], snd acc ++ [p])
                  (log INFO (MsgReadOk (doc_name p)) w)) as (good & reads & -> & Hreads).
      exists (p :: good), (Log INFO (MsgReadOk (doc_name p)) :: reads).
      cbn [fst snd map log emit w_fs w_trace]. rewrite <- !app_assoc.
      split; [reflexivity|]. constructor; [now left|exact Hreads].
    + unfold bind at 1. unfold effect at 1. unfold ret at 1. cbn [fst snd].
      destruct (IH acc (log ERROR (MsgReadFailed (doc_name p)) w))
        as (good & reads & -> & Hreads).
      exists good, (Log ERROR (MsgReadFailed (doc_name p)) :: reads).
      cbn [log emit w_fs w_trace]. rewrite <- !app_assoc.
      split; [reflexivity|]. constructor; [now right|exact Hreads].
Qed.

Variable path_list : list path.
Variable batch_size : Z.

(** One round of the batch loop returns and adds the segment of its batch
    to the trace. *)
Lemma parse_batch_segment (idx : nat) (w : world) :
  exists (seg : list event) (w' : world),
    parse_batch env path_list out batch_size o (Z.of_nat idx) w = (Ok tt, w') /\
    w_trace w' = w_trace w ++ seg /\
    batch_segment (total_batches path_list batch_size) idx
      (current_batch path_list batch_size (Z.of_nat idx)) seg.
Proof.
  set (total := total_batches path_list batch_size).
  set (batch := current_batch path_list batch_size (Z.of_nat idx)).
  destruct (read_batch_reads batch ([], []) (log INFO (MsgBatchStart (Z.of_nat idx + 1) total) w))
    as (good & reads & Hrb & Hreads).
  cbn [fst snd app log emit w_fs w_trace] in Hrb.
  unfold parse_batch, bind, effect. fold total. fold batch.
  cbn [log emit]. rewrite Hrb. cbn [fst snd].
  destruct good as [|b good'].
  - cbn [map]. eexists _, _. split; [reflexivity|].
    cbn [log emit w_trace]. rewrite <- !app_assoc. split; [reflexivity|].
    exists reads, [Log WARNING (MsgBatchEmpty (Z.of_nat idx + 1))].
    split; [reflexivity|]. split; [exact Hreads|]. now repeat constructor.
  - set (w2 := mk_world (w_fs w)
                 ((w_trace w ++ [Log INFO (MsgBatchStart (Z.of_nat idx + 1) total)])
                  ++ reads)).
    pose proof (do_parse_returns (b :: good') w2) as Hok.
    destruct (do_parse_inner (map doc_name (b :: good')) (b :: good') w2)
      as (added & Hadded & Hinner).
    cbn [map] in *.
    destruct (do_parse env out (doc_name b :: map doc_name good') (b :: good') o w2)
      as [[[]|e] w3]; cbn [fst snd] in *; [|discriminate].
    unfold w2 in Hadded. cbn [w_trace] in Hadded.
    destruct (Z.of_nat idx <? total - 1); cbn [when fst snd]; unfold ret, log, emit;
      eexists _, _; (split; [reflexivity|]); cbn [w_trace w_fs]; rewrite Hadded;
      rewrite <- !app_assoc; (split; [reflexivity|]).
    + exists reads, (added ++ [Log INFO (MsgBatchDone (Z.of_nat idx + 1));
                                Log INFO MsgWaitNextBatch; Sleep 2]).
      split; [reflexivity|]. split; [exact Hreads|].
      apply Forall_app. split; [exact Hinner|]. now repeat constructor.
    + exists reads, (added ++ [Log INFO (MsgBatchDone (Z.of_nat idx + 1))]).
      split; [reflexivity|]. split; [exact Hreads|].
      apply Forall_app. split; [exact Hinner|]. now repeat constructor.
Qed.

(** The rounds of the batch loop from the index [k] on. *)
Lemma for_each_segments (n : nat) : forall (k : nat) (w : world),
  exists (segs : list (list event)) (w' : world),
    for_each (map Z.of_nat (seq k n)) (parse_batch env path_list out batch_size o) w
      = (Ok tt, w') /\
    w_trace w' = w_trace w ++ concat segs /\
    length segs = n /\
    forall i seg, segs !! i = Some seg ->
      batch_segment (total_batches path_list batch_size) (k + i)
        (current_batch path_list batch_size (Z.of_nat (k + i))) seg.
Proof.
  induction n as [|n IH]; intros k w.
  - exists [], w. cbn. rewrite app_nil_r. repeat split. intros i seg Hi. discriminate Hi.
  - cbn [seq map for_each]. unfold bind.
    destruct (parse_batch_segment k w) as (seg0 & w1 & -> & Ht1 & Hseg0).
    destruct (IH (S k) w1) as (segs & w' & -> & Ht & Hlen & Hsegs).
    exists (seg0 :: segs), w'. split; [reflexivity|].
    split; [cbn [concat]; now rewrite Ht, Ht1, app_assoc|].
    split; [cbn; now rewrite Hlen|].
    intros [|i] seg Hi; cbn in Hi.
    + injection Hi as <-. now rewrite Nat.add_0_r.
    + replace (k + S i)%nat with (S k + i)%nat by lia. now apply Hsegs.
Qed.
End BatchLog.

(** C4: for a positive batch size B the list is cut into ceil(N/B)
    consecutive batches that joined in order give the list back; every
    batch but the last has B documents and the last has N mod B, or B when
    that is zero.  The loop of [parse_doc] goes through exactly these
    batches, one round for each, in order: [parse_doc] returns, and what it
    adds to the trace is one segment for each batch (the line that
    announces the batch with its rank and the number of batches, then one
    line for the reading of each document of the batch, in the order of the
    list, then what the conversion of the batch writes), followed by the
    closing line. *)
Theorem parse_doc_batches (env : collaborators) (path_list : list path) (out : path)
    (batch_size : Z) (o : parse_options) (w : world) :
  0 < batch_size ->
  let bs := batches path_list batch_size in
  let N := len path_list in
  total_batches path_list batch_size = ceil_div N batch_size /\
  len bs = ceil_div N batch_size /\
  concat bs = path_list /\
  (forall (i : nat) (batch : list path), bs !! i = Some batch ->
     batch = current_batch path_list batch_size (Z.of_nat i) /\
     (Z.of_nat i < len bs - 1 -> len batch = batch_size) /\
     (Z.of_nat i = len bs - 1 ->
      len batch = if N mod batch_size =? 0 then batch_size else N mod batch_size)) /\
  fst (parse_doc env path_list out batch_size o w) = Ok tt /\
  exists segs : list (list event),
    w_trace (snd (parse_doc env path_list out batch_size o w))
      = w_trace w ++ concat segs ++ [Log INFO MsgAllBatchesDone] /\
    length segs = length bs /\
    forall (i : nat) (batch : list path) (seg : list event),
      bs !! i = Some batch -> segs !! i = Some seg ->
      batch_segment (ceil_div N batch_size) i batch seg.
Proof.
  intros HB. cbn zeta.
  pose proof (total_batches_ceil path_list batch_size HB) as Hceil.
  set (b := Z.to_nat batch_size).
  assert (Hb : (0 < b)%nat) by lia.
  assert (HBb : batch_size = Z.of_nat b) by lia.
  pose proof (Z.div_mod (len path_list) batch_size ltac:(lia)) as Hdm.
  pose proof (Z.mod_pos_bound (len path_list) batch_size HB) as Hr.
  pose proof (Z.div_pos (len path_list) batch_size ltac:(unfold len; lia) HB) as Hq.
  assert (Hlen : len (batches path_list batch_size) = ceil_div (len path_list) batch_size).
  { unfold batches, py_range, len at 1. rewrite !length_map, length_seq, Hceil.
    unfold ceil_div. destruct (_ =? 0); lia. }
  assert (Hm : Z.of_nat (Z.to_nat (total_batches path_list batch_size))
               = ceil_div (len path_list) batch_size).
  { rewrite Hceil. unfold ceil_div. destruct (_ =? 0); lia. }
  assert (Hnth : forall i batch, batches path_list batch_size !! i = Some batch ->
            (i < Z.to_nat (total_batches path_list batch_size))%nat /\
            batch = current_batch path_list batch_size (Z.of_nat i)).
  { intros i batch Hi.
    assert (Hi' : (i < Z.to_nat (total_batches path_list batch_size))%nat).
    { apply lookup_lt_Some in Hi. unfold batches, py_range in Hi.
      now rewrite !length_map, length_seq in Hi. }
    split; [exact Hi'|].
    unfold batches, py_range in Hi. rewrite !list_lookup_fmap in Hi.
    rewrite lookup_seq_lt in Hi by exact Hi'. cbn in Hi. congruence. }
  split; [exact Hceil|]. split; [exact Hlen|].
  split; [now apply batches_concat|].
  split; [|split].
  - intros i batch Hi. rewrite Hlen.
    destruct (Hnth i batch Hi) as [Hi' Hbatch].
    split; [exact Hbatch|].
    assert (Hp : Z.of_nat (i * b) = Z.of_nat i * batch_size)
      by (rewrite Nat2Z.inj_mul; congruence).
    assert (HiN : Z.of_nat i * batch_size < len path_list).
    { unfold ceil_div in Hm. unfold len in *.
      destruct (Z.eqb_spec (Z.of_nat (length path_list) mod batch_size) 0); nia. }
    assert (Hsize : len batch = Z.min batch_size (len path_list - Z.of_nat i * batch_size)).
    { rewrite Hbatch, HBb at 1. rewrite current_batch_of_nat by exact Hb.
      unfold len in *. rewrite length_firstn, length_skipn.
      rewrite <- Hp in *. lia. }
    unfold ceil_div in *. unfold len in *.
    destruct (Z.eqb_spec (Z.of_nat (length path_list) mod batch_size) 0); split; nia.
  - apply parse_doc_returns.
  - destruct (for_each_segments env o out path_list batch_size
                (Z.to_nat (total_batches path_list batch_size)) 0 w)
      as (segs & w' & Hloop & Htrace & Hsegs_len & Hsegs).
    exists segs. split; [|split].
    + unfold parse_doc, try_catch, parse_doc_body.
      destruct (Z.eqb_spec batch_size 0) as [->|_]; [lia|].
      unfold bind at 1. unfold ret at 1. unfold bind at 1.
      unfold py_range. rewrite Hloop. unfold effect. cbn [snd log emit w_trace].
      now rewrite Htrace, <- app_assoc.
    + rewrite Hsegs_len. unfold batches, py_range. now rewrite !length_map, length_seq.
    + intros i batch seg Hi Hseg. destruct (Hnth i batch Hi) as [_ ->].
      rewrite <- Hceil. exact (Hsegs i seg Hseg).
Qed.

Lemma parse_doc_batches_witness :
  let l := map (fun n => ["in"; "g"; n]%string)
             ["a"; "b"; "c"; "d"; "e"; "f"; "g"; "h"; "i"; "j"; "k"; "l"]%string in
  map (@length path) (batches l 5) = [5; 5; 2]%nat /\
  concat (batches l 5) = l /\
  exists segs : list (list event),
    length segs = 3%nat /\
    w_trace (snd (parse_doc sample_env l ["out"; "g"]%string 5 default_options
                    sample_world))
    = concat segs ++ [Log INFO MsgAllBatchesDone].
Proof.
  cbn zeta.
  destruct (parse_doc_batches sample_env
              (map (fun n => ["in"; "g"; n]%string)
                 ["a"; "b"; "c"; "d"; "e"; "f"; "g"; "h"; "i"; "j"; "k"; "l"]%string)
              ["out"; "g"]%string 5 default_options sample_world)
    as (_ & _ & Hconcat & _ & _ & segs & Htrace & Hlen & _); [lia|].
  split; [reflexivity|]. split; [exact Hconcat|].
  exists segs. split; [exact Hlen|exact Htrace].
Defined.

(** The log of [parse_doc] for twelve documents that cannot be read and a
    batch size of five. *)
Example parse_doc_batches_log :
  let l := map (fun n => ["in"; "g"; n]%string)
             ["a"; "b"; "c"; "d"; "e"; "f"; "g"; "h"; "i"; "j"; "k"; "l"]%string in
  let started ev := match ev with Log _ (MsgBatchStart _ _) => true | _ => false end in
  List.filter started
    (w_trace (snd (parse_doc sample_env l ["out"; "g"]%string 5 default_options
                     sample_world)))
  = [Log INFO (MsgBatchStart 1 3); Log INFO (MsgBatchStart 2 3);
     Log INFO (MsgBatchStart 3 3)].
Proof. vm_compute. reflexivity. Qed.
